(** * Identity and access management: session lifecycle and permission resolution

    A shallow embedding of the authentication session lifecycle
    (AuthenticationService, AuthenticationGuard, AuthSessionService,
    SessionRepositoryService), of the transport crypto (CryptoService) and of
    the permission resolver (AuthorizationService.hasPermission), with the
    properties the specification states about them. *)

From Stdlib Require Import ZArith Lia List Ascii String Bool.
From Stdlib Require QArith.
From Stdlib Require Qround.
From stdpp Require Import base option strings pretty list gmap sets fin_sets.

Local Open Scope Z_scope.
Local Open Scope string_scope.

(* ===================================================================== *)
(** * Exceptions and the result of a call *)
(* ===================================================================== *)

(** [HttpStatus] of @nestjs/common, the members the sources use. *)
Inductive HttpStatus :=
| UNAUTHORIZED
| FORBIDDEN
| NOT_FOUND
| CONFLICT
| INTERNAL_SERVER_ERROR.

Definition statusCode (s : HttpStatus) : Z :=
  match s with
  | UNAUTHORIZED => 401
  | FORBIDDEN => 403
  | NOT_FOUND => 404
  | CONFLICT => 409
  | INTERNAL_SERVER_ERROR => 500
  end.

(** What jsonwebtoken's verify can reject a token with. *)
Inductive JwtFailure :=
| TokenExpiredError
| InvalidSignature
| JwtMalformed
| NotBeforeError.

(** Everything a call of the modelled code can throw. *)
Inductive Exception :=
| HttpException (message : string) (status : HttpStatus)
| JsonWebTokenError (why : JwtFailure)
| TypeError (what : string)
| CryptoError (what : string)
| MongoServerError (what : string).

(** A promise that has settled: fulfilled with a value or rejected. *)
Inductive Result (A : Type) :=
| Ok (a : A)
| Throw (e : Exception).
Arguments Ok {A} a.
Arguments Throw {A} e.

Definition bind {A B} (r : Result A) (k : A -> Result B) : Result B :=
  match r with
  | Ok a => k a
  | Throw e => Throw e
  end.

(** [try { body } catch (error) { handler }]: every exception of the body,
    whichever statement of it threw, runs the handler. *)
Definition tryCatch {A} (body : Result A) (handler : Exception -> Result A) : Result A :=
  match body with
  | Ok a => Ok a
  | Throw e => handler e
  end.

Global Instance Result_ret : MRet Result := fun A a => Ok a.
Global Instance Result_bind : MBind Result := fun A B k r => bind r k.

Global Instance HttpStatus_eq_dec : EqDecision HttpStatus.
Proof. solve_decision. Defined.
Global Instance JwtFailure_eq_dec : EqDecision JwtFailure.
Proof. solve_decision. Defined.
Global Instance Exception_eq_dec : EqDecision Exception.
Proof. solve_decision. Defined.

(** JavaScript truthiness of an optional string ([!x] is its negation):
    [undefined] and the empty string are falsy. *)
Definition truthy (x : option string) : bool :=
  match x with
  | None => false
  | Some s => negb (bool_decide (s = ""))
  end.

(** [if (!x) throw e;] on an optional string, after which [x] is a
    non-empty string. *)
Definition orThrow (x : option string) (e : Exception) : Result string :=
  match x with
  | Some s => if truthy x then Ok s else Throw e
  | None => Throw e
  end.

(** Truthiness of an optional boolean ([administratorAccess?: boolean]). *)
Definition truthyFlag (x : option bool) : bool :=
  match x with
  | Some true => true
  | _ => false
  end.

(* ===================================================================== *)
(** * Permission resolver (authorization.service.ts) *)
(* ===================================================================== *)

(** Permission codes are strings. *)
Abbreviation Permission := string (only parsing).

Module RoleModel.
Record t := mk {
  id : string;
  title : string;
  color : string;
  description : option string;
  includedPermissions : list Permission;
  excludedPermissions : list Permission;
}.
End RoleModel.

Module UserAuthorizationCredentialsModel.
Record t := mk {
  roles : list RoleModel.t;
  includedPermissions : gset Permission;
  excludedPermissions : gset Permission;
  administratorAccess : option bool;
}.
End UserAuthorizationCredentialsModel.

Module AuthorizationService.
Import UserAuthorizationCredentialsModel.

(** [roles.flatMap((r) => f(r))] *)
Definition flatMap {A B} (f : A -> list B) (l : list A) : list B :=
  List.flat_map f l.

(** [for (const p of src) if (!excluded.has(p)) effective.add(p)] *)
Definition addUnlessExcluded (excluded src effective : gset Permission) : gset Permission :=
  set_fold (fun p acc => if bool_decide (p ∈ excluded) then acc else {[ p ]} ∪ acc)
           effective src.

Section WithIdentityService.
(** [identityService.getUserAuthorizationCredentials]: the user lookup,
    an external collaborator of the resolver. *)
Variable getUserAuthorizationCredentials : string -> Result t.

Definition hasPermission (userId : string) (requiredPermissions : list string)
  : Result bool :=
  if (Z.of_nat (length requiredPermissions) =? 0)%Z then Ok true else
  creds ← getUserAuthorizationCredentials userId;
  if truthyFlag (administratorAccess creds) then Ok true else
  let userExcluded : gset Permission := excludedPermissions creds in
  let userIncluded : gset Permission := includedPermissions creds in
  let roleExcluded : gset Permission :=
    list_to_set (flatMap RoleModel.excludedPermissions (roles creds)) in
  let roleIncluded : gset Permission :=
    list_to_set (flatMap RoleModel.includedPermissions (roles creds)) in
  if existsb (fun perm => bool_decide (perm ∈ userExcluded)
                          || bool_decide (perm ∈ roleExcluded))
             requiredPermissions
  then Ok false else
  let effective := addUnlessExcluded roleExcluded roleIncluded ∅ in
  let effective := addUnlessExcluded userExcluded userIncluded effective in
  Ok (forallb (fun p => bool_decide (p ∈ effective)) requiredPermissions).
End WithIdentityService.
End AuthorizationService.

(* ===================================================================== *)
(** * Data model of identity and sessions *)
(* ===================================================================== *)

(** Modelled from the spec: the [PLATFORMS] enum (enum/platforms.enum.ts,
    whose code is not at hand); the specification names web, mobile and
    desktop. *)
Inductive PLATFORMS := WEB | MOBILE | DESKTOP.

Global Instance PLATFORMS_eq_dec : EqDecision PLATFORMS.
Proof. solve_decision. Defined.

Module PhoneModel.
Record t := mk { dialCode : string; number : string }.
End PhoneModel.

Module EmailAddressModel.
Record t := mk { address : string }.
End EmailAddressModel.

Module UserModel.
Record t := mk {
  id : string;
  userType : string;
  firstName : string;
  lastName : string;
  username : string;
  email : EmailAddressModel.t;
  phone : PhoneModel.t;
  roles : list string;
  teams : list string;
  includedPermissions : list string;
  excludedPermissions : list string;
  includedScopes : list string;
  excludedScopes : list string;
  administratorAccess : option bool;
  createdAt : Z;
  updatedAt : Z;
  deletedAt : option Z;
}.
End UserModel.

Module UserAuthenticationCredentialsModel.
Record t := mk {
  id : string;
  email : EmailAddressModel.t;
  username : string;
  password : string;
}.
End UserAuthenticationCredentialsModel.

(** A document of the [users] collection. *)
Module UserEntity.
Record t := mk {
  id : string;
  firstName : string;
  lastName : string;
  username : string;
  email : EmailAddressModel.t;
  phone : PhoneModel.t;
  password : string;
  userType : string;
  roles : list string;
  teams : list string;
  includedPermissions : list string;
  excludedPermissions : list string;
  includedScopes : list string;
  excludedScopes : list string;
  administratorAccess : option bool;
  createdAt : Z;
  updatedAt : Z;
  deletedAt : option Z;
  isDeleted : bool;
}.

Definition toModel (doc : t) : UserModel.t :=
  {| UserModel.id := id doc;
     UserModel.userType := userType doc;
     UserModel.firstName := firstName doc;
     UserModel.lastName := lastName doc;
     UserModel.username := username doc;
     UserModel.email := EmailAddressModel.mk (EmailAddressModel.address (email doc));
     UserModel.phone := PhoneModel.mk (PhoneModel.dialCode (phone doc))
                                      (PhoneModel.number (phone doc));
     UserModel.roles := roles doc;
     UserModel.teams := teams doc;
     UserModel.includedPermissions := includedPermissions doc;
     UserModel.excludedPermissions := excludedPermissions doc;
     UserModel.includedScopes := includedScopes doc;
     UserModel.excludedScopes := excludedScopes doc;
     UserModel.administratorAccess := administratorAccess doc;
     UserModel.createdAt := createdAt doc;
     UserModel.updatedAt := updatedAt doc;
     UserModel.deletedAt := deletedAt doc |}.

Definition toAuthenticationCredentialsModel (doc : t)
  : UserAuthenticationCredentialsModel.t :=
  {| UserAuthenticationCredentialsModel.id := id doc;
     UserAuthenticationCredentialsModel.email :=
       EmailAddressModel.mk (EmailAddressModel.address (email doc));
     UserAuthenticationCredentialsModel.username := username doc;
     UserAuthenticationCredentialsModel.password := password doc |}.
End UserEntity.

Module CookieOptions.
Record t := mk {
  httpOnly : bool;
  secure : bool;
  sameSite : string;
  maxAge : Z;
}.
End CookieOptions.

Module SessionModel.
Record t := mk {
  id : string;
  user : string;
  ipAddress : string;
  userAgent : string;
  accessToken : string;
  refreshToken : string;
  startedAt : Z;
  endsAt : Z;
  platform : PLATFORMS;
  createdAt : Z;
  updatedAt : Z;
  deletedAt : option Z;
}.
End SessionModel.

Module CreateSessionModel.
Record t := mk {
  user : string;
  ipAddress : string;
  userAgent : string;
  accessToken : string;
  refreshToken : string;
  startedAt : Z;
  endsAt : Z;
  platform : PLATFORMS;
}.

(** [generateUnixTime()] is [now]; [maxAge] is in milliseconds. *)
Definition requestToSessionModel (now : Z) (user ipAddress userAgent : string)
    (platform : PLATFORMS) (accessToken refreshToken : string)
    (sessionCookieOptions : CookieOptions.t) : t :=
  {| user := user;
     ipAddress := ipAddress;
     userAgent := userAgent;
     platform := platform;
     accessToken := accessToken;
     refreshToken := refreshToken;
     startedAt := now;
     endsAt := now + CookieOptions.maxAge sessionCookieOptions / 1000 |}.
End CreateSessionModel.

(** A document of the [sessions] collection; its [_id] is the key under
    which the collection holds it. *)
Module SessionEntity.
Record t := mk {
  user : string;
  ipAddress : string;
  userAgent : string;
  accessToken : string;
  refreshToken : string;
  startedAt : Z;
  endsAt : Z;
  platform : PLATFORMS;
  createdAt : Z;
  updatedAt : Z;
  deletedAt : option Z;
  isDeleted : bool;
}.

Definition toModel (id : string) (doc : t) : SessionModel.t :=
  {| SessionModel.id := id;
     SessionModel.user := user doc;
     SessionModel.ipAddress := ipAddress doc;
     SessionModel.userAgent := userAgent doc;
     SessionModel.accessToken := accessToken doc;
     SessionModel.refreshToken := refreshToken doc;
     SessionModel.startedAt := startedAt doc;
     SessionModel.endsAt := endsAt doc;
     SessionModel.platform := platform doc;
     SessionModel.createdAt := createdAt doc;
     SessionModel.updatedAt := updatedAt doc;
     SessionModel.deletedAt := deletedAt doc |}.
End SessionEntity.

Module SignInModel.
Record t := mk {
  identifier : string;
  password : string;
  ipAddress : string;
  userAgent : string;
  platform : PLATFORMS;
}.
End SignInModel.

Module RefreshSessionModel.
Record t := mk {
  accessToken : option string;
  refreshToken : option string;
  sessionId : option string;
}.
End RefreshSessionModel.

Module AuthenticationCredentialsModel.
Record t := mk {
  accessToken : string;
  refreshToken : string;
  sessionId : string;
  user : UserModel.t;
  accessTokenCookieOptions : CookieOptions.t;
  refreshTokenCookieOptions : CookieOptions.t;
  sessionCookieOptions : CookieOptions.t;
}.
End AuthenticationCredentialsModel.

(** The claims a token carries: [{ user }] for an access token,
    [{ user, accessToken }] for a refresh token. *)
Module JwtPayload.
Record t := mk {
  user : UserModel.t;
  accessToken : option string;
}.
End JwtPayload.

(* ===================================================================== *)
(** * The database and asynchronous calls *)
(* ===================================================================== *)

(** The two collections the session lifecycle touches.  [users] keeps the
    collection's natural order ([find] returns matches in that order);
    [sessions] is keyed by [_id].  Ids are the texts of ObjectIds: what
    Mongoose does with a string it cannot cast to an ObjectId is not
    modelled. *)
Record Database := mkDatabase {
  users : list UserEntity.t;
  sessions : gmap string SessionEntity.t;
}.

(** Modelled from the spec: the soft-delete plugin that the MongoDB module
    loads (services/mongodb/soft-delete.plugin.ts), whose code is not at
    hand.  The architecture notes of the MongoDB service give it, and the
    specification's sign-out agrees with them: every schema gets
    [isDeleted] (default false) next to [deletedAt], and the queries find,
    findOne and findOneAndUpdate only match documents whose [isDeleted] is
    not true.  [findById] is a findOne and [findByIdAndUpdate] a
    findOneAndUpdate; [deleteMany] is not filtered. *)
Definition softDeleteFilter (isDeleted : bool) : bool := negb isDeleted.

(** The update documents the session repository passes to
    [findByIdAndUpdate]. *)
Inductive SessionUpdate :=
| SetTokens (accessToken refreshToken : string)
| SetDeletedAt (deletedAt : Z).

(** One query of a Mongoose model, with the type of what it resolves to. *)
Inductive MongoQuery : Type → Type :=
| UserFindByCredentials (identifier : string) : MongoQuery (list UserEntity.t)
| UserFindById (id : string) : MongoQuery (option UserEntity.t)
| SessionSave (oid : string) (model : CreateSessionModel.t)
    : MongoQuery (string * SessionEntity.t)
| SessionFindById (id : string) : MongoQuery (option SessionEntity.t)
| SessionFindByIdAndUpdate (id : string) (update : SessionUpdate)
    : MongoQuery (option SessionEntity.t)
| SessionDeleteMany (user : string) (platform : PLATFORMS) : MongoQuery unit.

Definition applySessionUpdate (now : Z) (update : SessionUpdate) (doc : SessionEntity.t)
  : SessionEntity.t :=
  match update with
  | SetTokens accessToken refreshToken =>
      {| SessionEntity.user := SessionEntity.user doc;
         SessionEntity.ipAddress := SessionEntity.ipAddress doc;
         SessionEntity.userAgent := SessionEntity.userAgent doc;
         SessionEntity.accessToken := accessToken;
         SessionEntity.refreshToken := refreshToken;
         SessionEntity.startedAt := SessionEntity.startedAt doc;
         SessionEntity.endsAt := SessionEntity.endsAt doc;
         SessionEntity.platform := SessionEntity.platform doc;
         SessionEntity.createdAt := SessionEntity.createdAt doc;
         (* timespan-unix-converter: pre('findOneAndUpdate') *)
         SessionEntity.updatedAt := now;
         SessionEntity.deletedAt := SessionEntity.deletedAt doc;
         SessionEntity.isDeleted := SessionEntity.isDeleted doc |}
  | SetDeletedAt deletedAt =>
      {| SessionEntity.user := SessionEntity.user doc;
         SessionEntity.ipAddress := SessionEntity.ipAddress doc;
         SessionEntity.userAgent := SessionEntity.userAgent doc;
         SessionEntity.accessToken := SessionEntity.accessToken doc;
         SessionEntity.refreshToken := SessionEntity.refreshToken doc;
         SessionEntity.startedAt := SessionEntity.startedAt doc;
         SessionEntity.endsAt := SessionEntity.endsAt doc;
         SessionEntity.platform := SessionEntity.platform doc;
         SessionEntity.createdAt := SessionEntity.createdAt doc;
         SessionEntity.updatedAt := now;
         SessionEntity.deletedAt := Some deletedAt;
         SessionEntity.isDeleted := SessionEntity.isDeleted doc |}
  end.

(** The document [new this.sessionEntity(createSessionModel).save()] writes;
    timespan-unix-converter's pre('save') hook stamps it. *)
Definition newSessionDocument (now : Z) (model : CreateSessionModel.t) : SessionEntity.t :=
  {| SessionEntity.user := CreateSessionModel.user model;
     SessionEntity.ipAddress := CreateSessionModel.ipAddress model;
     SessionEntity.userAgent := CreateSessionModel.userAgent model;
     SessionEntity.accessToken := CreateSessionModel.accessToken model;
     SessionEntity.refreshToken := CreateSessionModel.refreshToken model;
     SessionEntity.startedAt := CreateSessionModel.startedAt model;
     SessionEntity.endsAt := CreateSessionModel.endsAt model;
     SessionEntity.platform := CreateSessionModel.platform model;
     SessionEntity.createdAt := now;
     SessionEntity.updatedAt := now;
     SessionEntity.deletedAt := None;
     SessionEntity.isDeleted := false |}.

Definition visibleSession (db : Database) (id : string) : option SessionEntity.t :=
  match sessions db !! id with
  | Some doc => if softDeleteFilter (SessionEntity.isDeleted doc) then Some doc else None
  | None => None
  end.

Definition matchesCredentials (identifier : string) (doc : UserEntity.t) : bool :=
  bool_decide (UserEntity.username doc = identifier)
  || bool_decide (EmailAddressModel.address (UserEntity.email doc) = identifier).

(** What the database does with one query at time [now]: the answer (or the
    driver's error) and the database afterwards.  Each query is atomic. *)
Definition execQuery (now : Z) {X} (q : MongoQuery X) (db : Database) : Result X * Database :=
  match q in MongoQuery X return Result X * Database with
  | UserFindByCredentials identifier =>
      (Ok (List.filter (fun doc => softDeleteFilter (UserEntity.isDeleted doc)
                                   && matchesCredentials identifier doc)
                       (users db)), db)
  | UserFindById id =>
      (Ok (List.find (fun doc => softDeleteFilter (UserEntity.isDeleted doc)
                                 && bool_decide (UserEntity.id doc = id))
                     (users db)), db)
  | SessionSave oid model =>
      match sessions db !! oid with
      | Some _ => (Throw (MongoServerError "E11000 duplicate key error"), db)
      | None =>
          let doc := newSessionDocument now model in
          (Ok (oid, doc), mkDatabase (users db) (<[oid := doc]> (sessions db)))
      end
  | SessionFindById id => (Ok (visibleSession db id), db)
  | SessionFindByIdAndUpdate id update =>
      match visibleSession db id with
      | Some doc =>
          (Ok (Some doc),
           mkDatabase (users db) (<[id := applySessionUpdate now update doc]> (sessions db)))
      | None => (Ok None, db)
      end
  | SessionDeleteMany user platform =>
      (Ok tt,
       mkDatabase (users db)
         (filter (fun kv => ¬ (SessionEntity.user kv.2 = user
                               ∧ SessionEntity.platform kv.2 = platform))
                 (sessions db)))
  end.

(** An asynchronous call: it returns, throws, or awaits a query and goes on
    with the answer.  The awaits of queries are the points where the
    database can change under a call. *)
Inductive Async (A : Type) : Type :=
| Return (a : A)
| Reject (e : Exception)
| Await {X : Type} (q : MongoQuery X) (k : Result X → Async A).
Arguments Return {A} a.
Arguments Reject {A} e.
Arguments Await {A X} q k.

Fixpoint Async_bind {A B} (f : A → Async B) (m : Async A) : Async B :=
  match m with
  | Return a => f a
  | Reject e => Reject e
  | Await q k => Await q (fun r => Async_bind f (k r))
  end.

Global Instance Async_ret : MRet Async := fun A a => Return a.
Global Instance Async_mbind : MBind Async := fun A B f m => Async_bind f m.

(** [await model.query(...)]: a rejected query throws at the await. *)
Definition await {X} (q : MongoQuery X) : Async X :=
  Await q (fun r => match r with Ok x => Return x | Throw e => Reject e end).

(** A synchronous (or database-free) computation inside an async function. *)
Definition lift {A} (r : Result A) : Async A :=
  match r with Ok a => Return a | Throw e => Reject e end.

(** A call that runs to completion with no other call in between.  [now] is
    the clock during the call: all its [generateUnixTime()] read the same
    second. *)
Fixpoint run (now : Z) {A} (m : Async A) (db : Database) : Result A * Database :=
  match m with
  | Return a => (Ok a, db)
  | Reject e => (Throw e, db)
  | Await q k => let '(r, db') := execQuery now q db in run now (k r) db'
  end.

(** One scheduling step of a call: up to and including its next query. *)
Definition step (now : Z) {A} (m : Async A) (db : Database) : Async A * Database :=
  match m with
  | Await q k => let '(r, db') := execQuery now q db in (k r, db')
  | _ => (m, db)
  end.

(** Two calls in flight and the order in which the scheduler resumes them. *)
Inductive Turn := First | Second.

(** [now1] and [now2] are the clocks of the first and of the second call. *)
Fixpoint interleave (now1 now2 : Z) {A B} (schedule : list Turn)
    (m1 : Async A) (m2 : Async B) (db : Database) : Async A * Async B * Database :=
  match schedule with
  | [] => (m1, m2, db)
  | First :: schedule =>
      let '(m1', db') := step now1 m1 db in interleave now1 now2 schedule m1' m2 db'
  | Second :: schedule =>
      let '(m2', db') := step now2 m2 db in interleave now1 now2 schedule m1 m2' db'
  end.

(* ===================================================================== *)
(** * Session repository and session service *)
(* ===================================================================== *)

(** session-repository.service.ts *)
Module SessionRepositoryService.
Definition createSession (oid : string) (createSessionModel : CreateSessionModel.t)
  : Async SessionModel.t :=
  entity ← await (SessionSave oid createSessionModel);
  mret (SessionEntity.toModel entity.1 entity.2).

Definition updateSessionTokens (sessionId accessToken refreshToken : string) : Async unit :=
  _ ← await (SessionFindByIdAndUpdate sessionId (SetTokens accessToken refreshToken));
  mret tt.

Definition findSessionById (id : string) : Async (option SessionModel.t) :=
  entity ← await (SessionFindById id);
  mret (match entity with
        | Some doc => Some (SessionEntity.toModel id doc)
        | None => None
        end).

(** [generateUnixTime()] is [now]. *)
Definition deleteSessionById (now : Z) (id : string) : Async bool :=
  result ← await (SessionFindByIdAndUpdate id (SetDeletedAt now));
  mret (match result with Some _ => true | None => false end).

Definition deleteSessionsByUserIdAndPlatform (userId : string) (platform : PLATFORMS)
  : Async unit :=
  await (SessionDeleteMany userId platform).
End SessionRepositoryService.

(** auth-session.service.ts *)
Module AuthSessionService.
Definition createSession (oid : string) (createSessionModel : CreateSessionModel.t)
  : Async string :=
  session ← SessionRepositoryService.createSession oid createSessionModel;
  mret (SessionModel.id session).

Definition getSessionById (sessionId : string) : Async (option SessionModel.t) :=
  session ← SessionRepositoryService.findSessionById sessionId;
  mret session.

Definition updateSessionTokens (sessionId accessToken refreshToken : string) : Async unit :=
  SessionRepositoryService.updateSessionTokens sessionId accessToken refreshToken.

Definition deleteSession (now : Z) (sessionId : string) : Async unit :=
  _ ← SessionRepositoryService.deleteSessionById now sessionId;
  mret tt.

Definition invalidateOtherSessions (userId : string) (platform : PLATFORMS) : Async unit :=
  SessionRepositoryService.deleteSessionsByUserIdAndPlatform userId platform.
End AuthSessionService.

(** identity.service.ts, the two lookups sign-in uses, over
    user-repository.service.ts. *)
Module IdentityService.
Definition findUserByCredentials (identifier : string)
  : Async (option UserAuthenticationCredentialsModel.t) :=
  userEntity ← await (UserFindByCredentials identifier);
  mret (match userEntity with
        | doc :: _ => Some (UserEntity.toAuthenticationCredentialsModel doc)
        | [] => None
        end).

Definition findUserById (id : string) : Async (option UserModel.t) :=
  userEntity ← await (UserFindById id);
  mret (match userEntity with
        | Some doc => Some (UserEntity.toModel doc)
        | None => None
        end).

(** The declared result type does not exclude [null]; the caller in
    sign-in tests for it, so the result stays nullable here. *)
Definition getUserByCredentials (identifier : string)
  : Async (option UserAuthenticationCredentialsModel.t) :=
  userCredentialsModel ← findUserByCredentials identifier;
  match userCredentialsModel with
  | None => Reject (HttpException "INVALID_CREDENTIALS" NOT_FOUND)
  | Some _ => mret userCredentialsModel
  end.

Definition getUserById (id : string) : Async UserModel.t :=
  userModel ← findUserById id;
  match userModel with
  | None => Reject (HttpException "USER_NOT_FOUND" NOT_FOUND)
  | Some m => mret m
  end.
End IdentityService.

(* ===================================================================== *)
(** * External collaborators of the authentication service *)
(* ===================================================================== *)

(** The libraries and services the authentication service is constructed
    with, as interfaces: @nestjs/jwt's JwtService with the configured secret
    and algorithm, bcrypt, the crypto service (each [encryptString] draws a
    nonce, here an argument), and the configuration read at construction. *)
Class Collaborators := {
  (** [jwtService.sign(payload, { expiresIn, secret, algorithm })] at [now] *)
  jwtSign : JwtPayload.t → string → Z → string;
  (** jsonwebtoken's verdict on a token at [now]: its payload, or why not *)
  jwtVerify : string → Z → JwtPayload.t + JwtFailure;
  (** [bcrypt.compare(plain, hash)] *)
  bcryptCompare : string → string → bool;
  Nonce : Type;
  (** the crypto service: [encryptString] with the nonce it draws, and what
      [decryptString] returns when it does not throw *)
  encryptString : Nonce → string → string;
  decrypt : string → option string;
  ACCESS_TOKEN_EXPIRATION : string;
  REFRESH_TOKEN_EXPIRATION : string;
  (** [timeToSeconds(configService.get(...)) * 1000] of the three cookies *)
  sessionMaxAge : Z;
  accessTokenMaxAge : Z;
  refreshTokenMaxAge : Z;
  (** [process.env.NODE_ENV === 'production'] *)
  production : bool;
}.

(** [jwtService.verifyAsync(token, { secret, algorithms })] at [now] *)
Definition jwtVerifyAsync `{Collaborators} (token : string) (now : Z) : Result JwtPayload.t :=
  match jwtVerify token now with
  | inl payload => Ok payload
  | inr why => Throw (JsonWebTokenError why)
  end.

(** [cryptoService.decryptString(token)] *)
Definition decryptString `{Collaborators} (token : string) : Result string :=
  match decrypt token with
  | Some plaintext => Ok plaintext
  | None => Throw (CryptoError "Unsupported state or unable to authenticate data")
  end.

(** The nonces one credentials model consumes, in the order of its three
    [encryptString] calls. *)
Record Nonces `{Collaborators} := mkNonces {
  accessTokenNonce : Nonce;
  refreshTokenNonce : Nonce;
  sessionIdNonce : Nonce;
}.

(** [s.split(sep)] for a one-character separator. *)
Fixpoint split (sep : ascii) (s : string) : list string :=
  match s with
  | EmptyString => [EmptyString]
  | String c rest =>
      if Ascii.eqb c sep then EmptyString :: split sep rest
      else match split sep rest with
           | w :: ws => String c w :: ws
           | [] => [String c EmptyString]
           end
  end.

(* ===================================================================== *)
(** * Authentication service (authentication.service.ts) *)
(* ===================================================================== *)

Module AuthenticationService.
Section WithCollaborators.
Context `{Collaborators}.

Definition sessionCookieOptions : CookieOptions.t :=
  {| CookieOptions.httpOnly := true; CookieOptions.secure := production;
     CookieOptions.sameSite := "lax"; CookieOptions.maxAge := sessionMaxAge |}.
Definition accessTokenCookieOptions : CookieOptions.t :=
  {| CookieOptions.httpOnly := true; CookieOptions.secure := production;
     CookieOptions.sameSite := "lax"; CookieOptions.maxAge := accessTokenMaxAge |}.
Definition refreshTokenCookieOptions : CookieOptions.t :=
  {| CookieOptions.httpOnly := true; CookieOptions.secure := production;
     CookieOptions.sameSite := "lax"; CookieOptions.maxAge := refreshTokenMaxAge |}.

Definition generateAuthenticationCredentialsModel (nonces : Nonces)
    (userModel : UserModel.t) (accessToken refreshToken sessionId : string)
  : AuthenticationCredentialsModel.t :=
  {| AuthenticationCredentialsModel.user := userModel;
     AuthenticationCredentialsModel.accessToken :=
       encryptString (accessTokenNonce nonces) accessToken;
     AuthenticationCredentialsModel.accessTokenCookieOptions := accessTokenCookieOptions;
     AuthenticationCredentialsModel.refreshToken :=
       encryptString (refreshTokenNonce nonces) refreshToken;
     AuthenticationCredentialsModel.refreshTokenCookieOptions := refreshTokenCookieOptions;
     AuthenticationCredentialsModel.sessionId :=
       encryptString (sessionIdNonce nonces) sessionId;
     AuthenticationCredentialsModel.sessionCookieOptions := sessionCookieOptions |}.

Definition generateAccessToken (now : Z) (user : UserModel.t) : string :=
  jwtSign (JwtPayload.mk user None) ACCESS_TOKEN_EXPIRATION now.

Definition generateRefreshToken (now : Z) (user : UserModel.t) (accessToken : string)
  : string :=
  jwtSign (JwtPayload.mk user (Some accessToken)) REFRESH_TOKEN_EXPIRATION now.

Definition verifyAccessToken (now : Z) (accessToken : string) : Result JwtPayload.t :=
  jwtVerifyAsync accessToken now.

Definition verifyRefreshToken (now : Z) (refreshToken accessToken : string)
  : Result JwtPayload.t :=
  tryCatch
    (decodedRefreshToken ← jwtVerifyAsync refreshToken now;
     if bool_decide (JwtPayload.accessToken decodedRefreshToken ≠ Some accessToken)
     then Throw (HttpException "INVALID_REFRESH_TOKEN" UNAUTHORIZED)
     else Ok decodedRefreshToken)
    (fun error => Throw (HttpException "EXPIRED_REFRESH_TOKEN" UNAUTHORIZED)).

(** [oid] is the [_id] the new session document gets; [now] is the clock
    of the call. *)
Definition signIn (now : Z) (oid : string) (nonces : Nonces)
    (signInModel : SignInModel.t) : Async AuthenticationCredentialsModel.t :=
  (* CHECK USER IDENTIFIER *)
  userCredentialsModel ←
    IdentityService.getUserByCredentials (SignInModel.identifier signInModel);
  match userCredentialsModel with
  | None => Reject (HttpException "INVALID_CREDENTIALS" UNAUTHORIZED)
  | Some userCredentialsModel =>
  (* CHECK PASSWORD *)
  let isPasswordValid :=
    bcryptCompare (SignInModel.password signInModel)
                  (UserAuthenticationCredentialsModel.password userCredentialsModel) in
  if negb isPasswordValid
  then Reject (HttpException "INVALID_CREDENTIALS" UNAUTHORIZED) else
  (* GENERATE TOKENS *)
  userModel ←
    IdentityService.getUserById
      (UserAuthenticationCredentialsModel.id userCredentialsModel);
  let accessToken := generateAccessToken now userModel in
  let refreshToken := generateRefreshToken now userModel accessToken in
  (* INVALIDATE OTHER SESSIONS *)
  _ ← AuthSessionService.invalidateOtherSessions
        (UserModel.id userModel) (SignInModel.platform signInModel);
  (* CREATE SESSION *)
  let createSessionModel :=
    CreateSessionModel.requestToSessionModel now
      (UserModel.id userModel)
      (SignInModel.ipAddress signInModel)
      (SignInModel.userAgent signInModel)
      (SignInModel.platform signInModel)
      accessToken refreshToken sessionCookieOptions in
  sessionId ← AuthSessionService.createSession oid createSessionModel;
  (* RETURN CREDENTIALS *)
  mret (generateAuthenticationCredentialsModel nonces userModel accessToken
          refreshToken sessionId)
  end.

Definition verifySession (now : Z) (sessionId : string) : Async SessionModel.t :=
  session ← AuthSessionService.getSessionById sessionId;
  match session with
  | None => Reject (HttpException "SESSION_NOT_FOUND" UNAUTHORIZED)
  | Some session =>
      if (SessionModel.endsAt session <? now)%Z
      then Reject (HttpException "SESSION_NOT_FOUND" UNAUTHORIZED)
      else mret session
  end.

Definition refresh (now : Z) (nonces : Nonces)
    (refreshSessionModel : RefreshSessionModel.t)
  : Async AuthenticationCredentialsModel.t :=
  let encryptedAccessToken := RefreshSessionModel.accessToken refreshSessionModel in
  let encryptedRefreshToken := RefreshSessionModel.refreshToken refreshSessionModel in
  let encryptedSessionId := RefreshSessionModel.sessionId refreshSessionModel in
  encryptedSessionId ←
    lift (orThrow encryptedSessionId (HttpException "INVALID_SESSION_ID" UNAUTHORIZED));
  encryptedAccessToken ←
    lift (orThrow encryptedAccessToken (HttpException "INVALID_ACCESS_TOKEN" UNAUTHORIZED));
  encryptedRefreshToken ←
    lift (orThrow encryptedRefreshToken (HttpException "INVALID_REFRESH_TOKEN" UNAUTHORIZED));
  sessionId ← lift (decryptString encryptedSessionId);
  session ← AuthSessionService.getSessionById sessionId;
  match session with
  | None => Reject (HttpException "SESSION_NOT_FOUND" UNAUTHORIZED)
  | Some session =>
  if (SessionModel.endsAt session <? now)%Z
  then Reject (HttpException "SESSION_EXPIRED" UNAUTHORIZED) else
  accessToken ← lift (decryptString encryptedAccessToken);
  refreshToken ← lift (decryptString encryptedRefreshToken);
  if bool_decide (SessionModel.accessToken session ≠ accessToken)
  then Reject (HttpException "INVALID_ACCESS_TOKEN" UNAUTHORIZED) else
  if bool_decide (SessionModel.refreshToken session ≠ refreshToken)
  then Reject (HttpException "INVALID_REFRESH_TOKEN" UNAUTHORIZED) else
  decodedRefreshToken ← lift (verifyRefreshToken now refreshToken accessToken);
  let newAccessToken :=
    generateAccessToken now (JwtPayload.user decodedRefreshToken) in
  let newRefreshToken :=
    generateRefreshToken now (JwtPayload.user decodedRefreshToken) newAccessToken in
  _ ← AuthSessionService.updateSessionTokens (SessionModel.id session)
        newAccessToken newRefreshToken;
  mret (generateAuthenticationCredentialsModel nonces
          (JwtPayload.user decodedRefreshToken) newAccessToken newRefreshToken
          (SessionModel.id session))
  end.

Definition signOut (now : Z) (sessionId : option string) : Async unit :=
  sessionId ←
    lift (orThrow sessionId (HttpException "INVALID_SESSION_ID" UNAUTHORIZED));
  session ← AuthSessionService.getSessionById sessionId;
  match session with
  | None => Reject (HttpException "SESSION_NOT_FOUND" UNAUTHORIZED)
  | Some _ =>
      _ ← AuthSessionService.deleteSession now sessionId;
      mret tt
  end.
End WithCollaborators.
End AuthenticationService.

(* ===================================================================== *)
(** * Authentication guard (authentication.guard.ts) *)
(* ===================================================================== *)

(** A header of an Express request: one string or an array of strings. *)
Inductive HeaderValue :=
| Single (value : string)
| Multiple (values : list string).

Module Request.
Record t := mk {
  authorization : option HeaderValue;   (* headers['authorization'] *)
  sessionIdCookie : option string;      (* cookies['sessionId'] *)
  user : option UserModel.t;            (* request['user'] *)
}.
End Request.

Module AuthenticationGuard.
Section WithCollaborators.
Context `{Collaborators}.

Definition getAccessToken (authorizationHeader : option HeaderValue) : Result string :=
  match authorizationHeader with
  | None => Throw (HttpException "NO_ACCESS_TOKEN" UNAUTHORIZED)
  | Some (Single "") => Throw (HttpException "NO_ACCESS_TOKEN" UNAUTHORIZED)
  | Some header =>
      let raw := match header with
                 | Multiple values => head values
                 | Single value => Some value
                 end in
      match raw with
      | None => Throw (TypeError "Cannot read properties of undefined (reading 'split')")
      | Some raw =>
          let parts := split " " raw in
          let type := parts !! 0%nat in
          let token := parts !! 1%nat in
          if bool_decide (type ≠ Some "Bearer")
          then Throw (HttpException "INVALID_ACCESS_TOKEN" UNAUTHORIZED)
          else match token with
               | None => Throw (TypeError "The first argument must be of type string")
               | Some token => decryptString token
               end
      end
  end.

Definition getSessionId (sessionIdCookie : option string) : Result string :=
  sessionId ←
    orThrow sessionIdCookie (HttpException "INVALID_SESSION_ID" UNAUTHORIZED);
  decryptString sessionId.

(** Resolves to [true] with the request carrying the token's user. *)
Definition canActivate (now : Z) (request : Request.t) : Async (bool * Request.t) :=
  accessToken ← lift (getAccessToken (Request.authorization request));
  sessionId ← lift (getSessionId (Request.sessionIdCookie request));
  session ← AuthSessionService.getSessionById sessionId;
  match session with
  | None => Reject (TypeError "Cannot read properties of null (reading 'endsAt')")
  | Some session =>
      if (SessionModel.endsAt session <? now)%Z
      then Reject (HttpException "SESSION_EXPIRED" UNAUTHORIZED) else
      if bool_decide (SessionModel.accessToken session ≠ accessToken)
      then Reject (HttpException "INVALID_ACCESS_TOKEN" UNAUTHORIZED) else
      lift (tryCatch
              (payload ← AuthenticationService.verifyAccessToken now accessToken;
               Ok (true, Request.mk (Request.authorization request)
                                    (Request.sessionIdCookie request)
                                    (Some (JwtPayload.user payload))))
              (fun _ => Throw (HttpException "EXPIRED_ACCESS_TOKEN" UNAUTHORIZED)))
  end.
End WithCollaborators.
End AuthenticationGuard.

(* ===================================================================== *)
(** * Transport crypto (crypto.service.ts) *)
(* ===================================================================== *)

(** A [Buffer] is a list of bytes, a JavaScript string a list of UTF-16 code
    units; both are integers, in the ranges below. *)
Definition isByte (b : Z) : Prop := (0 ≤ b < 256)%Z.
Definition isCodeUnit (u : Z) : Prop := (0 ≤ u < 65536)%Z.

(** [Buffer.from(s, 'utf8')] and [buffer.toString('utf8')]. *)
Module Utf8.
Definition isHighSurrogate (u : Z) : bool := ((55296 <=? u) && (u <=? 56319))%Z.
Definition isLowSurrogate (u : Z) : bool := ((56320 <=? u) && (u <=? 57343))%Z.

(** U+FFFD, written for what cannot be encoded or decoded. *)
Definition replacement : Z := 65533.

Definition encodeCodePoint (cp : Z) : list Z :=
  if (cp <? 128)%Z then [cp]
  else if (cp <? 2048)%Z then [192 + cp / 64; 128 + cp mod 64]%Z
  else if (cp <? 65536)%Z then
    [224 + cp / 4096; 128 + (cp / 64) mod 64; 128 + cp mod 64]%Z
  else [240 + cp / 262144; 128 + (cp / 4096) mod 64;
        128 + (cp / 64) mod 64; 128 + cp mod 64]%Z.

(** A surrogate pair is one code point; a surrogate without its partner is
    written as U+FFFD. *)
Fixpoint encode (s : list Z) : list Z :=
  match s with
  | [] => []
  | u :: rest =>
      if isHighSurrogate u then
        match rest with
        | l :: rest' =>
            if isLowSurrogate l
            then encodeCodePoint (65536 + (u - 55296) * 1024 + (l - 56320))%Z
                   ++ encode rest'
            else encodeCodePoint replacement ++ encode rest
        | [] => encodeCodePoint replacement
        end
      else if isLowSurrogate u then encodeCodePoint replacement ++ encode rest
      else encodeCodePoint u ++ encode rest
  end.

(** The decoder between two bytes of a sequence: how many bytes it still
    needs, the code point so far, and the range the next byte must be in. *)
Record Pending := mkPending {
  needed : Z;
  codePoint : Z;
  lower : Z;
  upper : Z;
}.

Inductive Lead :=
| Emit (cp : Z)
| Expect (p : Pending)
| Invalid.

Definition lead (b : Z) : Lead :=
  if (b <=? 127)%Z then Emit b
  else if ((194 <=? b) && (b <=? 223))%Z then
    Expect (mkPending 1 (b - 192) 128 191)
  else if ((224 <=? b) && (b <=? 239))%Z then
    Expect (mkPending 2 (b - 224) (if (b =? 224)%Z then 160 else 128)
                      (if (b =? 237)%Z then 159 else 191))
  else if ((240 <=? b) && (b <=? 244))%Z then
    Expect (mkPending 3 (b - 240) (if (b =? 240)%Z then 144 else 128)
                      (if (b =? 244)%Z then 143 else 191))
  else Invalid.

(** The code points of a byte sequence; an ill-formed part is replaced by
    U+FFFD and the byte that ended it is read again as a first byte. *)
Fixpoint decodeCodePoints (pending : option Pending) (bytes : list Z) : list Z :=
  match bytes with
  | [] => match pending with Some _ => [replacement] | None => [] end
  | b :: rest =>
      match pending with
      | Some p =>
          if ((lower p <=? b) && (b <=? upper p))%Z then
            let cp := (codePoint p * 64 + (b - 128))%Z in
            if (needed p =? 1)%Z then cp :: decodeCodePoints None rest
            else decodeCodePoints (Some (mkPending (needed p - 1) cp 128 191)) rest
          else
            replacement ::
            match lead b with
            | Emit cp => cp :: decodeCodePoints None rest
            | Expect p' => decodeCodePoints (Some p') rest
            | Invalid => replacement :: decodeCodePoints None rest
            end
      | None =>
          match lead b with
          | Emit cp => cp :: decodeCodePoints None rest
          | Expect p' => decodeCodePoints (Some p') rest
          | Invalid => replacement :: decodeCodePoints None rest
          end
      end
  end.

Definition toCodeUnits (cp : Z) : list Z :=
  if (cp <? 65536)%Z then [cp]
  else [55296 + (cp - 65536) / 1024; 56320 + (cp - 65536) mod 1024]%Z.

Definition decode (bytes : list Z) : list Z :=
  List.flat_map toCodeUnits (decodeCodePoints None bytes).

(** A Unicode scalar value: a code point that is not a surrogate. *)
Definition isScalar (cp : Z) : Prop :=
  (0 ≤ cp < 1114112)%Z ∧ ¬ (55296 ≤ cp ≤ 57343)%Z.

(** No surrogate without its partner. *)
Fixpoint wellFormed (s : list Z) : bool :=
  match s with
  | [] => true
  | u :: rest =>
      if isHighSurrogate u then
        match rest with
        | l :: rest' => isLowSurrogate l && wellFormed rest'
        | [] => false
        end
      else negb (isLowSurrogate u) && wellFormed rest
  end.

End Utf8.

(** [buffer.toString('base64')] and [Buffer.from(s, 'base64')]. *)
Module Base64.
Definition alphabet : string :=
  "ABCDEFGHIJKLMNOPQRSTUVWXYZabcdefghijklmnopqrstuvwxyz0123456789+/".

Definition charOf (sextet : Z) : ascii :=
  match String.get (Z.to_nat sextet) alphabet with
  | Some c => c
  | None => "="%char
  end.

Fixpoint indexOf (c : ascii) (s : string) : option Z :=
  match s with
  | EmptyString => None
  | String c' rest =>
      if Ascii.eqb c c' then Some 0%Z else Z.succ <$> indexOf c rest
  end.

(** The decoder also takes the two characters of the URL-safe alphabet. *)
Definition sextetOf (c : ascii) : option Z :=
  if Ascii.eqb c "-" then Some 62%Z
  else if Ascii.eqb c "_" then Some 63%Z
  else indexOf c alphabet.

Fixpoint encode (bytes : list Z) : string :=
  match bytes with
  | b0 :: b1 :: b2 :: rest =>
      String (charOf (b0 / 4))
        (String (charOf ((b0 mod 4) * 16 + b1 / 16))
           (String (charOf ((b1 mod 16) * 4 + b2 / 64))
              (String (charOf (b2 mod 64)) (encode rest))))
  | [b0; b1] =>
      String (charOf (b0 / 4))
        (String (charOf ((b0 mod 4) * 16 + b1 / 16))
           (String (charOf ((b1 mod 16) * 4)) "="))
  | [b0] =>
      String (charOf (b0 / 4)) (String (charOf ((b0 mod 4) * 16)) "==")
  | [] => ""
  end%Z.

(** The decoder skips every character outside the alphabet and stops at the
    first [=]. *)
Fixpoint sextets (s : string) : list Z :=
  match s with
  | EmptyString => []
  | String c rest =>
      if Ascii.eqb c "=" then []
      else match sextetOf c with
           | Some v => v :: sextets rest
           | None => sextets rest
           end
  end.

(** Four sextets are three bytes; of a last group of two or three sextets
    the bits beyond the last whole byte are dropped. *)
Fixpoint decodeSextets (l : list Z) : list Z :=
  match l with
  | s0 :: s1 :: s2 :: s3 :: rest =>
      (s0 * 4 + s1 / 16) :: ((s1 mod 16) * 16 + s2 / 4) :: ((s2 mod 4) * 64 + s3)
      :: decodeSextets rest
  | [s0; s1; s2] => [s0 * 4 + s1 / 16; (s1 mod 16) * 16 + s2 / 4]
  | [s0; s1] => [s0 * 4 + s1 / 16]
  | _ => []
  end%Z.

Definition decode (s : string) : list Z := decodeSextets (sextets s).
End Base64.

(** The authenticated cipher of node:crypto under the configured algorithm
    and key: [seal iv plaintext] is the ciphertext and the authentication
    tag of createCipheriv/update/final/getAuthTag, [open iv tag ciphertext]
    is what createDecipheriv/setAuthTag/update/final returns when final does
    not throw. *)
Class Cipher := {
  seal : list Z → list Z → list Z * list Z;
  open : list Z → list Z → list Z → option (list Z);
}.

Module CryptoService.
Section WithCipher.
Context `{Cipher}.

(** [iv] is what [crypto.randomBytes(12)] returned. *)
Definition encryptString (iv : list Z) (value : list Z) : string :=
  let '(encrypted, authTag) := seal iv (Utf8.encode value) in
  let token := Base64.encode (iv ++ authTag ++ encrypted) in
  token.

Definition decryptString (token : string) : Result (list Z) :=
  let raw := Base64.decode token in
  let iv := take 12 raw in
  let authTag := take 16 (drop 12 raw) in
  let encrypted := drop 28 raw in
  match open iv authTag encrypted with
  | Some decrypted => Ok (Utf8.decode decrypted)
  | None => Throw (CryptoError "Unsupported state or unable to authenticate data")
  end.
End WithCipher.
End CryptoService.

(** One bit of a buffer flipped. *)
Inductive flipped : list Z → list Z → Prop :=
| flipped_here (bit : Z) (b : Z) (rest : list Z) :
    (0 ≤ bit < 8)%Z → flipped (b :: rest) (Z.lxor b (2 ^ bit) :: rest)
| flipped_later (b : Z) (l l' : list Z) :
    flipped l l' → flipped (b :: l) (b :: l').

(** What is assumed of the cipher: lengths (a 16-byte tag, a ciphertext as
    long as the plaintext), decryption of what it encrypted, and rejection
    of nonce, tag and ciphertext when one bit of them was flipped. *)
Record Authenticated `{Cipher} : Prop := {
  seal_bytes : ∀ iv pt, Forall isByte iv → Forall isByte pt →
    Forall isByte (seal iv pt).1 ∧ Forall isByte (seal iv pt).2;
  seal_length : ∀ iv pt,
    length (seal iv pt).1 = length pt ∧ length (seal iv pt).2 = 16%nat;
  open_seal : ∀ iv pt, Forall isByte pt →
    open iv (seal iv pt).2 (seal iv pt).1 = Some pt;
  open_flipped : ∀ iv pt iv' tag' ct',
    Forall isByte iv → Forall isByte pt →
    length iv' = length iv → length tag' = 16%nat →
    flipped (iv ++ (seal iv pt).2 ++ (seal iv pt).1) (iv' ++ tag' ++ ct') →
    open iv' tag' ct' = None;
}.

(** One bit of one character of a text flipped. *)
Definition flipBit (bit : nat) (c : ascii) : ascii :=
  let 'Ascii b0 b1 b2 b3 b4 b5 b6 b7 := c in
  match bit with
  | 0 => Ascii (negb b0) b1 b2 b3 b4 b5 b6 b7
  | 1 => Ascii b0 (negb b1) b2 b3 b4 b5 b6 b7
  | 2 => Ascii b0 b1 (negb b2) b3 b4 b5 b6 b7
  | 3 => Ascii b0 b1 b2 (negb b3) b4 b5 b6 b7
  | 4 => Ascii b0 b1 b2 b3 (negb b4) b5 b6 b7
  | 5 => Ascii b0 b1 b2 b3 b4 (negb b5) b6 b7
  | 6 => Ascii b0 b1 b2 b3 b4 b5 (negb b6) b7
  | 7 => Ascii b0 b1 b2 b3 b4 b5 b6 (negb b7)
  | _ => c
  end%nat.

Fixpoint flipBitAt (position bit : nat) (s : string) : string :=
  match s, position with
  | EmptyString, _ => EmptyString
  | String c rest, O => String (flipBit bit c) rest
  | String c rest, S position => String c (flipBitAt position bit rest)
  end.

(* ===================================================================== *)
(** * A small concrete deployment *)
(* ===================================================================== *)

(** One user, one web session, and collaborators simple enough to compute
    with: tokens are readable strings, the signature check is a table of
    the tokens issued, encryption puts a mark in front. *)
Module Deployment.
(** The grant set of the specification's example: one role includes A and
    B, another excludes A, and the user is assigned both. *)
Definition broadRole : RoleModel.t :=
  RoleModel.mk "r1" "Editor" "#00f" None ["A"; "B"] [].
Definition narrowRole : RoleModel.t :=
  RoleModel.mk "r2" "Restricted" "#f00" None [] ["A"].
Definition grantSet : UserAuthorizationCredentialsModel.t :=
  UserAuthorizationCredentialsModel.mk [broadRole; narrowRole] ∅ ∅ None.
Definition lookup (userId : string) : Result UserAuthorizationCredentialsModel.t :=
  if bool_decide (userId = "u1") then Ok grantSet
  else Throw (HttpException "USER_NOT_FOUND" NOT_FOUND).

Definition alice : UserEntity.t :=
  {| UserEntity.id := "u1";
     UserEntity.firstName := "Alice";
     UserEntity.lastName := "Liddell";
     UserEntity.username := "alice";
     UserEntity.email := EmailAddressModel.mk "alice@example.com";
     UserEntity.phone := PhoneModel.mk "+90" "5550000000";
     UserEntity.password := "hash:rabbit";
     UserEntity.userType := "admin";
     UserEntity.roles := [];
     UserEntity.teams := [];
     UserEntity.includedPermissions := [];
     UserEntity.excludedPermissions := [];
     UserEntity.includedScopes := [];
     UserEntity.excludedScopes := [];
     UserEntity.administratorAccess := None;
     UserEntity.createdAt := 10;
     UserEntity.updatedAt := 10;
     UserEntity.deletedAt := None;
     UserEntity.isDeleted := false |}.

Definition aliceModel : UserModel.t := UserEntity.toModel alice.

(** Access tokens read A@iat, refresh tokens R@iat/access-token. *)
Definition sign (payload : JwtPayload.t) (expiresIn : string) (now : Z) : string :=
  match JwtPayload.accessToken payload with
  | None => "A@" ++ pretty now
  | Some accessToken => "R@" ++ pretty now ++ "/" ++ accessToken
  end.

(** token, payload, expiry *)
Definition issued : list (string * (JwtPayload.t * Z)) :=
  [ ("A@100", (JwtPayload.mk aliceModel None, 1000));
    ("R@100/A@100", (JwtPayload.mk aliceModel (Some "A@100"), 100000));
    ("A@200", (JwtPayload.mk aliceModel None, 1100));
    ("R@200/A@200", (JwtPayload.mk aliceModel (Some "A@200"), 100100));
    ("A@300", (JwtPayload.mk aliceModel None, 1200));
    ("R@300/A@300", (JwtPayload.mk aliceModel (Some "A@300"), 100200));
    ("R@100/A@999", (JwtPayload.mk aliceModel (Some "A@999"), 100000)) ].

Definition verify (token : string) (now : Z) : JwtPayload.t + JwtFailure :=
  match List.find (fun entry => bool_decide (entry.1 = token)) issued with
  | Some (_, (payload, exp)) => if (now <? exp)%Z then inl payload else inr TokenExpiredError
  | None => inr JwtMalformed
  end.

Definition mark (nonce : unit) (plaintext : string) : string := String "#" plaintext.
Definition unmark (token : string) : option string :=
  match token with
  | String "#" plaintext => Some plaintext
  | _ => None
  end.

Global Instance collaborators : Collaborators :=
  {| jwtSign := sign;
     jwtVerify := verify;
     bcryptCompare := fun plain hash => bool_decide (hash = "hash:" ++ plain);
     Nonce := unit;
     encryptString := mark;
     decrypt := unmark;
     ACCESS_TOKEN_EXPIRATION := "15m";
     REFRESH_TOKEN_EXPIRATION := "7d";
     sessionMaxAge := 86400000;
     accessTokenMaxAge := 900000;
     refreshTokenMaxAge := 604800000;
     production := false |}.

Definition nonces : Nonces := mkNonces _ tt tt tt.

Definition session (accessToken refreshToken : string) (platform : PLATFORMS)
  : SessionEntity.t :=
  {| SessionEntity.user := "u1";
     SessionEntity.ipAddress := "10.0.0.7";
     SessionEntity.userAgent := "curl/8";
     SessionEntity.accessToken := accessToken;
     SessionEntity.refreshToken := refreshToken;
     SessionEntity.startedAt := 100;
     SessionEntity.endsAt := 86500;
     SessionEntity.platform := platform;
     SessionEntity.createdAt := 100;
     SessionEntity.updatedAt := 100;
     SessionEntity.deletedAt := None;
     SessionEntity.isDeleted := false |}.

(** Alice is signed in on the web (session s1) and on a phone (s2). *)
Definition db : Database :=
  mkDatabase [alice]
    (<["s1" := session "A@100" "R@100/A@100" WEB]>
       (<["s2" := session "A@100" "R@100/A@100" MOBILE]> ∅)).

(** The stored refresh token of s1 names another access token. *)
Definition dbMismatched : Database :=
  mkDatabase [alice] (<["s1" := session "A@100" "R@100/A@999" WEB]> ∅).

Definition refreshRequest (refreshToken : string) : RefreshSessionModel.t :=
  {| RefreshSessionModel.sessionId := Some "#s1";
     RefreshSessionModel.accessToken := Some "#A@100";
     RefreshSessionModel.refreshToken := Some (String "#" refreshToken) |}.

Definition signInRequest (identifier password : string) : SignInModel.t :=
  {| SignInModel.identifier := identifier;
     SignInModel.password := password;
     SignInModel.ipAddress := "10.0.0.8";
     SignInModel.userAgent := "curl/8";
     SignInModel.platform := WEB |}.

(** A cipher to compute with: the ciphertext is the plaintext with every
    byte masked, the tag starts with the exclusive or of all bytes of nonce
    and ciphertext. *)
Definition xorFold (bytes : list Z) : Z := List.fold_right Z.lxor 0%Z bytes.
Definition tagOf (iv ciphertext : list Z) : list Z :=
  xorFold (iv ++ ciphertext) :: replicate 15 0%Z.
Global Instance cipher : Cipher :=
  {| seal := fun iv plaintext =>
       let ciphertext := List.map (Z.lxor 90) plaintext in
       (ciphertext, tagOf iv ciphertext);
     open := fun iv tag ciphertext =>
       if decide (tag = tagOf iv ciphertext)
       then Some (List.map (Z.lxor 90) ciphertext) else None |}.

Definition iv : list Z := [1; 2; 3; 4; 5; 6; 7; 8; 9; 10; 11; 12]%Z.

Definition request (authorization : string) : Request.t :=
  {| Request.authorization := Some (Single authorization);
     Request.sessionIdCookie := Some "#s1";
     Request.user := None |}.
End Deployment.

(* ===================================================================== *)
(** * Notions the properties are stated with *)
(* ===================================================================== *)

Module GrantSet.
Import UserAuthorizationCredentialsModel.

(** The specification's sets, in its own words: the union of the
    [excludedPermissions] (resp. [includedPermissions]) across all roles. *)
Definition roleExcluded (g : t) : gset Permission :=
  ⋃ ((fun r => list_to_set (RoleModel.excludedPermissions r)) <$> roles g).
Definition roleIncluded (g : t) : gset Permission :=
  ⋃ ((fun r => list_to_set (RoleModel.includedPermissions r)) <$> roles g).

(** (all roles' inclusions minus [roleExcluded]) ∪ (user inclusions minus
    user exclusions) *)
Definition effective (g : t) : gset Permission :=
  (roleIncluded g ∖ roleExcluded g) ∪ (includedPermissions g ∖ excludedPermissions g).

(** The resolution rule of the specification. *)
Definition grants (g : t) (required : list Permission) : Prop :=
  required = []
  ∨ administratorAccess g = Some true
  ∨ ((∀ p, p ∈ required → (p ∉ excludedPermissions g) ∧ (p ∉ roleExcluded g))
     ∧ (∀ p, p ∈ required → p ∈ effective g)).
End GrantSet.

(** The database after [findByIdAndUpdate(id, update)]. *)
Definition updated (now : Z) (id : string) (update : SessionUpdate) (db : Database)
  : Database :=
  match visibleSession db id with
  | Some doc => mkDatabase (users db) (<[id := applySessionUpdate now update doc]> (sessions db))
  | None => db
  end.

(** A session is live at [now]: not tombstoned and not past its window
    (the services reject a session when [endsAt < now]). *)
Definition live (now : Z) (doc : SessionEntity.t) : Prop :=
  SessionEntity.deletedAt doc = None ∧ ¬ (SessionEntity.endsAt doc < now)%Z.

Global Instance live_dec now doc : Decision (live now doc).
Proof. unfold live. apply _. Defined.


(** The scheme of an Authorization header: the first word of its (first)
    value. *)
Definition headerScheme (header : option HeaderValue) : option string :=
  match header with
  | Some (Single value) => split " " value !! 0%nat
  | Some (Multiple (value :: _)) => split " " value !! 0%nat
  | _ => None
  end.

(** The sessions [deleteMany({ user, platform })] leaves. *)
Definition withoutSessionsOf (user : string) (platform : PLATFORMS) (db : Database)
  : gmap string SessionEntity.t :=
  filter (fun kv => ¬ (SessionEntity.user kv.2 = user ∧ SessionEntity.platform kv.2 = platform))
         (sessions db).


Section RefreshAccepted.
Context `{Collaborators}.

(** What a refresh request presents: the three fields are there, non-empty,
    and decrypt to a session id and a token pair. *)
Record Presented (req : RefreshSessionModel.t)
    (sessionId accessToken refreshToken : string) : Prop := {
  presented_sessionId :
    ∃ e, RefreshSessionModel.sessionId req = Some e ∧ e ≠ "" ∧ decrypt e = Some sessionId;
  presented_accessToken :
    ∃ e, RefreshSessionModel.accessToken req = Some e ∧ e ≠ ""
         ∧ decrypt e = Some accessToken;
  presented_refreshToken :
    ∃ e, RefreshSessionModel.refreshToken req = Some e ∧ e ≠ ""
         ∧ decrypt e = Some refreshToken;
}.

(** The presented pair matches the session found under the presented id,
    and the session is within its window. *)
Record Matched (now : Z) (req : RefreshSessionModel.t) (db : Database)
    (sessionId : string) (doc : SessionEntity.t) : Prop := {
  matched_presented :
    Presented req sessionId (SessionEntity.accessToken doc) (SessionEntity.refreshToken doc);
  matched_session : visibleSession db sessionId = Some doc;
  matched_window : ¬ (SessionEntity.endsAt doc < now)%Z;
}.

(** Everything [refresh] checks before it issues a new pair: the request
    matches a stored session, and the refresh token verifies and names the
    access token. *)
Record RefreshAccepted (now : Z) (req : RefreshSessionModel.t) (db : Database)
    (sessionId : string) (doc : SessionEntity.t) (decoded : JwtPayload.t) : Prop := {
  accepted_matched : Matched now req db sessionId doc;
  accepted_verify : jwtVerify (SessionEntity.refreshToken doc) now = inl decoded;
  accepted_backReference :
    JwtPayload.accessToken decoded = Some (SessionEntity.accessToken doc);
}.

(** The pair [refresh] issues at [now] for the user of the decoded token. *)
Definition newAccessToken (now : Z) (decoded : JwtPayload.t) : string :=
  AuthenticationService.generateAccessToken now (JwtPayload.user decoded).
Definition newRefreshToken (now : Z) (decoded : JwtPayload.t) : string :=
  AuthenticationService.generateRefreshToken now (JwtPayload.user decoded)
    (newAccessToken now decoded).

Definition rotated (now : Z) (sessionId : string) (decoded : JwtPayload.t)
    (db : Database) : Database :=
  updated now sessionId
    (SetTokens (newAccessToken now decoded) (newRefreshToken now decoded)) db.

(** What a rotation may change between [db] and [db']: in the session
    [sessionId] the request names, the stored pair (and the plugin's
    [updatedAt] stamp), nothing else; and what it returns: the same
    session id and the new pair, each encrypted. *)
Record TokenPairReplaced (nonces : Nonces) (req : RefreshSessionModel.t)
    (db : Database) (creds : AuthenticationCredentialsModel.t) (db' : Database)
    (sessionId : string) (doc doc' : SessionEntity.t) : Prop := {
  replaced_request :
    ∃ e, RefreshSessionModel.sessionId req = Some e ∧ decrypt e = Some sessionId;
  replaced_before : sessions db !! sessionId = Some doc;
  replaced_after : sessions db' = <[sessionId := doc']> (sessions db);
  replaced_users : users db' = users db;
  replaced_endsAt : SessionEntity.endsAt doc' = SessionEntity.endsAt doc;
  replaced_user : SessionEntity.user doc' = SessionEntity.user doc;
  replaced_ipAddress : SessionEntity.ipAddress doc' = SessionEntity.ipAddress doc;
  replaced_userAgent : SessionEntity.userAgent doc' = SessionEntity.userAgent doc;
  replaced_platform : SessionEntity.platform doc' = SessionEntity.platform doc;
  replaced_startedAt : SessionEntity.startedAt doc' = SessionEntity.startedAt doc;
  replaced_createdAt : SessionEntity.createdAt doc' = SessionEntity.createdAt doc;
  replaced_deletedAt : SessionEntity.deletedAt doc' = SessionEntity.deletedAt doc;
  replaced_sessionId :
    AuthenticationCredentialsModel.sessionId creds
    = encryptString (sessionIdNonce nonces) sessionId;
  replaced_accessToken :
    AuthenticationCredentialsModel.accessToken creds
    = encryptString (accessTokenNonce nonces) (SessionEntity.accessToken doc');
  replaced_refreshToken :
    AuthenticationCredentialsModel.refreshToken creds
    = encryptString (refreshTokenNonce nonces) (SessionEntity.refreshToken doc');
}.

Definition refreshed (now : Z) (nonces : Nonces) (sessionId : string)
    (decoded : JwtPayload.t) : AuthenticationCredentialsModel.t :=
  AuthenticationService.generateAuthenticationCredentialsModel nonces
    (JwtPayload.user decoded) (newAccessToken now decoded)
    (newRefreshToken now decoded) sessionId.
End RefreshAccepted.

(* ===================================================================== *)
(** * The pairs the service stores *)
(* ===================================================================== *)

Section IssuedPairs.
Context `{Collaborators}.


(** A token pair as [signIn] and [refresh] make it: the refresh token is
    [generateRefreshToken] of the access token. *)
Definition IssuedPair (accessToken refreshToken : string) : Prop :=
  ∃ iat user,
    refreshToken = AuthenticationService.generateRefreshToken iat user accessToken.

(** Every stored session holds an issued pair. *)
Definition PairsIssued (db : Database) : Prop :=
  ∀ id doc, sessions db !! id = Some doc →
            IssuedPair (SessionEntity.accessToken doc) (SessionEntity.refreshToken doc).

(** A query that stores no other pair than an issued one. *)
Definition issuing {X} (q : MongoQuery X) : Prop :=
  match q with
  | SessionSave _ model =>
      IssuedPair (CreateSessionModel.accessToken model) (CreateSessionModel.refreshToken model)
  | SessionFindByIdAndUpdate _ (SetTokens accessToken refreshToken) =>
      IssuedPair accessToken refreshToken
  | _ => True
  end.

(** A call all of whose queries are such, whatever the queries answer. *)
Fixpoint Issuing {A} (m : Async A) : Prop :=
  match m with
  | Await q k => issuing q ∧ ∀ r, Issuing (k r)
  | _ => True
  end.
End IssuedPairs.

(** The deployment with a session cookie of ten days: the window of a
    session outlasts its refresh token, which the deployment's
    [Deployment.verify] takes for 99900 seconds. *)
Module LongSessions.
Definition collaborators : Collaborators :=
  {| jwtSign := Deployment.sign;
     jwtVerify := Deployment.verify;
     bcryptCompare := fun plain hash => bool_decide (hash = "hash:" ++ plain);
     Nonce := unit;
     encryptString := Deployment.mark;
     decrypt := Deployment.unmark;
     ACCESS_TOKEN_EXPIRATION := "15m";
     REFRESH_TOKEN_EXPIRATION := "7d";
     sessionMaxAge := 864000000;
     accessTokenMaxAge := 900000;
     refreshTokenMaxAge := 604800000;
     production := false |}.

Definition nonces : @Nonces collaborators := @mkNonces collaborators tt tt tt.

(** The request of a client that sends back what a sign-in returned. *)
Definition refreshRequest (creds : AuthenticationCredentialsModel.t) : RefreshSessionModel.t :=
  {| RefreshSessionModel.sessionId := Some (AuthenticationCredentialsModel.sessionId creds);
     RefreshSessionModel.accessToken := Some (AuthenticationCredentialsModel.accessToken creds);
     RefreshSessionModel.refreshToken :=
       Some (AuthenticationCredentialsModel.refreshToken creds) |}.
End LongSessions.

(* ===================================================================== *)
(** * Authorization guard (authorization.guard.ts) *)
(* ===================================================================== *)

Module AuthorizationGuard.
Section WithIdentityService.
Variable getUserAuthorizationCredentials : string → Result UserAuthorizationCredentialsModel.t.

(** [user] is [request.user] and [requiredPermissions] is
    [request.requiredPermissions], each possibly undefined.  [user.id] is
    read for the call of [hasPermission]; [requiredPermissions.length] is the
    first thing [hasPermission] reads. *)
Definition canActivate (user : option UserModel.t)
    (requiredPermissions : option (list string)) : Result bool :=
  match user with
  | None => Throw (TypeError "Cannot read properties of undefined (reading 'id')")
  | Some user =>
      hasPermission ←
        match requiredPermissions with
        | None => Throw (TypeError "Cannot read properties of undefined (reading 'length')")
        | Some requiredPermissions =>
            AuthorizationService.hasPermission getUserAuthorizationCredentials
              (UserModel.id user) requiredPermissions
        end;
      if negb hasPermission then Throw (HttpException "FORBIDDEN" FORBIDDEN)
      else Ok true
  end.
End WithIdentityService.
End AuthorizationGuard.

(* ===================================================================== *)
(** * The lookup of a user's grant set *)
(* ===================================================================== *)

(** A document of the [roles] collection (role.entity.ts). *)
Module RoleEntity.
Record t := mk {
  title : string;
  color : string;
  description : option string;
  includedPermissions : list Permission;
  excludedPermissions : list Permission;
  createdAt : Z;
  updatedAt : Z;
  deletedAt : option Z;
  isDeleted : bool;
}.

(** [RoleModel.t] holds the fields RoleModel declares; the timestamps it
    inherits from BaseModel stay with the document. *)
Definition toModel (id : string) (doc : t) : RoleModel.t :=
  {| RoleModel.id := id;
     RoleModel.title := title doc;
     RoleModel.color := color doc;
     RoleModel.description := description doc;
     RoleModel.includedPermissions := includedPermissions doc;
     RoleModel.excludedPermissions := excludedPermissions doc |}.
End RoleEntity.

(** The [roles] path of a hydrated user document, [string[] | RoleDocument[]]:
    the ObjectIds the document stores, or the role documents once a
    [populate('roles')] has completed. *)
Inductive RolesPath :=
| ObjectIds (ids : list string)
| RoleDocuments (docs : list (string * RoleEntity.t)).

(** A hydrated user document as [toAuthorizationCredentialsModel] reads it. *)
Module UserDocument.
Record t := mk {
  id : string;
  roles : RolesPath;
  includedPermissions : list string;
  excludedPermissions : list string;
  administratorAccess : option bool;
}.

(** What [findById(id, { roles: 1, includedPermissions: 1,
    excludedPermissions: 1 })] hydrates of a stored document: [_id] and the
    three paths of the projection.  [administratorAccess] is not one of them
    and reads undefined; [roles] holds the stored ObjectIds. *)
Definition projected (doc : UserEntity.t) : t :=
  {| id := UserEntity.id doc;
     roles := ObjectIds (UserEntity.roles doc);
     includedPermissions := UserEntity.includedPermissions doc;
     excludedPermissions := UserEntity.excludedPermissions doc;
     administratorAccess := None |}.

(** [doc.roles.length] *)
Definition rolesLength (roles : RolesPath) : Z :=
  match roles with
  | ObjectIds ids => Z.of_nat (length ids)
  | RoleDocuments docs => Z.of_nat (length docs)
  end.

(** [doc.roles.every((r) => r instanceof Types.ObjectId)] *)
Definition everyObjectId (roles : RolesPath) : bool :=
  match roles with
  | ObjectIds ids => forallb (fun _ => true) ids
  | RoleDocuments docs => forallb (fun _ => false) docs
  end.

(** [(doc.roles as RoleDocument[]).map((role) => RoleEntity.toModel(role))],
    reached with ObjectIds only when there is none. *)
Definition roleModels (roles : RolesPath) : list RoleModel.t :=
  match roles with
  | ObjectIds ids => []
  | RoleDocuments docs => List.map (fun role => RoleEntity.toModel role.1 role.2) docs
  end.

(** user.entity.ts, [UserEntity.toAuthorizationCredentialsModel] *)
Definition toAuthorizationCredentialsModel (doc : t)
  : Result UserAuthorizationCredentialsModel.t :=
  if (0 <? rolesLength (roles doc))%Z && everyObjectId (roles doc)
  then Throw (HttpException "toAuthorizationCredentialsModel requires populated roles"
                INTERNAL_SERVER_ERROR)
  else Ok {| UserAuthorizationCredentialsModel.roles := roleModels (roles doc);
             UserAuthorizationCredentialsModel.includedPermissions :=
               list_to_set (includedPermissions doc);
             UserAuthorizationCredentialsModel.excludedPermissions :=
               list_to_set (excludedPermissions doc);
             UserAuthorizationCredentialsModel.administratorAccess :=
               administratorAccess doc |}.
End UserDocument.

(** user-repository.service.ts, the lookup the authorization service uses. *)
Module UserRepositoryService.
(** [userEntity.populate('roles')] is called on what [findById] resolved to,
    before that is tested for null, and is not awaited: the conversion on
    the next line reads the document as the query hydrated it. *)
Definition findUserAuthorizationCredentialsById (id : string)
  : Async (option UserAuthorizationCredentialsModel.t) :=
  userEntity ← await (UserFindById id);
  match userEntity with
  | None => Reject (TypeError "Cannot read properties of null (reading 'populate')")
  | Some doc =>
      model ← lift (UserDocument.toAuthorizationCredentialsModel (UserDocument.projected doc));
      mret (Some model)
  end.
End UserRepositoryService.

(** identity.service.ts, [getUserAuthorizationCredentials] *)
Module IdentityAuthorization.
Definition getUserAuthorizationCredentials (userId : string)
  : Async UserAuthorizationCredentialsModel.t :=
  userAuthorizationCredentialsModel ←
    UserRepositoryService.findUserAuthorizationCredentialsById userId;
  match userAuthorizationCredentialsModel with
  | None => Reject (HttpException "USER_NOT_FOUND" NOT_FOUND)
  | Some model => mret model
  end.
End IdentityAuthorization.

(** The user a [findById] finds: the first document of the collection with
    that id that the soft-delete filter lets through. *)
Definition visibleUser (db : Database) (id : string) : option UserEntity.t :=
  List.find (fun doc => softDeleteFilter (UserEntity.isDeleted doc)
                        && bool_decide (UserEntity.id doc = id))
            (users db).

(** [identityService.getUserAuthorizationCredentials] as the resolver calls
    it, on a database [db] at time [now]. *)
Definition authorizationCredentialsIn (now : Z) (db : Database) (userId : string)
  : Result UserAuthorizationCredentialsModel.t :=
  (run now (IdentityAuthorization.getUserAuthorizationCredentials userId) db).1.

(* ===================================================================== *)
(** * Authentication controller (authentication.controller.ts) *)
(* ===================================================================== *)

Module AuthenticationController.
Section WithCollaborators.
Context `{Collaborators}.

(** [@UseGuards(AuthenticationGuard)]: the handler runs once the guard has
    resolved to true, on the request as the guard left it; a guard that
    resolves to false makes Nest answer 403. *)
Definition signOut (now : Z) (request : Request.t) : Async unit :=
  '(activated, request) ← AuthenticationGuard.canActivate now request;
  if activated : bool
  then AuthenticationService.signOut now (Request.sessionIdCookie request)
  else Reject (HttpException "Forbidden resource" FORBIDDEN).
End WithCollaborators.
End AuthenticationController.

(** The request of a client that presents credentials as it received them:
    the access token as a Bearer token, the session id as the [sessionId]
    cookie. *)
Definition presenting (accessToken sessionId : string) : Request.t :=
  {| Request.authorization := Some (Single ("Bearer " ++ accessToken));
     Request.sessionIdCookie := Some sessionId;
     Request.user := None |}.

(** A text without a space. *)
Fixpoint spaceless (s : string) : bool :=
  match s with
  | EmptyString => true
  | String c rest => negb (Ascii.eqb c " ") && spaceless rest
  end.

(* ===================================================================== *)
(** * The construction of the crypto service and the text of a token *)
(* ===================================================================== *)

(** [s.split('').every((c) => p(c))] *)
Fixpoint everyCharacter (p : ascii → bool) (s : string) : bool :=
  match s with
  | EmptyString => true
  | String c rest => p c && everyCharacter p rest
  end.

(** A character of the base64 alphabet, or the padding. *)
Definition isBase64Character (c : ascii) : bool :=
  match Base64.indexOf c Base64.alphabet with
  | Some _ => true
  | None => Ascii.eqb c "="
  end.

(** The code units of a text whose characters are all below 256. *)
Definition codeUnits (s : string) : list Z :=
  (fun c => Z.of_N (N_of_ascii c)) <$> list_ascii_of_string s.

(** [s.startsWith(needle)] and [s.includes(needle)], on code units. *)
Fixpoint startsWith (needle s : list Z) : bool :=
  match needle, s with
  | [], _ => true
  | n :: needle, u :: s => (n =? u)%Z && startsWith needle s
  | _ :: _, [] => false
  end.

Fixpoint includes (needle s : list Z) : bool :=
  startsWith needle s
  || match s with
     | [] => false
     | _ :: rest => includes needle rest
     end.

(** Node's base64 decoder reads a code unit of a string by its low byte. *)
Definition lowByte (u : Z) : ascii := ascii_of_N (Z.to_N (u mod 256)).
Definition lowBytes (s : list Z) : string :=
  string_of_list_ascii (lowByte <$> s).

Module CryptoServiceConstructor.
(** The constructor of CryptoService: [CRYPTO_ALGORITHM] and [CRYPTO_KEY]
    are what the configuration holds under these names, strings of code
    units, undefined when it holds nothing.  [inl message] is
    [throw new Error(message)], [inr] the algorithm and the key the service
    is constructed with. *)
Definition construct (CRYPTO_ALGORITHM CRYPTO_KEY : option (list Z))
  : string + (list Z * list Z) :=
  let algorithm := default (codeUnits "aes-256-gcm") CRYPTO_ALGORITHM in
  match CRYPTO_KEY with
  | None => inl "CRYPTO_KEY is not set"
  | Some [] => inl "CRYPTO_KEY is not set"
  | Some keyBase64 =>
      let key := Base64.decode (lowBytes keyBase64) in
      if includes (codeUnits "256") algorithm && negb (length key =? 32)%nat
      then inl "Invalid CRYPTO_KEY"
      else inr (algorithm, key)
  end.
End CryptoServiceConstructor.

(* ===================================================================== *)
(** * Durations (common/utility/time-to-seconds.ts) *)
(* ===================================================================== *)

(** The numbers of the engine, as far as [timeToSeconds] uses them: the
    integer literals of the source, NaN, [parseFloat], [isNaN], [<], [+],
    [*] and [Math.floor]. *)
Class Numbers := {
  Number : Type;
  literal : Z → Number;
  NaN : Number;
  parseFloat : string → Number;
  isNaN : Number → bool;
  lessThan : Number → Number → bool;
  add : Number → Number → Number;
  multiply : Number → Number → Number;
  floor : Number → Number;
}.

(** [new Error(message)], by the four messages of [timeToSeconds]. *)
Inductive TimeError :=
| InvalidTimeString
| InvalidTimeFormat (timeString : string)
| InvalidTimeValue (numeral : string)
| DuplicateTimeUnit (unit : ascii).

Module TimeToSeconds.
(** A text here is a text of code units below 256. *)

(** [\d] *)
Definition isDigit (c : ascii) : bool :=
  ((48 <=? nat_of_ascii c) && (nat_of_ascii c <=? 57))%nat.

(** [\s], and what [trim] removes: tab, line feed, vertical tab, form feed,
    carriage return, space, no-break space. *)
Definition isWhiteSpace (c : ascii) : bool :=
  let n := nat_of_ascii c in
  ((9 <=? n) && (n <=? 13) || (n =? 32) || (n =? 160))%nat.

(** [[smhdw]] *)
Definition isUnit (c : ascii) : bool :=
  match c with
  | "s" | "m" | "h" | "d" | "w" => true
  | _ => false
  end%char.

(** [timeUnits[unit]] *)
Definition timeUnits (unit : ascii) : option Z :=
  match unit with
  | "s" => Some 1
  | "m" => Some 60
  | "h" => Some 3600
  | "d" => Some 86400
  | "w" => Some 604800
  | _ => None
  end%char%Z.

(** The upper-case letters below 256 are A to Z and, but for the
    multiplication sign, U+00C0 to U+00DE; each has its lower-case letter
    32 further. *)
Definition lowerCase (c : ascii) : ascii :=
  let n := nat_of_ascii c in
  if ((65 <=? n) && (n <=? 90) || (192 <=? n) && (n <=? 222) && negb (n =? 215))%nat
  then ascii_of_nat (n + 32)
  else c.

Fixpoint toLowerCase (s : string) : string :=
  match s with
  | EmptyString => EmptyString
  | String c rest => String (lowerCase c) (toLowerCase rest)
  end.

Fixpoint trimStart (s : string) : string :=
  match s with
  | EmptyString => EmptyString
  | String c rest => if isWhiteSpace c then trimStart rest else s
  end.

Fixpoint trimEnd (s : string) : string :=
  match s with
  | EmptyString => EmptyString
  | String c rest =>
      match trimEnd rest with
      | EmptyString => if isWhiteSpace c then EmptyString else String c EmptyString
      | trimmed => String c trimmed
      end
  end.

Definition trim (s : string) : string := trimEnd (trimStart s).

(** The longest run of characters with [p] a text starts with, and what
    follows it. *)
Fixpoint span (p : ascii → bool) (s : string) : string * string :=
  match s with
  | EmptyString => (EmptyString, EmptyString)
  | String c rest =>
      if p c then let '(run, after) := span p rest in (String c run, after)
      else (EmptyString, s)
  end.

(** A match of [/(\d+(?:\.\d+)?)\s*([smhdw])/] that starts with the text:
    the two groups and the length of the match.  Every quantifier takes all
    it can, and giving some of it back never lets the rest match: what
    follows a shorter run of digits is a digit, what follows a shorter run
    of white space is white space, and what follows the digits when the
    fraction is given up is the point. *)
Definition matchAt (s : string) : option (string * ascii * nat) :=
  let '(integer, after) := span isDigit s in
  if bool_decide (integer = "") then None else
  let '(numeral, after) :=
    match after with
    | String "." more =>
        let '(fraction, after') := span isDigit more in
        if bool_decide (fraction = "") then (integer, after)
        else (integer ++ String "." fraction, after')
    | _ => (integer, after)
    end in
  let '(spaces, after) := span isWhiteSpace after in
  match after with
  | String unit _ =>
      if isUnit unit
      then Some (numeral, unit, String.length numeral + String.length spaces + 1)%nat
      else None
  | EmptyString => None
  end.

(** [[...s.matchAll(timePattern)]]: the matches from left to right, each
    search starting where the match before ended, or one character further
    when there was none.  [inside] counts the characters still to pass of
    the match in progress. *)
Fixpoint matchAll (inside : nat) (s : string) : list (string * ascii) :=
  match s with
  | EmptyString => []
  | String c rest =>
      match inside with
      | S inside => matchAll inside rest
      | O =>
          match matchAt s with
          | Some (numeral, unit, consumed) => (numeral, unit) :: matchAll (consumed - 1) rest
          | None => matchAll 0 rest
          end
      end
  end.

Section WithNumbers.
Context `{Numbers}.

(** The loop over the matches. *)
Fixpoint accumulate (matches : list (string * ascii)) (totalSeconds : Number)
    (usedUnits : gset ascii) : TimeError + Number :=
  match matches with
  | [] => inr totalSeconds
  | (numeral, unit) :: matches =>
      let value := parseFloat numeral in
      if isNaN value || lessThan value (literal 0) then inl (InvalidTimeValue numeral) else
      if bool_decide (unit ∈ usedUnits) then inl (DuplicateTimeUnit unit) else
      accumulate matches
        (add totalSeconds
             (multiply value (match timeUnits unit with
                              | Some seconds => literal seconds
                              | None => NaN
                              end)))
        ({[ unit ]} ∪ usedUnits)
  end.

(** [timeString] is undefined when the configuration has no such entry. *)
Definition timeToSeconds (timeString : option string) : TimeError + Number :=
  match timeString with
  | None => inl InvalidTimeString
  | Some text =>
      if negb (truthy timeString) then inl InvalidTimeString else
      let cleanedString := toLowerCase (trim text) in
      let matches := matchAll 0 cleanedString in
      if (Z.of_nat (length matches) =? 0)%Z then inl (InvalidTimeFormat text) else
      match accumulate matches (literal 0) ∅ with
      | inl error => inl error
      | inr totalSeconds => inr (floor totalSeconds)
      end
  end.
End WithNumbers.

(** The text of the error thrown. *)
Definition message (error : TimeError) : string :=
  match error with
  | InvalidTimeString => "Invalid time string provided"
  | InvalidTimeFormat timeString =>
      "Invalid time format: " ++ timeString ++ ". Use formats like "
      ++ String "034" "3m" ++ String "034" ", " ++ String "034" "2h 30m"
      ++ String "034" ", " ++ String "034" "1d 5h 30m 15s" ++ String "034" ""
  | InvalidTimeValue numeral => "Invalid time value: " ++ numeral
  | DuplicateTimeUnit unit => "Duplicate time unit: " ++ String unit ""
  end.

(** A numeral: digits, or digits, a point and digits. *)
Definition isNumeral (s : string) : bool :=
  let '(integer, after) := span isDigit s in
  negb (bool_decide (integer = ""))
  && match after with
     | EmptyString => true
     | String "." fraction =>
         negb (bool_decide (fraction = "")) && everyCharacter isDigit fraction
     | _ => false
     end.

(** The matches [timeToSeconds] works on. *)
Definition matchesOf (timeString : string) : list (string * ascii) :=
  matchAll 0 (toLowerCase (trim timeString)).

(** A time string written out: each numeral with its unit, the parts
    separated by single spaces. *)
Fixpoint written (parts : list (string * ascii)) : string :=
  match parts with
  | [] => ""
  | [(numeral, unit)] => numeral ++ String unit ""
  | (numeral, unit) :: parts => numeral ++ String unit (String " " (written parts))
  end.

(** The sum the loop forms for a list of parts, from the left. *)
Definition total `{Numbers} (parts : list (string * ascii)) : Number :=
  List.fold_left
    (fun totalSeconds part =>
       add totalSeconds
           (multiply (parseFloat part.1)
                     (match timeUnits part.2 with
                      | Some seconds => literal seconds
                      | None => NaN
                      end)))
    parts (literal 0).

(** What is assumed of [parseFloat]: of a numeral it gives a number, and
    not one below zero. *)
Record Magnitudes `{Numbers} : Prop := {
  numeral_is_a_number : ∀ numeral, isNumeral numeral = true →
    isNaN (parseFloat numeral) = false;
  numeral_is_not_negative : ∀ numeral, isNumeral numeral = true →
    lessThan (parseFloat numeral) (literal 0) = false;
}.
End TimeToSeconds.

(** Numbers to compute with: exact fractions, and nothing for NaN.  On
    numerals, integers and their sums and products these are the numbers of
    the engine as long as those are exact. *)
Module ExactNumbers.
Import TimeToSeconds.

Definition digit (c : ascii) : Z := Z.of_nat (nat_of_ascii c) - 48.

Fixpoint digits (value : Z) (s : string) : Z :=
  match s with
  | EmptyString => value
  | String c rest => digits (10 * value + digit c) rest
  end.

(** [parseFloat] of a text that starts with a numeral. *)
Definition parse (s : string) : option QArith_base.Q :=
  let '(integer, after) := span isDigit s in
  if bool_decide (integer = "") then None else
  match after with
  | String "." more =>
      let '(fraction, _) := span isDigit more in
      Some (QArith_base.Qmake (digits (digits 0 integer) fraction)
              (Pos.pow 10 (Pos.of_nat (String.length fraction))))
  | _ => Some (QArith_base.inject_Z (digits 0 integer))
  end.

Global Instance numbers : Numbers :=
  {| Number := option QArith_base.Q;
     literal := fun z => Some (QArith_base.inject_Z z);
     NaN := None;
     parseFloat := parse;
     isNaN := fun x => match x with None => true | Some _ => false end;
     lessThan := fun x y =>
       match x, y with
       | Some x, Some y => negb (QArith_base.Qle_bool y x)
       | _, _ => false
       end;
     add := fun x y =>
       match x, y with
       | Some x, Some y => Some (QArith_base.Qplus x y)
       | _, _ => None
       end;
     multiply := fun x y =>
       match x, y with
       | Some x, Some y => Some (QArith_base.Qmult x y)
       | _, _ => None
       end;
     floor := fun x =>
       match x with
       | Some x => Some (QArith_base.inject_Z (Qround.Qfloor x))
       | None => None
       end |}.
End ExactNumbers.

(* ===================================================================== *)
(** * Role management (authorization.service.ts, role-repository.service.ts) *)
(* ===================================================================== *)

Module CreateRoleModel.
Record t := mk {
  title : string;
  color : option string;
  description : option string;
  includedPermissions : option (list Permission);
  excludedPermissions : option (list Permission);
}.
End CreateRoleModel.

Module UpdateRoleModel.
Record t := mk {
  title : option string;
  color : option string;
  description : option string;
  includedPermissions : option (list Permission);
  excludedPermissions : option (list Permission);
}.
End UpdateRoleModel.

(** The collections role management touches: the database of users and
    sessions, and the [roles] collection, keyed by [_id]. *)
Record Collections := mkCollections {
  database : Database;
  roles : gmap string RoleEntity.t;
}.

(** What a call of the role management is rejected with: an exception of
    the code or of the driver, or the ValidationError of Mongoose, with the
    paths that failed. *)
Inductive Rejection :=
| Thrown (e : Exception)
| ValidationError (paths : list string).

Inductive Settled (A : Type) :=
| Fulfilled (a : A)
| Rejected (r : Rejection).
Arguments Fulfilled {A} a.
Arguments Rejected {A} r.

(** A call that runs to completion at the second [now], with no other call
    in between: the collections before it, what it settles with and the
    collections after it. *)
Record Call (A : Type) := mkCall {
  perform : Z → Collections → Settled A * Collections;
}.
Arguments mkCall {A} perform.
Arguments perform {A} c now collections.

Global Instance Call_ret : MRet Call := fun A a => mkCall (fun _ c => (Fulfilled a, c)).
Global Instance Call_bind : MBind Call := fun A B k m =>
  mkCall (fun now c =>
            match perform m now c with
            | (Fulfilled a, c') => perform (k a) now c'
            | (Rejected r, c') => (Rejected r, c')
            end).

Definition throw {A} (e : Exception) : Call A :=
  mkCall (fun _ c => (Rejected (Thrown e), c)).

(** The role a [findById] or a [findByIdAndUpdate] finds, under the
    soft-delete filter of the MongoDB module.  An id is taken to be the text
    of an ObjectId, which the query casts without an error. *)
Definition visibleRole (c : Collections) (id : string) : option RoleEntity.t :=
  match roles c !! id with
  | Some doc => if softDeleteFilter (RoleEntity.isDeleted doc) then Some doc else None
  | None => None
  end.

(** The roles a [findOne({ title })] can find, which [exists({ title })]
    runs. *)
Definition rolesTitled (c : Collections) (title : string) : gmap string RoleEntity.t :=
  filter (fun kv => softDeleteFilter (RoleEntity.isDeleted kv.2) = true
                    ∧ RoleEntity.title kv.2 = title)
         (roles c).

(** common/utility/remove-undefined-properties.ts, on the entries of an
    object. *)
Definition removeUndefinedProperties {V} (obj : list (string * option V))
  : list (string * V) :=
  omap (fun entry => match entry.2 with
                     | Some value => Some (entry.1, value)
                     | None => None
                     end) obj.

(** The values of the properties of a role update. *)
Inductive RoleValue :=
| Text (value : string)
| Permissions (value : list Permission).

(** [Object.entries(model)] of an UpdateRoleModel. *)
Definition updateEntries (model : UpdateRoleModel.t) : list (string * option RoleValue) :=
  [ ("title", Text <$> UpdateRoleModel.title model);
    ("color", Text <$> UpdateRoleModel.color model);
    ("description", Text <$> UpdateRoleModel.description model);
    ("includedPermissions", Permissions <$> UpdateRoleModel.includedPermissions model);
    ("excludedPermissions", Permissions <$> UpdateRoleModel.excludedPermissions model) ].

(** One property of an update document set on a role document. *)
Definition setPath (doc : RoleEntity.t) (entry : string * RoleValue) : RoleEntity.t :=
  let 'RoleEntity.mk title color description included excluded createdAt updatedAt
         deletedAt isDeleted := doc in
  match entry with
  | (path, Text value) =>
      if bool_decide (path = "title")
      then RoleEntity.mk value color description included excluded createdAt updatedAt
             deletedAt isDeleted
      else if bool_decide (path = "color")
      then RoleEntity.mk title value description included excluded createdAt updatedAt
             deletedAt isDeleted
      else if bool_decide (path = "description")
      then RoleEntity.mk title color (Some value) included excluded createdAt updatedAt
             deletedAt isDeleted
      else doc
  | (path, Permissions value) =>
      if bool_decide (path = "includedPermissions")
      then RoleEntity.mk title color description value excluded createdAt updatedAt
             deletedAt isDeleted
      else if bool_decide (path = "excludedPermissions")
      then RoleEntity.mk title color description included value createdAt updatedAt
             deletedAt isDeleted
      else doc
  end.

(** [findByIdAndUpdate(id, update)] on the document found: the properties
    of the update are set, and timespan-unix-converter's
    pre('findOneAndUpdate') hook stamps [updatedAt]. *)
Definition applyRoleUpdate (now : Z) (update : list (string * RoleValue))
    (doc : RoleEntity.t) : RoleEntity.t :=
  let 'RoleEntity.mk title color description included excluded createdAt _
         deletedAt isDeleted := foldl setPath doc update in
  RoleEntity.mk title color description included excluded createdAt now deletedAt isDeleted.

(** The document [new this.roleEntity(model)] is saved as: the schema's
    defaults for what the model leaves undefined, the stamps of
    timespan-unix-converter's pre('save') hook. *)
Definition newRoleDocument (now : Z) (model : CreateRoleModel.t) : RoleEntity.t :=
  {| RoleEntity.title := CreateRoleModel.title model;
     RoleEntity.color := default "#000000" (CreateRoleModel.color model);
     RoleEntity.description := CreateRoleModel.description model;
     RoleEntity.includedPermissions := default [] (CreateRoleModel.includedPermissions model);
     RoleEntity.excludedPermissions := default [] (CreateRoleModel.excludedPermissions model);
     RoleEntity.createdAt := now;
     RoleEntity.updatedAt := now;
     RoleEntity.deletedAt := None;
     RoleEntity.isDeleted := false |}.

(** The paths of a new role document that fail the schema's validation:
    [title] and [color] are required strings, and an empty string does not
    pass for one. *)
Definition invalidPaths (model : CreateRoleModel.t) : list string :=
  (if bool_decide (CreateRoleModel.title model = "") then ["title"] else [])
  ++ (if bool_decide (CreateRoleModel.color model = Some "") then ["color"] else []).

(** role-repository.service.ts *)
Module RoleRepositoryService.
(** [oid] is the [_id] the new document gets; an [_id] that is taken is the
    driver's duplicate key error. *)
Definition createRole (oid : string) (model : CreateRoleModel.t) : Call RoleModel.t :=
  mkCall (fun now c =>
    match invalidPaths model with
    | [] =>
        match roles c !! oid with
        | Some _ => (Rejected (Thrown (MongoServerError "E11000 duplicate key error")), c)
        | None =>
            let roleEntity := newRoleDocument now model in
            (Fulfilled (RoleEntity.toModel oid roleEntity),
             mkCollections (database c) (<[oid := roleEntity]> (roles c)))
        end
    | paths => (Rejected (ValidationError paths), c)
    end).

(** With [{ new: true }] the query resolves to the document as updated, and
    to null when it found none, which [RoleEntity.toModel] cannot read. *)
Definition updateRole (id : string) (model : UpdateRoleModel.t) : Call RoleModel.t :=
  let formattedModel := removeUndefinedProperties (updateEntries model) in
  mkCall (fun now c =>
    match visibleRole c id with
    | Some doc =>
        let roleEntity := applyRoleUpdate now formattedModel doc in
        (Fulfilled (RoleEntity.toModel id roleEntity),
         mkCollections (database c) (<[id := roleEntity]> (roles c)))
    | None => (Rejected (Thrown (TypeError "Cannot read properties of null (reading 'id')")), c)
    end).

Definition findRoleById (id : string) : Call (option RoleModel.t) :=
  mkCall (fun _ c => (Fulfilled (RoleEntity.toModel id <$> visibleRole c id), c)).

Definition doesRoleExist (id : string) : Call bool :=
  mkCall (fun _ c => (Fulfilled (bool_decide (is_Some (visibleRole c id))), c)).

(** [findByIdAndUpdate(id, { deletedAt: generateUnixTime() })] *)
Definition deleteRole (id : string) : Call bool :=
  mkCall (fun now c =>
    match visibleRole c id with
    | Some doc =>
        let 'RoleEntity.mk title color description included excluded createdAt _ _ isDeleted :=
          doc in
        (Fulfilled true,
         mkCollections (database c)
           (<[id := RoleEntity.mk title color description included excluded createdAt now
                      (Some now) isDeleted]> (roles c)))
    | None => (Fulfilled false, c)
    end).

Definition doesTitleExists (title : string) : Call bool :=
  mkCall (fun _ c => (Fulfilled (bool_decide (rolesTitled c title ≠ ∅)), c)).
End RoleRepositoryService.

(** identity.service.ts and user-repository.service.ts, the users a role is
    assigned to: [find({ roles: roleId })] matches a document whose [roles]
    array has the id among its elements. *)
Definition getUsersByRoleId (roleId : string) : Call (list UserModel.t) :=
  mkCall (fun _ c =>
    (Fulfilled
       (UserEntity.toModel
          <$> List.filter (fun doc => softDeleteFilter (UserEntity.isDeleted doc)
                                      && bool_decide (roleId ∈ UserEntity.roles doc))
                          (users (database c))),
     c)).

(** authorization.service.ts, the role management. *)
Module RoleManagement.
Definition createRole (oid : string) (createRoleModel : CreateRoleModel.t)
  : Call RoleModel.t :=
  (* CHECK ROLE TITLE EXISTANCE *)
  doesTitleExist ← RoleRepositoryService.doesTitleExists (CreateRoleModel.title createRoleModel);
  if doesTitleExist : bool
  then throw (HttpException "ROLE_TITLE_ALREADY_EXISTS" CONFLICT) else
  (* CREATE ROLE DOCUMENT *)
  RoleRepositoryService.createRole oid createRoleModel.

Definition updateRole (id : string) (updateRoleModel : UpdateRoleModel.t)
  : Call RoleModel.t :=
  (* CHECK ROLE EXISTANCE *)
  existingRoleModel ← RoleRepositoryService.findRoleById id;
  match existingRoleModel with
  | None => throw (HttpException "ROLE_NOT_FOUND" NOT_FOUND)
  | Some existingRoleModel =>
      (* CHECK IF TITLE IS CHANGED *)
      _ ← (if truthy (UpdateRoleModel.title updateRoleModel)
              && bool_decide (UpdateRoleModel.title updateRoleModel
                              ≠ Some (RoleModel.title existingRoleModel))
           then
             doesTitleExists ←
               RoleRepositoryService.doesTitleExists
                 (default "" (UpdateRoleModel.title updateRoleModel));
             if doesTitleExists : bool
             then throw (HttpException "ROLE_TITLE_ALREADY_EXISTS" CONFLICT)
             else mret tt
           else mret tt);
      (* UPDATE DOCUMENT *)
      RoleRepositoryService.updateRole id updateRoleModel
  end.

Definition getRoleById (id : string) : Call RoleModel.t :=
  roleModel ← RoleRepositoryService.findRoleById id;
  match roleModel with
  | None => throw (HttpException "ROLE_NOT_FOUND" NOT_FOUND)
  | Some roleModel => mret roleModel
  end.

Definition doesRoleExist (id : string) : Call bool :=
  RoleRepositoryService.doesRoleExist id.

Definition deleteRole (id : string) : Call bool :=
  (* CHECK ROLE EXISTANCE *)
  existingRoleModel ← RoleRepositoryService.findRoleById id;
  match existingRoleModel with
  | None => throw (HttpException "ROLE_NOT_FOUND" NOT_FOUND)
  | Some _ =>
      (* CHECK IF ROLE IS ASSIGNED TO ANY USER *)
      assignedUsers ← getUsersByRoleId id;
      if (0 <? Z.of_nat (length assignedUsers))%Z
      then throw (HttpException "ROLE_ASSIGNED_TO_USER" CONFLICT) else
      (* DELETE DOCUMENT *)
      RoleRepositoryService.deleteRole id
  end.
End RoleManagement.

(** A request to the role management, and a history of them, each with the
    second it is served at. *)
Inductive RoleRequest :=
| CreateRole (oid : string) (model : CreateRoleModel.t)
| UpdateRole (id : string) (model : UpdateRoleModel.t)
| DeleteRole (id : string).

Definition serve (now : Z) (request : RoleRequest) (c : Collections) : Collections :=
  match request with
  | CreateRole oid model => (perform (RoleManagement.createRole oid model) now c).2
  | UpdateRole id model => (perform (RoleManagement.updateRole id model) now c).2
  | DeleteRole id => (perform (RoleManagement.deleteRole id) now c).2
  end.

Definition serveAll (history : list (Z * RoleRequest)) (c : Collections) : Collections :=
  foldl (fun c entry => serve entry.1 entry.2 c) c history.

(** No two roles that a lookup finds have the same title, the empty title
    apart. *)
Definition DistinctTitles (c : Collections) : Prop :=
  ∀ id1 id2 role1 role2,
    visibleRole c id1 = Some role1 → visibleRole c id2 = Some role2 →
    RoleEntity.title role1 = RoleEntity.title role2 →
    RoleEntity.title role1 ≠ "" →
    id1 = id2.

(** The users a lookup finds that are assigned a role. *)
Definition assignedTo (roleId : string) (c : Collections) : list UserEntity.t :=
  List.filter (fun doc => softDeleteFilter (UserEntity.isDeleted doc)
                          && bool_decide (roleId ∈ UserEntity.roles doc))
              (users (database c)).

(** A small office for the examples: the role r1 is assigned to Bob, the
    role r2 to nobody. *)
Module Office.
Definition editor : RoleEntity.t :=
  RoleEntity.mk "Editor" "#00f" None ["A"; "B"] [] 10 10 None false.
Definition restricted : RoleEntity.t :=
  RoleEntity.mk "Restricted" "#f00" None [] ["A"] 20 20 None false.

Definition bob : UserEntity.t :=
  {| UserEntity.id := "u2";
     UserEntity.firstName := "Bob";
     UserEntity.lastName := "Cratchit";
     UserEntity.username := "bob";
     UserEntity.email := EmailAddressModel.mk "bob@example.com";
     UserEntity.phone := PhoneModel.mk "+90" "5550000001";
     UserEntity.password := "hash:ledger";
     UserEntity.userType := "user";
     UserEntity.roles := ["r1"];
     UserEntity.teams := [];
     UserEntity.includedPermissions := [];
     UserEntity.excludedPermissions := [];
     UserEntity.includedScopes := [];
     UserEntity.excludedScopes := [];
     UserEntity.administratorAccess := None;
     UserEntity.createdAt := 10;
     UserEntity.updatedAt := 10;
     UserEntity.deletedAt := None;
     UserEntity.isDeleted := false |}.

Definition collections : Collections :=
  mkCollections (mkDatabase [Deployment.alice; bob] ∅)
    (<["r1" := editor]> (<["r2" := restricted]> ∅)).

Definition auditor : CreateRoleModel.t :=
  CreateRoleModel.mk "Auditor" None (Some "reads") (Some ["A"]) None.

Definition recolor : UpdateRoleModel.t :=
  UpdateRoleModel.mk None (Some "#0f0") None None (Some ["B"]).
End Office.

(* ===================================================================== *)
(** * Properties of the permission resolver *)
(* ===================================================================== *)


Section PermissionResolver.
Import UserAuthorizationCredentialsModel AuthorizationService.

Lemma elem_of_addUnlessExcluded (excluded src eff : gset Permission) p :
  p ∈ addUnlessExcluded excluded src eff ↔ p ∈ eff ∨ (p ∈ src ∧ p ∉ excluded).
Proof.
  unfold addUnlessExcluded.
  apply (set_fold_ind_L
           (fun acc X => p ∈ acc ↔ p ∈ eff ∨ (p ∈ X ∧ p ∉ excluded))).
  - set_solver.
  - intros x X acc Hx IH. case_bool_decide; set_solver.
Qed.

Lemma flatMap_union {A} (f : A → list Permission) (l : list A) :
  list_to_set (C := gset Permission) (flatMap f l)
  = ⋃ ((fun r => list_to_set (f r)) <$> l).
Proof.
  unfold flatMap. induction l as [|a l IH]; simpl; [done|].
  by rewrite list_to_set_app_L, IH.
Qed.

Lemma existsb_excluded (ue re : gset Permission) (required : list Permission) :
  existsb (fun perm => bool_decide (perm ∈ ue) || bool_decide (perm ∈ re)) required = false
  ↔ ∀ p, p ∈ required → (p ∉ ue) ∧ (p ∉ re).
Proof.
  induction required as [|q required IH]; simpl.
  - split; [intros _ p Hp; inversion Hp | done].
  - rewrite orb_false_iff, orb_false_iff, IH, !bool_decide_eq_false.
    split.
    + intros [[? ?] Hall] p Hp. apply elem_of_cons in Hp as [->|Hp]; auto.
    + intros Hall. split; [apply Hall; left | intros p Hp; apply Hall; by right].
Qed.

Lemma forallb_effective (eff : gset Permission) (required : list Permission) :
  forallb (fun p => bool_decide (p ∈ eff)) required = true
  ↔ ∀ p, p ∈ required → p ∈ eff.
Proof.
  induction required as [|q required IH]; simpl.
  - split; [intros _ p Hp; inversion Hp | done].
  - rewrite andb_true_iff, IH, bool_decide_eq_true.
    split.
    + intros [? Hall] p Hp. apply elem_of_cons in Hp as [->|Hp]; auto.
    + intros Hall. split; [apply Hall; left | intros p Hp; apply Hall; by right].
Qed.

Variable getUserAuthorizationCredentials : string → Result t.

(** The resolver on a non-empty requirement, once the lookup has answered,
    with the two role sets written as unions over the roles. *)
Lemma hasPermission_nonempty (userId : string) (g : t) (required : list Permission) :
  required ≠ [] →
  getUserAuthorizationCredentials userId = Ok g →
  hasPermission getUserAuthorizationCredentials userId required =
  if truthyFlag (administratorAccess g) then Ok true else
  if existsb (fun perm => bool_decide (perm ∈ excludedPermissions g)
                          || bool_decide (perm ∈ GrantSet.roleExcluded g)) required
  then Ok false
  else Ok (forallb (fun p => bool_decide
             (p ∈ addUnlessExcluded (excludedPermissions g) (includedPermissions g)
                    (addUnlessExcluded (GrantSet.roleExcluded g)
                                       (GrantSet.roleIncluded g) ∅)))
             required).
Proof.
  intros Hne Hg. unfold hasPermission.
  destruct required as [|q required]; [done|].
  cbn [length]. rewrite Nat2Z.inj_succ.
  destruct (Z.eqb_spec (Z.succ (Z.of_nat (length required))) 0) as [Hz|_]; [lia|].
  rewrite Hg. cbn [mbind Result_bind bind].
  by rewrite !flatMap_union.
Qed.

Lemma elem_of_effective (g : t) p :
  p ∈ addUnlessExcluded (excludedPermissions g) (includedPermissions g)
        (addUnlessExcluded (GrantSet.roleExcluded g) (GrantSet.roleIncluded g) ∅)
  ↔ p ∈ GrantSet.effective g.
Proof.
  rewrite !elem_of_addUnlessExcluded. unfold GrantSet.effective. set_solver.
Qed.

Lemma truthyFlag_true (x : option bool) : truthyFlag x = true ↔ x = Some true.
Proof. destruct x as [[|]|]; simpl; split; congruence. Qed.

(** C2. For every grant set [g] (the one the user lookup returns) and every
    required-permission list, [hasPermission] settles with a boolean, and
    that boolean is [true] exactly when the required set is empty, or
    [administratorAccess] is set, or no required permission is excluded by
    the user or by any assigned role and every required permission is in
    (roles' inclusions minus roles' exclusions) ∪ (user inclusions minus user
    exclusions).  In particular, without administrator access, a required
    permission that one assigned role excludes makes the result [false],
    whatever the other roles and the user include. *)
Theorem hasPermission_resolution (userId : string) (g : t) (required : list Permission) :
  getUserAuthorizationCredentials userId = Ok g →
  (∃ b, hasPermission getUserAuthorizationCredentials userId required = Ok b
        ∧ (b = true ↔ GrantSet.grants g required))
  ∧ (∀ r p, r ∈ roles g → p ∈ RoleModel.excludedPermissions r → p ∈ required →
            administratorAccess g ≠ Some true →
            hasPermission getUserAuthorizationCredentials userId required = Ok false).
Proof.
  intros Hg. destruct (decide (required = [])) as [->|Hne].
  { split.
    - exists true. split; [done|]. split; [by left | done].
    - intros r p _ _ Hp. inversion Hp. }
  rewrite (hasPermission_nonempty userId g required Hne Hg).
  unfold GrantSet.grants. split.
  - destruct (truthyFlag (administratorAccess g)) eqn:Hadm.
    { apply (proj1 (truthyFlag_true _)) in Hadm. exists true. split; [done|].
      split; [by right; left | done]. }
    assert (administratorAccess g ≠ Some true) as Hnadm.
    { intros H. apply (proj2 (truthyFlag_true _)) in H. congruence. }
    destruct (existsb _ required) eqn:Hex.
    + exists false. split; [done|]. split; [done|].
      intros [?|[?|[Hno _]]]; [done | done |].
      pose proof (proj2 (existsb_excluded _ _ _) Hno). congruence.
    + pose proof (proj1 (existsb_excluded _ _ _) Hex) as Hno.
      eexists. split; [reflexivity|]. rewrite forallb_effective. split.
      * intros Hall. right; right. split; [done|].
        intros p Hp. apply (proj1 (elem_of_effective g p)). by apply Hall.
      * intros [?|[?|[_ Hall]]]; [done | done |].
        intros p Hp. apply (proj2 (elem_of_effective g p)). by apply Hall.
  - intros r p Hr Hp Hreq Hnadm.
    destruct (truthyFlag (administratorAccess g)) eqn:Hadm.
    { apply (proj1 (truthyFlag_true _)) in Hadm. done. }
    destruct (existsb _ required) eqn:Hex; [done|].
    destruct (proj1 (existsb_excluded _ _ _) Hex p Hreq) as [_ Hn].
    exfalso. apply Hn. unfold GrantSet.roleExcluded. apply elem_of_union_list.
    exists (list_to_set (RoleModel.excludedPermissions r)). split.
    + apply list_elem_of_fmap. by exists r.
    + by apply elem_of_list_to_set.
Qed.
End PermissionResolver.

(** C2, on the specification's example grant set and the requirement {A}. *)
Lemma hasPermission_resolution_witness :
  (∃ b, AuthorizationService.hasPermission Deployment.lookup "u1" ["A"] = Ok b
        ∧ (b = true ↔ GrantSet.grants Deployment.grantSet ["A"]))
  ∧ (∀ r p, r ∈ UserAuthorizationCredentialsModel.roles Deployment.grantSet →
            p ∈ RoleModel.excludedPermissions r → p ∈ ["A"] →
            UserAuthorizationCredentialsModel.administratorAccess Deployment.grantSet
              ≠ Some true →
            AuthorizationService.hasPermission Deployment.lookup "u1" ["A"] = Ok false).
Proof. apply hasPermission_resolution. reflexivity. Defined.

Example hasPermission_vetoed :
  AuthorizationService.hasPermission Deployment.lookup "u1" ["A"] = Ok false.
Proof. vm_compute. reflexivity. Qed.

Example hasPermission_granted :
  AuthorizationService.hasPermission Deployment.lookup "u1" ["B"] = Ok true.
Proof. vm_compute. reflexivity. Qed.


(* ===================================================================== *)
(** * Running asynchronous calls *)
(* ===================================================================== *)

Section Running.
Context {A B : Type}.

Lemma run_bind (now : Z) (m : Async A) (f : A → Async B) (db : Database) :
  run now (m ≫= f) db =
  match run now m db with
  | (Ok a, db') => run now (f a) db'
  | (Throw e, db') => (Throw e, db')
  end.
Proof.
  revert db. induction m as [a|e|X q k IH]; intros db; simpl; try done.
  destruct (execQuery now q db) as [r db']. apply IH.
Qed.

Lemma run_lift (now : Z) (r : Result A) (db : Database) :
  run now (lift r) db = (r, db).
Proof. by destruct r. Qed.
End Running.

Section Stepping.
Context {A B : Type}.

Lemma step_Await (now : Z) {X} (q : MongoQuery X) (k : Result X → Async A) db :
  step now (Await q k) db = (k (execQuery now q db).1, (execQuery now q db).2).
Proof. unfold step. by destruct (execQuery now q db). Qed.

Lemma step_Return (now : Z) (a : A) db : step now (Return a) db = (Return a, db).
Proof. done. Qed.

Lemma step_Reject (now : Z) (e : Exception) db :
  step now (Reject (A := A) e) db = (Reject e, db).
Proof. done. Qed.

Lemma interleave_First now1 now2 schedule (m1 : Async A) (m2 : Async B) db :
  interleave now1 now2 (First :: schedule) m1 m2 db
  = interleave now1 now2 schedule (step now1 m1 db).1 m2 (step now1 m1 db).2.
Proof. cbn [interleave]. by destruct (step now1 m1 db). Qed.

Lemma interleave_Second now1 now2 schedule (m1 : Async A) (m2 : Async B) db :
  interleave now1 now2 (Second :: schedule) m1 m2 db
  = interleave now1 now2 schedule m1 (step now2 m2 db).1 (step now2 m2 db).2.
Proof. cbn [interleave]. by destruct (step now2 m2 db). Qed.
End Stepping.

Lemma execQuery_SessionFindById now id db :
  execQuery now (SessionFindById id) db = (Ok (visibleSession db id), db).
Proof. done. Qed.

Lemma run_getSessionById (now : Z) (sessionId : string) (db : Database) :
  run now (AuthSessionService.getSessionById sessionId) db =
  (Ok (SessionEntity.toModel sessionId <$> visibleSession db sessionId), db).
Proof. simpl. by destruct (visibleSession db sessionId). Qed.

Lemma run_updateSessionTokens (now : Z) (sessionId a r : string) (db : Database) :
  run now (AuthSessionService.updateSessionTokens sessionId a r) db =
  (Ok tt, updated now sessionId (SetTokens a r) db).
Proof. unfold updated. simpl. by destruct (visibleSession db sessionId). Qed.

Lemma run_deleteSession (now : Z) (sessionId : string) (db : Database) :
  run now (AuthSessionService.deleteSession now sessionId) db =
  (Ok tt, updated now sessionId (SetDeletedAt now) db).
Proof. unfold updated. simpl. by destruct (visibleSession db sessionId). Qed.

(** Inversion of a completed run: split it at every bind and case on every
    test it went through. *)
Ltac run_inversion H :=
  repeat first
    [ rewrite run_bind in H
    | rewrite run_lift in H
    | rewrite run_getSessionById in H
    | rewrite run_updateSessionTokens in H
    | rewrite run_deleteSession in H
    | match type of H with
      | context [match ?x with _ => _ end] => destruct x eqn:?; try discriminate H
      end ].

Section Refresh.
Context `{Collaborators}.
Import AuthenticationService.

Lemma orThrow_Ok (x : option string) (e : Exception) (s : string) :
  orThrow x e = Ok s ↔ x = Some s ∧ s ≠ "".
Proof.
  unfold orThrow, truthy. destruct x as [s'|]; [|split; [done | intros [? _]; done]].
  case_bool_decide; simpl; split; try done.
  - intros [[= ->] ?]. done.
  - intros [= ->]. done.
  - intros [[= ->] _]. done.
Qed.

Lemma verifyRefreshToken_cases now refreshToken accessToken :
  (∃ decoded, jwtVerify refreshToken now = inl decoded
              ∧ JwtPayload.accessToken decoded = Some accessToken
              ∧ verifyRefreshToken now refreshToken accessToken = Ok decoded)
  ∨ ((∀ decoded, jwtVerify refreshToken now = inl decoded →
                 JwtPayload.accessToken decoded ≠ Some accessToken)
     ∧ verifyRefreshToken now refreshToken accessToken
       = Throw (HttpException "EXPIRED_REFRESH_TOKEN" UNAUTHORIZED)).
Proof.
  unfold verifyRefreshToken, jwtVerifyAsync.
  destruct (jwtVerify refreshToken now) as [decoded|why]; cbn [mbind Result_bind bind tryCatch].
  - case_bool_decide as Hne; cbn [tryCatch].
    + right. split; [|done]. by intros ? [= <-].
    + left. exists decoded. split; [done|]. split; [|done].
      destruct (decide (JwtPayload.accessToken decoded = Some accessToken)); [done|].
      by destruct Hne.
  - right. split; [|done]. intros ? [=].
Qed.

(** [refresh] once the request is presented and the session found: the
    window, the two comparisons, the verification, the rotation. *)
Lemma refresh_presented now nonces req db sessionId accessToken refreshToken doc :
  Presented req sessionId accessToken refreshToken →
  visibleSession db sessionId = Some doc →
  run now (refresh now nonces req) db =
  if (SessionEntity.endsAt doc <? now)%Z
  then (Throw (HttpException "SESSION_EXPIRED" UNAUTHORIZED), db) else
  if bool_decide (SessionEntity.accessToken doc ≠ accessToken)
  then (Throw (HttpException "INVALID_ACCESS_TOKEN" UNAUTHORIZED), db) else
  if bool_decide (SessionEntity.refreshToken doc ≠ refreshToken)
  then (Throw (HttpException "INVALID_REFRESH_TOKEN" UNAUTHORIZED), db) else
  match verifyRefreshToken now refreshToken accessToken with
  | Ok decoded =>
      (Ok (refreshed now nonces sessionId decoded), rotated now sessionId decoded db)
  | Throw e => (Throw e, db)
  end.
Proof.
  intros [(es & Hes & Hnes & Hds) (ea & Hea & Hnea & Hda) (er & Her & Hner & Hdr)] Hdoc.
  unfold refresh.
  rewrite Hes, Hea, Her.
  rewrite !(proj2 (orThrow_Ok _ _ _)) by done.
  rewrite run_bind, run_lift, run_bind, run_lift, run_bind, run_lift.
  unfold decryptString. rewrite Hds, Hda, Hdr.
  rewrite run_bind, run_lift, run_bind, run_getSessionById, Hdoc.
  cbn [fmap option_fmap option_map SessionEntity.toModel SessionModel.endsAt
       SessionModel.accessToken SessionModel.refreshToken SessionModel.id].
  destruct (SessionEntity.endsAt doc <? now)%Z; [done|].
  rewrite run_bind, run_lift, run_bind, run_lift.
  destruct (bool_decide (SessionEntity.accessToken doc ≠ accessToken)); [done|].
  destruct (bool_decide (SessionEntity.refreshToken doc ≠ refreshToken)); [done|].
  rewrite run_bind, run_lift.
  destruct (verifyRefreshToken now refreshToken accessToken) as [decoded|e]; [|done].
  by rewrite run_bind, run_updateSessionTokens.
Qed.

Lemma Matched_tests now req db sessionId doc :
  Matched now req db sessionId doc →
  (SessionEntity.endsAt doc <? now)%Z = false
  ∧ bool_decide (SessionEntity.accessToken doc ≠ SessionEntity.accessToken doc) = false
  ∧ bool_decide (SessionEntity.refreshToken doc ≠ SessionEntity.refreshToken doc) = false.
Proof.
  intros [_ _ Hwin]. split; [apply Z.ltb_ge; lia|].
  split; apply bool_decide_eq_false_2; intros Hne; by apply Hne.
Qed.

Lemma refresh_matched now nonces req db sessionId doc :
  Matched now req db sessionId doc →
  run now (refresh now nonces req) db =
  match verifyRefreshToken now (SessionEntity.refreshToken doc)
          (SessionEntity.accessToken doc) with
  | Ok decoded =>
      (Ok (refreshed now nonces sessionId decoded), rotated now sessionId decoded db)
  | Throw e => (Throw e, db)
  end.
Proof.
  intros Hm. rewrite (refresh_presented _ _ _ _ _ _ _ _ (matched_presented _ _ _ _ _ Hm)
                        (matched_session _ _ _ _ _ Hm)).
  destruct (Matched_tests _ _ _ _ _ Hm) as (-> & -> & ->). done.
Qed.

Lemma verifyRefreshToken_accepted now doc decoded :
  jwtVerify (SessionEntity.refreshToken doc) now = inl decoded →
  JwtPayload.accessToken decoded = Some (SessionEntity.accessToken doc) →
  verifyRefreshToken now (SessionEntity.refreshToken doc) (SessionEntity.accessToken doc)
  = Ok decoded.
Proof.
  intros Hver Hback.
  destruct (verifyRefreshToken_cases now (SessionEntity.refreshToken doc)
              (SessionEntity.accessToken doc))
    as [(d & Hv & _ & Hok)|[Hno _]].
  - congruence.
  - by destruct (Hno decoded Hver).
Qed.

Lemma refresh_accepted now nonces req db sessionId doc decoded :
  RefreshAccepted now req db sessionId doc decoded →
  run now (refresh now nonces req) db =
  (Ok (refreshed now nonces sessionId decoded), rotated now sessionId decoded db).
Proof.
  intros [Hm Hver Hback]. rewrite (refresh_matched _ _ _ _ _ _ Hm).
  by rewrite (verifyRefreshToken_accepted _ _ _ Hver Hback).
Qed.

Lemma refresh_fulfilled now nonces req db creds db' :
  run now (refresh now nonces req) db = (Ok creds, db') →
  ∃ sessionId doc decoded,
    RefreshAccepted now req db sessionId doc decoded
    ∧ creds = refreshed now nonces sessionId decoded
    ∧ db' = rotated now sessionId decoded db.
Proof.
  intros Hrun. unfold refresh in Hrun.
  run_inversion Hrun.
  injection Hrun as <- <-.
  apply (proj1 (orThrow_Ok _ _ _)) in Heqr as [Hes Hnes].
  apply (proj1 (orThrow_Ok _ _ _)) in Heqr0 as [Hea Hnea].
  apply (proj1 (orThrow_Ok _ _ _)) in Heqr1 as [Her Hner].
  unfold decryptString in *.
  destruct (decrypt a) as [sessionId|] eqn:Hds; [|done].
  destruct (decrypt a0) as [accessToken|] eqn:Hda; [|done].
  destruct (decrypt a1) as [refreshToken|] eqn:Hdr; [|done].
  simplify_eq.
  destruct (visibleSession db a2) as [doc|] eqn:Hdoc; [|done].
  cbn in Heqo. simplify_eq. cbn in *.
  apply bool_decide_eq_false in Heqb0, Heqb1.
  assert (SessionEntity.accessToken doc = a3) as <-
      by (destruct (decide (SessionEntity.accessToken doc = a3)); [done|by destruct Heqb0]).
  assert (SessionEntity.refreshToken doc = a4) as <-
      by (destruct (decide (SessionEntity.refreshToken doc = a4)); [done|by destruct Heqb1]).
  destruct (verifyRefreshToken_cases now (SessionEntity.refreshToken doc)
              (SessionEntity.accessToken doc))
    as [(decoded & Hver & Hback & Hok)|[_ Hthrow]]; [|congruence].
  rewrite Hok in Heqr5. simplify_eq.
  exists a2, doc, a5. split; [|done].
  split; [|done|done]. split; [|done|by apply Z.ltb_ge in Heqb; lia].
  split; eauto.
Qed.

(** The two awaits of [refresh]: the read of the session, and, when all
    checks pass, the update of its pair. *)
Lemma refresh_phases now nonces req sessionId accessToken refreshToken :
  Presented req sessionId accessToken refreshToken →
  ∃ k, refresh now nonces req = Await (SessionFindById sessionId) k
       ∧ ∀ doc, (SessionEntity.endsAt doc <? now)%Z = false →
           (SessionEntity.accessToken doc ≠ accessToken →
            k (Ok (Some doc)) = Reject (HttpException "INVALID_ACCESS_TOKEN" UNAUTHORIZED))
           ∧ (SessionEntity.accessToken doc = accessToken →
              SessionEntity.refreshToken doc = refreshToken →
              ∀ decoded, verifyRefreshToken now refreshToken accessToken = Ok decoded →
              ∃ k', k (Ok (Some doc)) =
                    Await (SessionFindByIdAndUpdate sessionId
                             (SetTokens (newAccessToken now decoded)
                                        (newRefreshToken now decoded))) k'
                    ∧ ∀ x, k' (Ok x) = Return (refreshed now nonces sessionId decoded)).
Proof.
  intros [(es & Hes & Hnes & Hds) (ea & Hea & Hnea & Hda) (er & Her & Hner & Hdr)].
  unfold refresh.
  rewrite Hes, Hea, Her.
  rewrite !(proj2 (orThrow_Ok _ _ _)) by done.
  cbn -[verifyRefreshToken decryptString].
  unfold decryptString. rewrite Hds, Hda, Hdr.
  cbn -[verifyRefreshToken].
  eexists. split; [reflexivity|].
  intros doc Hwin. cbn -[verifyRefreshToken]. rewrite Hwin.
  split.
  - intros Hne. by rewrite bool_decide_eq_true_2.
  - intros Ha Hr decoded Hver.
    rewrite !bool_decide_eq_false_2 by (intros Hne; by apply Hne).
    rewrite Hver. cbn. eexists. split; [reflexivity|]. done.
Qed.

Lemma visibleSession_Some db sessionId doc :
  visibleSession db sessionId = Some doc →
  sessions db !! sessionId = Some doc ∧ SessionEntity.isDeleted doc = false.
Proof.
  unfold visibleSession, softDeleteFilter.
  destruct (sessions db !! sessionId) as [d|]; [|done].
  destruct (SessionEntity.isDeleted d) eqn:Hd; simpl; [done|].
  by intros [= ->].
Qed.

Lemma sessions_rotated now sessionId decoded db doc :
  visibleSession db sessionId = Some doc →
  rotated now sessionId decoded db =
  mkDatabase (users db)
    (<[sessionId := applySessionUpdate now
                      (SetTokens (newAccessToken now decoded) (newRefreshToken now decoded))
                      doc]> (sessions db)).
Proof. intros Hdoc. unfold rotated, updated. by rewrite Hdoc. Qed.

(** C7. A successful [refresh] replaces, in the database, only the stored
    token pair of the session it was called for (and the plugin's
    [updatedAt] stamp): the session keeps its id, [endsAt], principal,
    [ipAddress], [userAgent], [platform] and [startedAt], every other
    session and the users are as before, and the credentials returned
    carry the same session id (encrypted afresh) with the new pair. *)
Theorem refresh_replaces_only_the_token_pair now nonces req db creds db' :
  run now (refresh now nonces req) db = (Ok creds, db') →
  ∃ sessionId doc doc', TokenPairReplaced nonces req db creds db' sessionId doc doc'.
Proof.
  intros Hrun.
  apply refresh_fulfilled in Hrun as (sessionId & doc & decoded & Hacc & -> & ->).
  destruct Hacc as [[[(e & He & _ & Hd) _ _] Hdoc _] _ _].
  exists sessionId, doc. eexists.
  rewrite (sessions_rotated _ _ _ _ _ Hdoc).
  apply visibleSession_Some in Hdoc as [Hdoc _].
  split; try done. by exists e.
Qed.

Lemma visibleSession_updated now sessionId update db doc :
  visibleSession db sessionId = Some doc →
  visibleSession (updated now sessionId update db) sessionId
  = Some (applySessionUpdate now update doc).
Proof.
  intros Hdoc. unfold updated. rewrite Hdoc.
  apply visibleSession_Some in Hdoc as [_ Hvis].
  unfold visibleSession. cbn [sessions]. rewrite lookup_insert_eq.
  by destruct update; cbn; rewrite Hvis.
Qed.

Lemma execQuery_SessionFindByIdAndUpdate now id update db doc :
  visibleSession db id = Some doc →
  execQuery now (SessionFindByIdAndUpdate id update) db
  = (Ok (Some doc), updated now id update db).
Proof. intros Hdoc. unfold updated. cbn. by rewrite Hdoc. Qed.

Lemma updated_updated now1 now2 sessionId a1 r1 a2 r2 db :
  updated now2 sessionId (SetTokens a2 r2) (updated now1 sessionId (SetTokens a1 r1) db)
  = updated now2 sessionId (SetTokens a2 r2) db.
Proof.
  destruct (visibleSession db sessionId) as [doc|] eqn:Hdoc.
  - unfold updated at 1.
    rewrite (visibleSession_updated now1 _ (SetTokens a1 r1) _ _ Hdoc).
    unfold updated. rewrite Hdoc. cbn. by rewrite insert_insert_eq.
  - unfold updated. by rewrite Hdoc, Hdoc.
Qed.

(** C4, as the code has it.  After a successful [refresh] of the session the
    request names, the pair stored is the one the call issued and returned,
    and the triple of the request is the superseded one.  The same call
    repeated with it, while the session is within its window, fails with
    INVALID_ACCESS_TOKEN when the access token just issued differs from the
    superseded one (that comparison comes first), and with
    INVALID_REFRESH_TOKEN when the two access tokens are the same string and
    the refresh tokens differ; the database stays as the first call left it.
    At no time does the repeated call fail with INVALID_REFRESH_TOKEN
    otherwise. *)
Theorem refresh_replay_rejected now nonces req db creds db' now' nonces' :
  run now (refresh now nonces req) db = (Ok creds, db') →
  ∃ sessionId doc doc',
    TokenPairReplaced nonces req db creds db' sessionId doc doc'
    ∧ Presented req sessionId (SessionEntity.accessToken doc) (SessionEntity.refreshToken doc)
    ∧ visibleSession db' sessionId = Some doc'
    ∧ (¬ (SessionEntity.endsAt doc' < now')%Z →
       (SessionEntity.accessToken doc' ≠ SessionEntity.accessToken doc →
        run now' (refresh now' nonces' req) db'
        = (Throw (HttpException "INVALID_ACCESS_TOKEN" UNAUTHORIZED), db'))
       ∧ (SessionEntity.accessToken doc' = SessionEntity.accessToken doc →
          SessionEntity.refreshToken doc' ≠ SessionEntity.refreshToken doc →
          run now' (refresh now' nonces' req) db'
          = (Throw (HttpException "INVALID_REFRESH_TOKEN" UNAUTHORIZED), db')))
    ∧ ((run now' (refresh now' nonces' req) db').1
       = Throw (HttpException "INVALID_REFRESH_TOKEN" UNAUTHORIZED) →
       SessionEntity.accessToken doc' = SessionEntity.accessToken doc
       ∧ SessionEntity.refreshToken doc' ≠ SessionEntity.refreshToken doc).
Proof.
  intros Hrun.
  apply refresh_fulfilled in Hrun as (sessionId & doc & decoded & Hacc & -> & ->).
  destruct Hacc as [[Hp Hdoc Hwin] _ _].
  pose proof (visibleSession_updated now sessionId
                (SetTokens (newAccessToken now decoded) (newRefreshToken now decoded))
                db doc Hdoc) as Hdoc'.
  fold (rotated now sessionId decoded db) in Hdoc'.
  exists sessionId, doc. eexists.
  split.
  { rewrite (sessions_rotated _ _ _ _ _ Hdoc).
    pose proof Hp as [(e & He & _ & Hd) _ _].
    apply visibleSession_Some in Hdoc as [Hdoc _].
    split; try done. by exists e. }
  split; [done|]. split; [exact Hdoc'|].
  rewrite (refresh_presented _ _ _ _ _ _ _ _ Hp Hdoc').
  split.
  - intros Hwin'.
    destruct (Z.ltb_spec (SessionEntity.endsAt
                (applySessionUpdate now (SetTokens (newAccessToken now decoded)
                                                   (newRefreshToken now decoded)) doc)) now')
      as [?|_]; [done|].
    split.
    + intros Hne. by rewrite bool_decide_eq_true_2.
    + intros Heq Hne. rewrite bool_decide_eq_false_2 by (intros Hn; by apply Hn).
      by rewrite bool_decide_eq_true_2.
  - destruct (_ <? now')%Z; [done|].
    case_bool_decide as Ha; [done|].
    case_bool_decide as Hr.
    + intros _. split; [|done].
      destruct (decide (SessionEntity.accessToken
                          (applySessionUpdate now
                             (SetTokens (newAccessToken now decoded)
                                        (newRefreshToken now decoded)) doc)
                        = SessionEntity.accessToken doc)); [done|by destruct Ha].
    + destruct (verifyRefreshToken_cases now' (SessionEntity.refreshToken doc)
                  (SessionEntity.accessToken doc))
        as [(d & _ & _ & ->)|[_ ->]]; done.
Qed.
(** C1, as the code has it.  The update of the stored pair is by session id
    alone, issued after the comparison with the pair read earlier.  Of two
    [refresh] calls that present the same triple, each acceptable on the
    database they start from: when both read the session before either
    updates it, both succeed, each with its own new pair, and the database
    ends as the later update alone would have left it; when the second call
    starts after the first has finished and the first's new access token
    differs from the old one, the first succeeds and the second fails with
    INVALID_ACCESS_TOKEN. *)
Theorem refresh_two_calls now1 now2 nonces1 nonces2 req db sessionId doc decoded1 decoded2 :
  RefreshAccepted now1 req db sessionId doc decoded1 →
  RefreshAccepted now2 req db sessionId doc decoded2 →
  interleave now1 now2 [First; Second; First; Second]
    (refresh now1 nonces1 req) (refresh now2 nonces2 req) db
  = (Return (refreshed now1 nonces1 sessionId decoded1),
     Return (refreshed now2 nonces2 sessionId decoded2),
     rotated now2 sessionId decoded2 db)
  ∧ (newAccessToken now1 decoded1 ≠ SessionEntity.accessToken doc →
     interleave now1 now2 [First; First; Second; Second]
       (refresh now1 nonces1 req) (refresh now2 nonces2 req) db
     = (Return (refreshed now1 nonces1 sessionId decoded1),
        Reject (HttpException "INVALID_ACCESS_TOKEN" UNAUTHORIZED),
        rotated now1 sessionId decoded1 db)).
Proof.
  intros [[Hp Hdoc Hwin1] Hver1 Hback1] [[_ _ Hwin2] Hver2 Hback2].
  destruct (refresh_phases now1 nonces1 req _ _ _ Hp) as (k1 & -> & Hk1).
  destruct (refresh_phases now2 nonces2 req _ _ _ Hp) as (k2 & -> & Hk2).
  assert ((SessionEntity.endsAt doc <? now1)%Z = false) as Hw1 by (apply Z.ltb_ge; lia).
  assert ((SessionEntity.endsAt doc <? now2)%Z = false) as Hw2 by (apply Z.ltb_ge; lia).
  destruct (Hk1 doc Hw1) as [_ Hgo1].
  destruct (Hgo1 eq_refl eq_refl decoded1 (verifyRefreshToken_accepted _ _ _ Hver1 Hback1))
    as (k1' & Hread1 & Hdone1).
  pose proof (visibleSession_updated now1 sessionId
                (SetTokens (newAccessToken now1 decoded1) (newRefreshToken now1 decoded1))
                db doc Hdoc) as Hdoc1.
  split.
  - destruct (Hk2 doc Hw2) as [_ Hgo2].
    destruct (Hgo2 eq_refl eq_refl decoded2 (verifyRefreshToken_accepted _ _ _ Hver2 Hback2))
      as (k2' & Hread2 & Hdone2).
    rewrite interleave_First, step_Await, execQuery_SessionFindById, Hdoc.
    cbn [fst snd]. rewrite Hread1.
    rewrite interleave_Second, step_Await, execQuery_SessionFindById, Hdoc.
    cbn [fst snd]. rewrite Hread2.
    rewrite interleave_First, step_Await,
      (execQuery_SessionFindByIdAndUpdate _ _ _ _ _ Hdoc).
    cbn [fst snd]. rewrite Hdone1.
    rewrite interleave_Second, step_Await,
      (execQuery_SessionFindByIdAndUpdate _ _ _ _ _ Hdoc1).
    cbn [fst snd interleave]. rewrite Hdone2.
    unfold rotated. by rewrite updated_updated.
  - intros Hnew.
    rewrite interleave_First, step_Await, execQuery_SessionFindById, Hdoc.
    cbn [fst snd]. rewrite Hread1.
    rewrite interleave_First, step_Await,
      (execQuery_SessionFindByIdAndUpdate _ _ _ _ _ Hdoc).
    cbn [fst snd]. rewrite Hdone1.
    rewrite interleave_Second, step_Await, execQuery_SessionFindById, Hdoc1.
    cbn [fst snd].
    destruct (Hk2 (applySessionUpdate now1
                     (SetTokens (newAccessToken now1 decoded1)
                                (newRefreshToken now1 decoded1)) doc) Hw2) as [Hstale _].
    rewrite (Hstale Hnew).
    by rewrite interleave_Second, step_Reject.
Qed.
End Refresh.

(* ===================================================================== *)
(** * The pairs the service stores are issued pairs *)
(* ===================================================================== *)

Section Issued.
Context `{Collaborators}.
Import AuthenticationService.

Lemma Issuing_bind {A B} (m : Async A) (f : A → Async B) :
  Issuing m → (∀ a, Issuing (f a)) → Issuing (m ≫= f).
Proof.
  intros Hm Hf. induction m as [a|e|X q k IH]; [apply Hf|done|].
  destruct Hm as [Hq Hk]. split; [done|]. intros r. by apply IH.
Qed.

Lemma Issuing_lift {A} (r : Result A) : Issuing (lift r).
Proof. by destruct r. Qed.

Lemma Issuing_await {X} (q : MongoQuery X) : issuing q → Issuing (await q).
Proof. intros Hq. split; [done|]. by intros [x|e]. Qed.

Lemma Issuing_getSessionById sessionId :
  Issuing (AuthSessionService.getSessionById sessionId).
Proof. split; [done|]. by intros [x|e]. Qed.

Lemma Issuing_refresh now nonces req : Issuing (refresh now nonces req).
Proof.
  unfold refresh.
  repeat (apply Issuing_bind; [apply Issuing_lift|intros ?]).
  apply Issuing_bind; [apply Issuing_getSessionById|]. intros [session|]; [|done].
  destruct (_ <? now)%Z; [done|].
  repeat (apply Issuing_bind; [apply Issuing_lift|intros ?]).
  destruct (bool_decide _); [done|]. destruct (bool_decide _); [done|].
  apply Issuing_bind; [apply Issuing_lift|intros decoded].
  apply Issuing_bind; [|done].
  apply Issuing_bind; [|done]. apply Issuing_await.
  by eexists _, _.
Qed.


Lemma Issuing_signOut now sessionId : Issuing (signOut now sessionId).
Proof.
  unfold signOut.
  apply Issuing_bind; [apply Issuing_lift|intros id].
  apply Issuing_bind; [apply Issuing_getSessionById|]. intros [session|]; [|done].
  apply Issuing_bind; [|done].
  apply Issuing_bind; [|done].
  apply Issuing_bind; [|done]. by apply Issuing_await.
Qed.

Lemma Issuing_verifySession now sessionId : Issuing (verifySession now sessionId).
Proof.
  unfold verifySession.
  apply Issuing_bind; [apply Issuing_getSessionById|]. intros [session|]; [|done].
  by destruct (_ <? now)%Z.
Qed.

Lemma Issuing_canActivate now request : Issuing (AuthenticationGuard.canActivate now request).
Proof.
  unfold AuthenticationGuard.canActivate.
  repeat (apply Issuing_bind; [apply Issuing_lift|intros ?]).
  apply Issuing_bind; [apply Issuing_getSessionById|]. intros [session|]; [|done].
  destruct (_ <? now)%Z; [done|]. destruct (bool_decide _); [done|].
  apply Issuing_lift.
Qed.

Lemma PairsIssued_insert db id doc :
  PairsIssued db →
  IssuedPair (SessionEntity.accessToken doc) (SessionEntity.refreshToken doc) →
  PairsIssued (mkDatabase (users db) (<[id := doc]> (sessions db))).
Proof.
  intros Hdb Hdoc id' doc'. cbn [sessions].
  destruct (decide (id' = id)) as [->|Hne].
  - rewrite lookup_insert_eq. by intros [= <-].
  - rewrite lookup_insert_ne by done. apply Hdb.
Qed.

Lemma execQuery_PairsIssued now {X} (q : MongoQuery X) db :
  issuing q → PairsIssued db → PairsIssued (execQuery now q db).2.
Proof.
  intros Hq Hdb. destruct q as [identifier|id|oid model|id|id update|user platform];
    cbn [execQuery snd]; try done.
  - destruct (sessions db !! oid); [done|]. cbn [snd]. by apply PairsIssued_insert.
  - destruct (visibleSession db id) as [doc|] eqn:Hdoc; [|done]. cbn [snd].
    apply visibleSession_Some in Hdoc as [Hdoc _].
    apply PairsIssued_insert; [done|].
    destruct update as [accessToken refreshToken|deletedAt]; [done|].
    apply (Hdb id doc Hdoc).
  - intros id doc. cbn [sessions]. rewrite map_lookup_filter_Some. intros [Hdoc _].
    by apply (Hdb id doc).
Qed.


Lemma step_PairsIssued now {A} (m : Async A) db :
  Issuing m → PairsIssued db →
  Issuing (step now m db).1 ∧ PairsIssued (step now m db).2.
Proof.
  intros Hm Hdb. destruct m as [a|e|X q k]; [done|done|].
  destruct Hm as [Hq Hk]. rewrite step_Await. split; [apply Hk|].
  by apply execQuery_PairsIssued.
Qed.

Lemma interleave_PairsIssued now1 now2 {A B} schedule (m1 : Async A) (m2 : Async B) db :
  Issuing m1 → Issuing m2 → PairsIssued db →
  PairsIssued (interleave now1 now2 schedule m1 m2 db).2.
Proof.
  revert m1 m2 db. induction schedule as [|[|] schedule IH]; intros m1 m2 db H1 H2 Hdb;
    [done| |].
  - rewrite interleave_First.
    destruct (step_PairsIssued now1 m1 db H1 Hdb). by apply IH.
  - rewrite interleave_Second.
    destruct (step_PairsIssued now2 m2 db H2 Hdb). by apply IH.
Qed.


End Issued.

(* ===================================================================== *)
(** * Sign-in *)
(* ===================================================================== *)

Lemma run_getUserByCredentials now identifier db :
  run now (IdentityService.getUserByCredentials identifier) db =
  (match List.filter (fun doc => softDeleteFilter (UserEntity.isDeleted doc)
                                 && matchesCredentials identifier doc) (users db) with
   | doc :: _ => Ok (Some (UserEntity.toAuthenticationCredentialsModel doc))
   | [] => Throw (HttpException "INVALID_CREDENTIALS" NOT_FOUND)
   end, db).
Proof. cbn. by destruct (List.filter _ (users db)). Qed.

Lemma run_getUserById now id db :
  run now (IdentityService.getUserById id) db =
  (match List.find (fun doc => softDeleteFilter (UserEntity.isDeleted doc)
                               && bool_decide (UserEntity.id doc = id)) (users db) with
   | Some doc => Ok (UserEntity.toModel doc)
   | None => Throw (HttpException "USER_NOT_FOUND" NOT_FOUND)
   end, db).
Proof. cbn. by destruct (List.find _ (users db)). Qed.

Lemma run_invalidateOtherSessions now user platform db :
  run now (AuthSessionService.invalidateOtherSessions user platform) db =
  (Ok tt, mkDatabase (users db) (withoutSessionsOf user platform db)).
Proof. done. Qed.

Lemma run_createSession now oid model db :
  run now (AuthSessionService.createSession oid model) db =
  match sessions db !! oid with
  | Some _ => (Throw (MongoServerError "E11000 duplicate key error"), db)
  | None => (Ok oid, mkDatabase (users db)
                       (<[oid := newSessionDocument now model]> (sessions db)))
  end.
Proof. cbn. by destruct (sessions db !! oid). Qed.

Section SignIn.
Context `{Collaborators}.
Import AuthenticationService.


End SignIn.



Section SignInRejections.
Context `{Collaborators}.
Import AuthenticationService.

(** C8. A sign-in with an identifier no user has and a sign-in with a known
    identifier and a wrong secret both fail with the message
    INVALID_CREDENTIALS and leave the database as it was (no session is
    created); but the first is thrown by the identity service with status
    NOT_FOUND, before sign-in's own test for a missing user is reached, and
    the second by sign-in with status UNAUTHORIZED. *)
Theorem signIn_rejections now oid nonces m db :
  (List.filter (fun doc => softDeleteFilter (UserEntity.isDeleted doc)
                           && matchesCredentials (SignInModel.identifier m) doc)
               (users db) = [] →
   run now (signIn now oid nonces m) db
   = (Throw (HttpException "INVALID_CREDENTIALS" NOT_FOUND), db))
  ∧ (∀ doc rest,
       List.filter (fun doc => softDeleteFilter (UserEntity.isDeleted doc)
                               && matchesCredentials (SignInModel.identifier m) doc)
                   (users db) = doc :: rest →
       bcryptCompare (SignInModel.password m) (UserEntity.password doc) = false →
       run now (signIn now oid nonces m) db
       = (Throw (HttpException "INVALID_CREDENTIALS" UNAUTHORIZED), db)).
Proof.
  unfold signIn. rewrite run_bind, run_getUserByCredentials. split.
  - by intros ->.
  - intros doc rest -> Hsecret. cbn [UserEntity.toAuthenticationCredentialsModel
      UserAuthenticationCredentialsModel.password]. by rewrite Hsecret.
Qed.
End SignInRejections.

(** C8, on the deployment: nobody is called mallory; Alice's secret is not
    hare. *)
Lemma signIn_rejections_witness :
  run 200 (AuthenticationService.signIn 200 "s3" Deployment.nonces
             (Deployment.signInRequest "mallory" "rabbit")) Deployment.db
  = (Throw (HttpException "INVALID_CREDENTIALS" NOT_FOUND), Deployment.db)
  ∧ run 200 (AuthenticationService.signIn 200 "s3" Deployment.nonces
               (Deployment.signInRequest "alice" "hare")) Deployment.db
    = (Throw (HttpException "INVALID_CREDENTIALS" UNAUTHORIZED), Deployment.db).
Proof.
  split.
  - apply (proj1 (signIn_rejections 200 "s3" Deployment.nonces
                    (Deployment.signInRequest "mallory" "rabbit") Deployment.db)).
    vm_compute. reflexivity.
  - apply (proj2 (signIn_rejections 200 "s3" Deployment.nonces
                    (Deployment.signInRequest "alice" "hare") Deployment.db)
             Deployment.alice []).
    + vm_compute. reflexivity.
    + vm_compute. reflexivity.
Defined.

Example signIn_rejections_statuses :
  statusCode NOT_FOUND = 404%Z ∧ statusCode UNAUTHORIZED = 401%Z
  ∧ HttpException "INVALID_CREDENTIALS" NOT_FOUND
    ≠ HttpException "INVALID_CREDENTIALS" UNAUTHORIZED.
Proof. repeat split; discriminate. Qed.

(* ===================================================================== *)
(** * Sign-out *)
(* ===================================================================== *)

Section SignOut.
Context `{Collaborators}.
Import AuthenticationService.

Lemma run_signOut now sessionId db :
  sessionId ≠ "" →
  run now (signOut now (Some sessionId)) db =
  match visibleSession db sessionId with
  | Some _ => (Ok tt, updated now sessionId (SetDeletedAt now) db)
  | None => (Throw (HttpException "SESSION_NOT_FOUND" UNAUTHORIZED), db)
  end.
Proof.
  intros Hne. unfold signOut.
  rewrite (proj2 (orThrow_Ok (Some sessionId) _ sessionId)) by done.
  rewrite run_bind, run_lift, run_bind, run_getSessionById.
  destruct (visibleSession db sessionId) as [doc|]; cbn [fmap option_fmap option_map]; [|done].
  by rewrite run_bind, run_deleteSession.
Qed.
End SignOut.

(* ===================================================================== *)
(** * Per-request verification *)
(* ===================================================================== *)

Section Guard.
Context `{Collaborators}.
Import AuthenticationGuard.

Lemma decryptString_not_http token message status :
  decryptString token ≠ Throw (HttpException message status).
Proof. unfold decryptString. by destruct (decrypt token). Qed.

(** [getAccessToken] throws INVALID_ACCESS_TOKEN only for a header whose
    scheme is not Bearer. *)
Lemma split_cons sep s : ∃ word words, split sep s = word :: words.
Proof.
  destruct s as [|c s]; cbn [split]; [by eexists _, _|].
  destruct (Ascii.eqb c sep); [by eexists _, _|].
  destruct (split sep s); by eexists _, _.
Qed.

Lemma getAccessToken_of_raw header raw :
  (header = Single raw ∧ raw ≠ "") ∨ (∃ values, header = Multiple (raw :: values)) →
  getAccessToken (Some header) =
  match split " " raw with
  | scheme :: parts =>
      if bool_decide (scheme ≠ "Bearer")
      then Throw (HttpException "INVALID_ACCESS_TOKEN" UNAUTHORIZED)
      else match parts with
           | token :: _ => decryptString token
           | [] => Throw (TypeError "The first argument must be of type string")
           end
  | [] => Throw (HttpException "INVALID_ACCESS_TOKEN" UNAUTHORIZED)
  end.
Proof.
  intros Hraw. unfold getAccessToken.
  assert (match header with
          | Single "" => False
          | Single value => Some value = Some raw
          | Multiple values => head values = Some raw
          end) as Hhead.
  { destruct Hraw as [[-> Hne]|[values ->]]; [|done]. by destruct raw. }
  destruct header as [value|values].
  - destruct value as [|c value]; [done|]. injection Hhead as <-.
    destruct (split " " (String c value)) as [|scheme [|token parts]];
      cbn [lookup list_lookup]; repeat case_bool_decide; congruence.
  - rewrite Hhead.
    destruct (split " " raw) as [|scheme [|token parts]];
      cbn [lookup list_lookup]; repeat case_bool_decide; congruence.
Qed.

(** [getAccessToken] throws INVALID_ACCESS_TOKEN only for a header whose
    scheme is not Bearer. *)
Lemma getAccessToken_invalid header status :
  getAccessToken header = Throw (HttpException "INVALID_ACCESS_TOKEN" status) →
  ∃ scheme, headerScheme header = Some scheme ∧ scheme ≠ "Bearer".
Proof.
  destruct header as [header|]; [|done].
  assert ((∃ raw, (header = Single raw ∧ raw ≠ "") ∨ (∃ values, header = Multiple (raw :: values)))
          ∨ header = Single "" ∨ header = Multiple []) as [[raw Hraw]|[->| ->]]; [|..|done|done].
  { destruct header as [[|c value]|[|value values]]; eauto;
      left; exists (String c value); left; done. }
  rewrite (getAccessToken_of_raw header raw Hraw).
  assert (headerScheme (Some header) = split " " raw !! 0%nat) as ->.
  { by destruct Hraw as [[-> _]|[values ->]]. }
  destruct (split_cons " " raw) as (scheme & parts & ->). cbn [lookup list_lookup].
  case_bool_decide as Hs.
  - intros _. by exists scheme.
  - destruct parts as [|token parts]; [done|]. by intros ?%decryptString_not_http.
Qed.

Lemma getSessionId_not_invalid_access_token cookie status :
  getSessionId cookie ≠ Throw (HttpException "INVALID_ACCESS_TOKEN" status).
Proof.
  unfold getSessionId, orThrow.
  destruct cookie as [sessionId|]; [|done].
  destruct (truthy (Some sessionId)); [|done].
  cbn [mbind Result_bind bind]. apply decryptString_not_http.
Qed.

(** The guard once both values are extracted. *)
Lemma run_canActivate now request db accessToken sessionId :
  getAccessToken (Request.authorization request) = Ok accessToken →
  getSessionId (Request.sessionIdCookie request) = Ok sessionId →
  run now (canActivate now request) db =
  (match visibleSession db sessionId with
   | None => Throw (TypeError "Cannot read properties of null (reading 'endsAt')")
   | Some doc =>
       if (SessionEntity.endsAt doc <? now)%Z
       then Throw (HttpException "SESSION_EXPIRED" UNAUTHORIZED) else
       if bool_decide (SessionEntity.accessToken doc ≠ accessToken)
       then Throw (HttpException "INVALID_ACCESS_TOKEN" UNAUTHORIZED) else
       match jwtVerify accessToken now with
       | inl payload =>
           Ok (true, Request.mk (Request.authorization request)
                                (Request.sessionIdCookie request)
                                (Some (JwtPayload.user payload)))
       | inr _ => Throw (HttpException "EXPIRED_ACCESS_TOKEN" UNAUTHORIZED)
       end
   end, db).
Proof.
  intros Ha Hs. unfold canActivate. rewrite Ha, Hs.
  rewrite run_bind, run_lift, run_bind, run_lift, run_bind, run_getSessionById.
  destruct (visibleSession db sessionId) as [doc|]; cbn [fmap option_fmap option_map]; [|done].
  cbn [SessionEntity.toModel SessionModel.endsAt SessionModel.accessToken].
  destruct (SessionEntity.endsAt doc <? now)%Z; [done|].
  destruct (bool_decide (SessionEntity.accessToken doc ≠ accessToken)); [done|].
  rewrite run_lift. unfold AuthenticationService.verifyAccessToken, jwtVerifyAsync.
  by destruct (jwtVerify accessToken now).
Qed.

(** C10. In [canActivate], once the presented access token equals the one
    stored for a session within its window, every rejection of the token by
    jsonwebtoken, whatever its cause, is reported as EXPIRED_ACCESS_TOKEN;
    and a rejection with INVALID_ACCESS_TOKEN comes either from an
    Authorization header whose scheme is not Bearer or from a presented
    token that differs from the stored one. *)
Theorem canActivate_token_rejections now request db :
  (∀ accessToken sessionId doc why,
     getAccessToken (Request.authorization request) = Ok accessToken →
     getSessionId (Request.sessionIdCookie request) = Ok sessionId →
     visibleSession db sessionId = Some doc →
     ¬ (SessionEntity.endsAt doc < now)%Z →
     SessionEntity.accessToken doc = accessToken →
     jwtVerify accessToken now = inr why →
     run now (canActivate now request) db
     = (Throw (HttpException "EXPIRED_ACCESS_TOKEN" UNAUTHORIZED), db))
  ∧ (∀ status db',
       run now (canActivate now request) db
       = (Throw (HttpException "INVALID_ACCESS_TOKEN" status), db') →
       (∃ scheme, headerScheme (Request.authorization request) = Some scheme
                  ∧ scheme ≠ "Bearer")
       ∨ (∃ accessToken sessionId doc,
            getAccessToken (Request.authorization request) = Ok accessToken
            ∧ getSessionId (Request.sessionIdCookie request) = Ok sessionId
            ∧ visibleSession db sessionId = Some doc
            ∧ SessionEntity.accessToken doc ≠ accessToken)).
Proof.
  split.
  - intros accessToken sessionId doc why Ha Hs Hdoc Hwin Heq Hver.
    rewrite (run_canActivate _ _ _ _ _ Ha Hs), Hdoc.
    destruct (Z.ltb_spec (SessionEntity.endsAt doc) now) as [?|_]; [done|].
    rewrite bool_decide_eq_false_2 by (intros Hne; by apply Hne).
    by rewrite Hver.
  - intros status db' Hrun.
    destruct (getAccessToken (Request.authorization request)) as [accessToken|e] eqn:Ha.
    + destruct (getSessionId (Request.sessionIdCookie request)) as [sessionId|e] eqn:Hs.
      * rewrite (run_canActivate _ _ _ _ _ Ha Hs) in Hrun.
        destruct (visibleSession db sessionId) as [doc|] eqn:Hdoc; [|done].
        destruct (SessionEntity.endsAt doc <? now)%Z; [done|].
        case_bool_decide as Hne.
        -- right. by exists accessToken, sessionId, doc.
        -- by destruct (jwtVerify accessToken now).
      * unfold canActivate in Hrun. rewrite Ha, Hs in Hrun.
        rewrite run_bind, run_lift, run_bind, run_lift in Hrun.
        injection Hrun as -> _. by apply getSessionId_not_invalid_access_token in Hs.
    + unfold canActivate in Hrun. rewrite Ha in Hrun.
      rewrite run_bind, run_lift in Hrun. injection Hrun as -> _.
      left. by apply getAccessToken_invalid in Ha.
Qed.
End Guard.

(** C10, on the deployment: the stored access token of s1 presented at 2000,
    after its expiry at 1000. *)
Lemma canActivate_token_rejections_witness :
  run 2000 (AuthenticationGuard.canActivate 2000 (Deployment.request "Bearer #A@100"))
    Deployment.db
  = (Throw (HttpException "EXPIRED_ACCESS_TOKEN" UNAUTHORIZED), Deployment.db).
Proof.
  apply (proj1 (canActivate_token_rejections 2000 (Deployment.request "Bearer #A@100")
                  Deployment.db)
           "A@100" "s1" (Deployment.session "A@100" "R@100/A@100" WEB) TokenExpiredError).
  - vm_compute. reflexivity.
  - vm_compute. reflexivity.
  - vm_compute. reflexivity.
  - cbn. lia.
  - reflexivity.
  - vm_compute. reflexivity.
Defined.

Example canActivate_other_scheme :
  (run 200 (AuthenticationGuard.canActivate 200 (Deployment.request "Basic #A@100"))
     Deployment.db).1
  = Throw (HttpException "INVALID_ACCESS_TOKEN" UNAUTHORIZED).
Proof. vm_compute. reflexivity. Qed.

Example canActivate_stale_token :
  (run 200 (AuthenticationGuard.canActivate 200 (Deployment.request "Bearer #A@200"))
     Deployment.db).1
  = Throw (HttpException "INVALID_ACCESS_TOKEN" UNAUTHORIZED).
Proof. vm_compute. reflexivity. Qed.

(* ===================================================================== *)
(** * The refresh properties on the deployment *)
(* ===================================================================== *)

Lemma Deployment_presented refreshToken :
  Presented (Deployment.refreshRequest refreshToken) "s1" "A@100" refreshToken.
Proof. split; eexists; (split; [reflexivity|]); split; done. Qed.

Lemma Deployment_accepted now :
  (now < 1000)%Z →
  RefreshAccepted now (Deployment.refreshRequest "R@100/A@100") Deployment.db "s1"
    (Deployment.session "A@100" "R@100/A@100" WEB)
    (JwtPayload.mk Deployment.aliceModel (Some "A@100")).
Proof.
  intros Hnow. split; [split| |done].
  - apply Deployment_presented.
  - by vm_compute.
  - cbn. lia.
  - change (Deployment.verify "R@100/A@100" now
            = inl (JwtPayload.mk Deployment.aliceModel (Some "A@100"))).
    unfold Deployment.verify.
    set (entry := List.find _ _). vm_compute in entry. subst entry. cbv beta iota.
    destruct (Z.ltb_spec now 100000); [done|lia].
Qed.

(** C1 does not hold as the specification states it: two calls with the same
    valid triple, the first at 200 and the second at 300, each reading the
    session before the other writes.  Both are fulfilled; the pair the first
    call returned (A@200) is not the stored one afterwards (A@300). *)
Lemma refresh_overlapping_both_fulfilled :
  ∃ creds1 creds2 db',
    interleave 200 300 [First; Second; First; Second]
      (AuthenticationService.refresh 200 Deployment.nonces
         (Deployment.refreshRequest "R@100/A@100"))
      (AuthenticationService.refresh 300 Deployment.nonces
         (Deployment.refreshRequest "R@100/A@100"))
      Deployment.db
    = (Return creds1, Return creds2, db')
    ∧ AuthenticationCredentialsModel.accessToken creds1 = "#A@200"
    ∧ AuthenticationCredentialsModel.accessToken creds2 = "#A@300"
    ∧ SessionEntity.accessToken <$> sessions db' !! "s1" = Some "A@300".
Proof.
  eexists _, _, _. split; [vm_compute; reflexivity|].
  repeat split; vm_compute; reflexivity.
Qed.

(** C1 as the code has it, on the deployment. *)
Lemma refresh_two_calls_witness :
  interleave 200 300 [First; Second; First; Second]
    (AuthenticationService.refresh 200 Deployment.nonces
       (Deployment.refreshRequest "R@100/A@100"))
    (AuthenticationService.refresh 300 Deployment.nonces
       (Deployment.refreshRequest "R@100/A@100"))
    Deployment.db
  = (Return (refreshed 200 Deployment.nonces "s1"
               (JwtPayload.mk Deployment.aliceModel (Some "A@100"))),
     Return (refreshed 300 Deployment.nonces "s1"
               (JwtPayload.mk Deployment.aliceModel (Some "A@100"))),
     rotated 300 "s1" (JwtPayload.mk Deployment.aliceModel (Some "A@100")) Deployment.db)
  ∧ (newAccessToken 200 (JwtPayload.mk Deployment.aliceModel (Some "A@100"))
     ≠ SessionEntity.accessToken (Deployment.session "A@100" "R@100/A@100" WEB) →
     interleave 200 300 [First; First; Second; Second]
       (AuthenticationService.refresh 200 Deployment.nonces
          (Deployment.refreshRequest "R@100/A@100"))
       (AuthenticationService.refresh 300 Deployment.nonces
          (Deployment.refreshRequest "R@100/A@100"))
       Deployment.db
     = (Return (refreshed 200 Deployment.nonces "s1"
                  (JwtPayload.mk Deployment.aliceModel (Some "A@100"))),
        Reject (HttpException "INVALID_ACCESS_TOKEN" UNAUTHORIZED),
        rotated 200 "s1" (JwtPayload.mk Deployment.aliceModel (Some "A@100"))
          Deployment.db)).
Proof.
  apply refresh_two_calls; apply Deployment_accepted; lia.
Defined.

(** C4 does not hold as the specification states it: s1 is refreshed at 200,
    and the same request is made again at 300, within the session's window.
    The second call fails with INVALID_ACCESS_TOKEN, not with
    INVALID_REFRESH_TOKEN. *)
Lemma refresh_replay_is_InvalidAccessToken :
  ∃ creds db',
    run 200 (AuthenticationService.refresh 200 Deployment.nonces
               (Deployment.refreshRequest "R@100/A@100")) Deployment.db
    = (Ok creds, db')
    ∧ run 300 (AuthenticationService.refresh 300 Deployment.nonces
                 (Deployment.refreshRequest "R@100/A@100")) db'
      = (Throw (HttpException "INVALID_ACCESS_TOKEN" UNAUTHORIZED), db')
    ∧ (run 300 (AuthenticationService.refresh 300 Deployment.nonces
                  (Deployment.refreshRequest "R@100/A@100")) db').1
      ≠ Throw (HttpException "INVALID_REFRESH_TOKEN" UNAUTHORIZED).
Proof.
  eexists _, _. split; [vm_compute; reflexivity|].
  split; [vm_compute; reflexivity|]. vm_compute. discriminate.
Qed.

(** C4 as the code has it, on the deployment: s1 is refreshed at 200 and the
    request is repeated at 300. *)
Lemma refresh_replay_rejected_witness :
  ∃ creds db',
    run 200 (AuthenticationService.refresh 200 Deployment.nonces
               (Deployment.refreshRequest "R@100/A@100")) Deployment.db
    = (Ok creds, db')
    ∧ SessionEntity.accessToken <$> sessions db' !! "s1" = Some "A@200"
    ∧ run 300 (AuthenticationService.refresh 300 Deployment.nonces
                 (Deployment.refreshRequest "R@100/A@100")) db'
      = (Throw (HttpException "INVALID_ACCESS_TOKEN" UNAUTHORIZED), db').
Proof.
  eexists _, _. split; [vm_compute; reflexivity|]. split; [vm_compute; reflexivity|].
  match goal with
  | |- run _ _ ?db' = _ =>
      destruct (refresh_replay_rejected 200 Deployment.nonces
                  (Deployment.refreshRequest "R@100/A@100") Deployment.db
                  (refreshed 200 Deployment.nonces "s1"
                     (JwtPayload.mk Deployment.aliceModel (Some "A@100")))
                  db' 300 Deployment.nonces ltac:(vm_compute; reflexivity))
        as (sessionId & doc & doc' & Hreplaced & Hpresented & Hdoc' & Hreplay & _)
  end.
  assert (sessionId = "s1") as ->.
  { destruct Hreplaced as [(e & He & Hd) _ _ _ _ _ _ _ _ _ _ _ _ _ _].
    cbn in He. injection He as <-. cbn in Hd. by injection Hd as <-. }
  assert (doc = Deployment.session "A@100" "R@100/A@100" WEB) as ->.
  { destruct Hreplaced as [_ Hbefore _ _ _ _ _ _ _ _ _ _ _ _ _].
    vm_compute in Hbefore. by injection Hbefore as <-. }
  vm_compute in Hdoc'. injection Hdoc' as <-.
  apply Hreplay; [cbn; lia|]. cbn. discriminate.
Defined.

(** C7, on the deployment: refreshing s1 at 200. *)
Lemma refresh_replaces_only_the_token_pair_witness :
  ∃ sessionId doc doc',
    TokenPairReplaced Deployment.nonces (Deployment.refreshRequest "R@100/A@100")
      Deployment.db
      (refreshed 200 Deployment.nonces "s1"
         (JwtPayload.mk Deployment.aliceModel (Some "A@100")))
      (rotated 200 "s1" (JwtPayload.mk Deployment.aliceModel (Some "A@100")) Deployment.db)
      sessionId doc doc'.
Proof.
  apply (refresh_replaces_only_the_token_pair 200).
  vm_compute. reflexivity.
Defined.


(* ===================================================================== *)
(** * Base64 and UTF-8 round trips *)
(* ===================================================================== *)

Lemma list_ind3 {A} (P : list A → Prop) :
  P [] → (∀ a, P [a]) → (∀ a b, P [a; b]) →
  (∀ a b c l, P l → P (a :: b :: c :: l)) →
  ∀ l, P l.
Proof.
  intros H0 H1 H2 H3 l.
  assert (P l ∧ (∀ a, P (a :: l)) ∧ (∀ a b, P (a :: b :: l))) as [? _]; [|done].
  induction l as [|c l (IH0 & IH1 & IH2)]; [done|].
  split; [apply IH1|]. split; [intros a; apply IH2|].
  intros a b. by apply H3.
Qed.

Section Base64.
Import Base64.

Lemma sextetOf_charOf (n : Z) :
  (0 ≤ n < 64)%Z → sextetOf (charOf n) = Some n ∧ Ascii.eqb (charOf n) "=" = false.
Proof.
  intros Hn.
  assert (forallb (fun n => bool_decide (sextetOf (charOf n) = Some n)
                            && negb (Ascii.eqb (charOf n) "="))
                  (seqZ 0 64) = true) as Hall by (vm_compute; reflexivity).
  rewrite forallb_forall in Hall.
  specialize (Hall n). rewrite <- list_elem_of_In, elem_of_seqZ in Hall.
  specialize (Hall ltac:(lia)).
  apply andb_true_iff in Hall as [H1 H2].
  apply bool_decide_eq_true in H1. apply negb_true_iff in H2. done.
Qed.

Lemma sextets_charOf (n : Z) (rest : string) :
  (0 ≤ n < 64)%Z → sextets (String (charOf n) rest) = n :: sextets rest.
Proof.
  intros Hn. destruct (sextetOf_charOf n Hn) as [Hs Hp].
  cbn [sextets]. by rewrite Hp, Hs.
Qed.

Lemma decode_encode (bytes : list Z) :
  Forall isByte bytes → decode (encode bytes) = bytes.
Proof.
  unfold decode, isByte.
  induction bytes as [|a|a b|a b c l IH] using list_ind3; intros Hb.
  - done.
  - apply Forall_cons in Hb as [Ha _]. cbn [encode].
    rewrite !sextets_charOf by (Z.div_mod_to_equations; lia).
    cbn [sextets Ascii.eqb Bool.eqb decodeSextets]. f_equal.
    Z.div_mod_to_equations; lia.
  - apply Forall_cons in Hb as [Ha Hb]. apply Forall_cons in Hb as [Hb _].
    cbn [encode].
    rewrite !sextets_charOf by (Z.div_mod_to_equations; lia).
    cbn [sextets Ascii.eqb Bool.eqb decodeSextets].
    f_equal; [|f_equal]; Z.div_mod_to_equations; lia.
  - apply Forall_cons in Hb as [Ha Hb]. apply Forall_cons in Hb as [Hb Hc].
    apply Forall_cons in Hc as [Hc Hl].
    cbn [encode].
    rewrite !sextets_charOf by (Z.div_mod_to_equations; lia).
    cbn [decodeSextets]. rewrite (IH Hl).
    f_equal; [|f_equal; [|f_equal]]; Z.div_mod_to_equations; lia.
Qed.

Lemma append_String (c : ascii) (s1 s2 : string) :
  (String c s1 ++ s2)%string = String c (s1 ++ s2)%string.
Proof. done. Qed.

Lemma append_associative (s1 s2 s3 : string) :
  ((s1 ++ s2) ++ s3)%string = (s1 ++ (s2 ++ s3))%string.
Proof. induction s1 as [|c s1 IH]; [done|]. rewrite !append_String. by rewrite IH. Qed.

Lemma length_append (s1 s2 : string) :
  String.length (s1 ++ s2)%string = (String.length s1 + String.length s2)%nat.
Proof.
  induction s1 as [|c s1 IH]; [done|].
  rewrite append_String. cbn [String.length]. by rewrite IH.
Qed.

Lemma append_cancel (s a b : string) : (s ++ a)%string = (s ++ b)%string → a = b.
Proof.
  induction s as [|c s IH]; [done|]. rewrite !append_String. intros [= Heq]. by apply IH.
Qed.

(** A buffer of 3k bytes is encoded group by group, into 4k characters of
    the alphabet. *)
Lemma encode_whole_groups (front : list Z) (k : nat) (tail : list Z) :
  length front = (3 * k)%nat →
  encode (front ++ tail) = (encode front ++ encode tail)%string
  ∧ String.length (encode front) = (4 * k)%nat.
Proof.
  revert k. induction front as [|a|a b|a b c l IH] using list_ind3; intros k Hlen.
  - cbn in Hlen. assert (k = 0%nat) as -> by lia. done.
  - cbn in Hlen. lia.
  - cbn in Hlen. lia.
  - destruct k as [|k]; cbn [length] in Hlen; [lia|].
    destruct (IH k ltac:(lia)) as [Happ Hl].
    cbn [app encode String.length]. rewrite !append_String, Happ.
    cbn [String.length]. rewrite Hl. split; [done|lia].
Qed.

Lemma decode_whole_groups (front : list Z) (k : nat) (rest : string) :
  length front = (3 * k)%nat → Forall isByte front →
  decode (encode front ++ rest)%string = (front ++ decode rest)%list.
Proof.
  unfold decode, isByte.
  revert k. induction front as [|a|a b|a b c l IH] using list_ind3; intros k Hlen Hb.
  - done.
  - cbn in Hlen. lia.
  - cbn in Hlen. lia.
  - destruct k as [|k]; cbn [length] in Hlen; [lia|].
    apply Forall_cons in Hb as [Ha Hb]. apply Forall_cons in Hb as [Hb Hc].
    apply Forall_cons in Hc as [Hc Hl].
    cbn [encode]. rewrite !append_String.
    rewrite !sextets_charOf by (Z.div_mod_to_equations; lia).
    cbn [decodeSextets app]. rewrite (IH k ltac:(lia) Hl).
    f_equal; [|f_equal; [|f_equal]]; Z.div_mod_to_equations; lia.
Qed.

Lemma flipBitAt_append (s1 s2 : string) (position bit : nat) :
  flipBitAt (String.length s1 + position) bit (s1 ++ s2)%string
  = (s1 ++ flipBitAt position bit s2)%string.
Proof.
  induction s1 as [|c s1 IH]; [done|].
  rewrite !append_String. cbn [String.length Nat.add flipBitAt]. by rewrite IH.
Qed.

(** Of the two characters that encode a last single byte, the second holds
    two bits of it; some other character holds the same two bits, differs
    from it in one bit, and is decoded to the same byte. *)
Lemma last_character_slack (b : Z) :
  isByte b →
  ∃ bit sextet,
    flipBit bit (charOf ((b mod 4) * 16)) ≠ charOf ((b mod 4) * 16)
    ∧ sextets (String (flipBit bit (charOf ((b mod 4) * 16))) "==") = [sextet]
    ∧ (sextet / 16 = b mod 4)%Z.
Proof.
  intros Hb. unfold isByte in Hb.
  assert (b mod 4 = 0 ∨ b mod 4 = 1 ∨ b mod 4 = 2 ∨ b mod 4 = 3)%Z
    as [-> |[-> |[-> | ->]]] by (Z.div_mod_to_equations; lia).
  - exists 1%nat, 2%Z. by vm_compute.
  - exists 1%nat, 18%Z. by vm_compute.
  - exists 3%nat, 40%Z. by vm_compute.
  - exists 6%nat, 59%Z. by vm_compute.
Qed.

(** A buffer of 3k + 1 bytes has a token with such a character, at position
    4k + 1: one bit of the token can be flipped without any change to the
    bytes it is decoded to. *)
Lemma decode_flipped_slack_bit (front : list Z) (k : nat) (b : Z) :
  length front = (3 * k)%nat → Forall isByte front → isByte b →
  ∃ bit, flipBitAt (4 * k + 1) bit (encode (front ++ [b])) ≠ encode (front ++ [b])
         ∧ decode (flipBitAt (4 * k + 1) bit (encode (front ++ [b])))
           = (front ++ [b])%list.
Proof.
  intros Hlen Hfront Hb.
  destruct (encode_whole_groups front k [b] Hlen) as [-> Hl].
  destruct (last_character_slack b Hb) as (bit & sextet & Hne & Hsextets & Hslack).
  exists bit.
  assert (encode [b] = String (charOf (b / 4)) "" +:+ String (charOf ((b mod 4) * 16)) "==")
    as -> by done.
  rewrite <- append_associative.
  replace (4 * k + 1)%nat
    with (String.length (encode front +:+ String (charOf (b / 4)) "") + 0)%nat
    by (rewrite length_append, Hl; cbn; lia).
  rewrite flipBitAt_append. cbn [flipBitAt]. split.
  - intros Heq. apply append_cancel in Heq. apply Hne. by injection Heq.
  - rewrite append_associative, append_String.
    rewrite (decode_whole_groups front k _ Hlen Hfront). f_equal.
    unfold decode. unfold isByte in Hb.
    change ("" +:+ ?s)%string with s.
    rewrite sextets_charOf by (Z.div_mod_to_equations; lia).
    rewrite Hsextets. cbn [decodeSextets]. f_equal.
    Z.div_mod_to_equations; lia.
Qed.
End Base64.

Section Utf8.
Import Utf8.

Ltac decide_tests :=
  repeat match goal with
         | |- context [(?a <=? ?b)%Z] => destruct (Z.leb_spec a b); try lia
         | |- context [(?a <? ?b)%Z] => destruct (Z.ltb_spec a b); try lia
         | |- context [(?a =? ?b)%Z] => destruct (Z.eqb_spec a b); try lia
         end; cbn [andb orb negb].

Lemma encodeCodePoint_bytes cp :
  (0 ≤ cp < 1114112)%Z → Forall isByte (encodeCodePoint cp).
Proof.
  intros Hcp. unfold encodeCodePoint, isByte.
  decide_tests; repeat apply Forall_cons_2; try apply Forall_nil_2;
    Z.div_mod_to_equations; lia.
Qed.

Lemma decodeCodePoints_encodeCodePoint cp rest :
  isScalar cp →
  decodeCodePoints None (encodeCodePoint cp ++ rest) = cp :: decodeCodePoints None rest.
Proof.
  intros [Hcp Hns]. unfold encodeCodePoint.
  destruct (Z.ltb_spec cp 128); [|destruct (Z.ltb_spec cp 2048);
                                   [|destruct (Z.ltb_spec cp 65536)]].
  - cbn [app decodeCodePoints]. unfold lead. by decide_tests.
  - pose proof (Z.div_mod cp 64 ltac:(lia)) as Hdm.
    pose proof (Z.mod_pos_bound cp 64 ltac:(lia)) as Hm.
    set (q := (cp / 64)%Z) in *. set (r := (cp mod 64)%Z) in *.
    cbn [app decodeCodePoints]. unfold lead. decide_tests.
    cbn [lower upper needed codePoint]. decide_tests. f_equal. lia.
  - pose proof (Z.div_mod cp 64 ltac:(lia)) as Hdm.
    pose proof (Z.mod_pos_bound cp 64 ltac:(lia)) as Hm.
    pose proof (Z.div_mod (cp / 64) 64 ltac:(lia)) as Hdm'.
    pose proof (Z.mod_pos_bound (cp / 64) 64 ltac:(lia)) as Hm'.
    replace (cp / 4096)%Z with (cp / 64 / 64)%Z by (rewrite Z.div_div by lia; done).
    set (q := (cp / 64)%Z) in *. set (r := (cp mod 64)%Z) in *.
    set (q' := (q / 64)%Z) in *. set (r' := (q mod 64)%Z) in *.
    cbn [app decodeCodePoints]. unfold lead. decide_tests.
    all: cbn [lower upper needed codePoint]; decide_tests.
    all: cbn [lower upper needed codePoint]; decide_tests.
    all: f_equal; lia.
  - pose proof (Z.div_mod cp 64 ltac:(lia)) as Hdm.
    pose proof (Z.mod_pos_bound cp 64 ltac:(lia)) as Hm.
    pose proof (Z.div_mod (cp / 64) 64 ltac:(lia)) as Hdm'.
    pose proof (Z.mod_pos_bound (cp / 64) 64 ltac:(lia)) as Hm'.
    pose proof (Z.div_mod (cp / 64 / 64) 64 ltac:(lia)) as Hdm''.
    pose proof (Z.mod_pos_bound (cp / 64 / 64) 64 ltac:(lia)) as Hm''.
    replace (cp / 4096)%Z with (cp / 64 / 64)%Z by (rewrite Z.div_div by lia; done).
    replace (cp / 262144)%Z with (cp / 64 / 64 / 64)%Z
      by (rewrite !Z.div_div by lia; done).
    set (q := (cp / 64)%Z) in *. set (r := (cp mod 64)%Z) in *.
    set (q' := (q / 64)%Z) in *. set (r' := (q mod 64)%Z) in *.
    set (q'' := (q' / 64)%Z) in *. set (r'' := (q' mod 64)%Z) in *.
    cbn [app decodeCodePoints]. unfold lead. decide_tests.
    all: cbn [lower upper needed codePoint]; decide_tests.
    all: cbn [lower upper needed codePoint]; decide_tests.
    all: cbn [lower upper needed codePoint]; decide_tests.
    all: f_equal; lia.
Qed.

Lemma decode_encodeCodePoint cp rest :
  isScalar cp →
  decode (encodeCodePoint cp ++ rest) = (toCodeUnits cp ++ decode rest)%list.
Proof.
  intros Hcp. unfold decode. by rewrite decodeCodePoints_encodeCodePoint.
Qed.

Lemma surrogate_tests u :
  (isHighSurrogate u = true ↔ (55296 ≤ u ≤ 56319)%Z)
  ∧ (isLowSurrogate u = true ↔ (56320 ≤ u ≤ 57343)%Z).
Proof.
  unfold isHighSurrogate, isLowSurrogate.
  rewrite !andb_true_iff, !Z.leb_le. done.
Qed.

Lemma encode_bytes s : Forall isCodeUnit s → Forall isByte (encode s).
Proof.
  assert (∀ n s, (length s ≤ n)%nat → Forall isCodeUnit s → Forall isByte (encode s))
    as Hall; [|by apply (Hall (length s))].
  clear s. induction n as [|n IH]; intros s Hlen Hunits.
  { destruct s; [done|cbn in Hlen; lia]. }
  destruct s as [|u rest]; [done|].
  apply Forall_cons in Hunits as [Hu Hrest]. unfold isCodeUnit in Hu.
  cbn [encode]. cbn [length] in Hlen.
  destruct (isHighSurrogate u) eqn:Hhigh.
  - apply (proj1 (proj1 (surrogate_tests u))) in Hhigh.
    destruct rest as [|l rest']; [by apply encodeCodePoint_bytes|].
    destruct (isLowSurrogate l) eqn:Hlow.
    + apply (proj1 (proj2 (surrogate_tests l))) in Hlow.
      apply Forall_cons in Hrest as [_ Hrest'].
      apply Forall_app. split; [apply encodeCodePoint_bytes; lia|].
      apply IH; [cbn [length] in Hlen; lia|done].
    + apply Forall_app. split; [by apply encodeCodePoint_bytes|].
      apply IH; [lia|done].
  - destruct (isLowSurrogate u).
    + apply Forall_app. split; [by apply encodeCodePoint_bytes|].
      apply IH; [lia|done].
    + apply Forall_app. split; [apply encodeCodePoint_bytes; lia|].
      apply IH; [lia|done].
Qed.

(** UTF-8 gives back every string that has no lone surrogate. *)
Lemma utf8_decode_encode s :
  Forall isCodeUnit s → wellFormed s = true → decode (encode s) = s.
Proof.
  assert (∀ n s, (length s ≤ n)%nat → Forall isCodeUnit s → wellFormed s = true →
                 decode (encode s) = s) as Hall; [|by apply (Hall (length s))].
  clear s. induction n as [|n IH]; intros s Hlen Hunits Hwf.
  { destruct s; [done|cbn in Hlen; lia]. }
  destruct s as [|u rest]; [done|].
  apply Forall_cons in Hunits as [Hu Hrest]. unfold isCodeUnit in Hu.
  cbn [encode wellFormed] in *. cbn [length] in Hlen.
  destruct (isHighSurrogate u) eqn:Hhigh.
  - apply (proj1 (proj1 (surrogate_tests u))) in Hhigh.
    destruct rest as [|l rest']; [done|].
    apply andb_true_iff in Hwf as [Hlow Hwf]. rewrite Hlow.
    apply (proj1 (proj2 (surrogate_tests l))) in Hlow.
    apply Forall_cons in Hrest as [_ Hrest'].
    rewrite decode_encodeCodePoint by (split; lia).
    rewrite IH by (cbn [length] in Hlen; try lia; done).
    unfold toCodeUnits.
    destruct (Z.ltb_spec (65536 + (u - 55296) * 1024 + (l - 56320)) 65536); [lia|].
    cbn [app]. f_equal; [|f_equal]; Z.div_mod_to_equations; lia.
  - apply andb_true_iff in Hwf as [Hlow Hwf]. apply negb_true_iff in Hlow.
    rewrite Hlow.
    assert (¬ (55296 ≤ u ≤ 56319)%Z) as Hnh.
    { intros Hr. apply (proj2 (proj1 (surrogate_tests u))) in Hr. congruence. }
    assert (¬ (56320 ≤ u ≤ 57343)%Z) as Hnl.
    { intros Hr. apply (proj2 (proj2 (surrogate_tests u))) in Hr. congruence. }
    rewrite decode_encodeCodePoint by (split; lia).
    rewrite IH by (try lia; done).
    unfold toCodeUnits. by destruct (Z.ltb_spec u 65536); [|lia].
Qed.
End Utf8.

(* ===================================================================== *)
(** * Encryption and decryption *)
(* ===================================================================== *)

Lemma flipped_length l l' : flipped l l' → length l' = length l.
Proof. induction 1; cbn; congruence. Qed.

Lemma lxor_byte a b : isByte a → isByte b → isByte (Z.lxor a b).
Proof.
  unfold isByte. intros Ha Hb.
  assert (forallb (fun a => forallb (fun b => (0 <=? Z.lxor a b)%Z && (Z.lxor a b <? 256)%Z)
                                    (seqZ 0 256)) (seqZ 0 256) = true) as Hall
      by (vm_compute; reflexivity).
  rewrite forallb_forall in Hall. specialize (Hall a).
  rewrite <- list_elem_of_In, elem_of_seqZ in Hall. specialize (Hall ltac:(lia)).
  rewrite forallb_forall in Hall. specialize (Hall b).
  rewrite <- list_elem_of_In, elem_of_seqZ in Hall. specialize (Hall ltac:(lia)).
  apply andb_true_iff in Hall as [H1 H2]. lia.
Qed.

Lemma flipped_bytes l l' : flipped l l' → Forall isByte l → Forall isByte l'.
Proof.
  induction 1 as [bit b rest Hbit|b l l' _ IH]; intros Hb;
    apply Forall_cons in Hb as [Hb Hrest]; apply Forall_cons_2; auto.
  apply lxor_byte; [done|]. unfold isByte.
  assert (bit = 0 ∨ bit = 1 ∨ bit = 2 ∨ bit = 3 ∨ bit = 4 ∨ bit = 5 ∨ bit = 6 ∨ bit = 7)%Z
    as Hcases by lia.
  destruct Hcases as [->|[->|[->|[->|[->|[->|[->| ->]]]]]]]; cbn; lia.
Qed.

Section CryptoService.
Context `{Cipher}.
Import CryptoService.

Lemma decryptString_raw (raw : list Z) :
  Forall isByte raw →
  decryptString (Base64.encode raw) =
  match open (take 12 raw) (take 16 (drop 12 raw)) (drop 28 raw) with
  | Some decrypted => Ok (Utf8.decode decrypted)
  | None => Throw (CryptoError "Unsupported state or unable to authenticate data")
  end.
Proof. intros Hraw. unfold decryptString. by rewrite decode_encode. Qed.

(** C3, as the code has it.  With an authenticated cipher and a 12-byte
    nonce: a string without lone surrogates comes back from [decryptString]
    as it went into [encryptString]; and when one bit of the bytes the token
    encodes (nonce, tag, ciphertext) is flipped, [decryptString] of the
    token of those bytes throws. *)
Theorem decryptString_encryptString (iv : list Z) (s : list Z) :
  Authenticated →
  length iv = 12%nat → Forall isByte iv → Forall isCodeUnit s →
  encryptString iv s
  = Base64.encode (iv ++ (seal iv (Utf8.encode s)).2 ++ (seal iv (Utf8.encode s)).1)
  ∧ (Utf8.wellFormed s = true → decryptString (encryptString iv s) = Ok s)
  ∧ (∀ raw', flipped (iv ++ (seal iv (Utf8.encode s)).2 ++ (seal iv (Utf8.encode s)).1) raw' →
             decryptString (Base64.encode raw')
             = Throw (CryptoError "Unsupported state or unable to authenticate data")).
Proof.
  intros Hauth Hlen Hiv Hs.
  pose proof (encode_bytes s Hs) as Hpt.
  destruct (seal_bytes Hauth iv _ Hiv Hpt) as [Hct Htag].
  destruct (seal_length Hauth iv (Utf8.encode s)) as [Hlct Hltag].
  assert (encryptString iv s
          = Base64.encode (iv ++ (seal iv (Utf8.encode s)).2 ++ (seal iv (Utf8.encode s)).1))
    as Htoken.
  { unfold encryptString. by destruct (seal iv (Utf8.encode s)). }
  set (ct := (seal iv (Utf8.encode s)).1) in *.
  set (tag := (seal iv (Utf8.encode s)).2) in *.
  assert (Forall isByte (iv ++ tag ++ ct)) as Hraw by (by repeat apply Forall_app_2).
  split; [done|]. split.
  - intros Hwf. rewrite Htoken, (decryptString_raw _ Hraw).
    rewrite take_app_length' by done.
    rewrite drop_app_length' by done.
    rewrite take_app_length' by done.
    replace 28%nat with (length iv + length tag)%nat by lia.
    rewrite <- drop_drop, drop_app_length, drop_app_length.
    unfold tag, ct. rewrite (open_seal Hauth iv _ Hpt).
    by rewrite utf8_decode_encode.
  - intros raw' Hflip.
    pose proof (flipped_length _ _ Hflip) as Hlen'.
    rewrite !length_app in Hlen'.
    rewrite (decryptString_raw _ (flipped_bytes _ _ Hflip Hraw)).
    rewrite (open_flipped Hauth iv (Utf8.encode s)
               (take 12 raw') (take 16 (drop 12 raw')) (drop 28 raw')); try done.
    + rewrite length_take. lia.
    + rewrite length_take, length_drop. lia.
    + fold tag ct. replace 28%nat with (12 + 16)%nat by done.
      by rewrite <- drop_drop, !take_drop.
Qed.

(** Whatever the cipher: when the UTF-8 length of the string is a multiple of
    three, the token has a bit whose flip gives another token with the same
    decryption. *)
Lemma decryptString_ignores_a_token_bit (iv : list Z) (s : list Z) (m : nat) :
  Authenticated →
  length iv = 12%nat → Forall isByte iv → Forall isCodeUnit s →
  length (Utf8.encode s) = (3 * m)%nat →
  ∃ position bit,
    flipBitAt position bit (encryptString iv s) ≠ encryptString iv s
    ∧ decryptString (flipBitAt position bit (encryptString iv s))
      = decryptString (encryptString iv s).
Proof.
  intros Hauth Hlen Hiv Hs Hm.
  pose proof (encode_bytes s Hs) as Hpt.
  destruct (seal_bytes Hauth iv _ Hiv Hpt) as [Hct Htag].
  destruct (seal_length Hauth iv (Utf8.encode s)) as [Hlct Hltag].
  unfold encryptString. destruct (seal iv (Utf8.encode s)) as [ct tag].
  cbn [fst snd] in *.
  set (raw := (iv ++ tag ++ ct)%list).
  assert (Forall isByte raw) as Hraw by (by repeat apply Forall_app_2).
  assert (length raw = (3 * (9 + m) + 1)%nat) as Hlraw
      by (unfold raw; rewrite !length_app; lia).
  assert (raw ≠ []) as Hne by (intros Heq; rewrite Heq in Hlraw; cbn in Hlraw; lia).
  destruct (exists_last Hne) as (front & b & Heq).
  rewrite Heq in Hraw, Hlraw |- *.
  apply Forall_app in Hraw as [Hfront Hb]. apply Forall_cons in Hb as [Hb _].
  rewrite length_app in Hlraw. cbn [length] in Hlraw.
  destruct (decode_flipped_slack_bit front (9 + m) b ltac:(lia) Hfront Hb)
    as (bit & Hdiff & Hsame).
  exists (4 * (9 + m) + 1)%nat, bit. split; [done|].
  unfold decryptString. rewrite Hsame, decode_encode; [done|].
  apply Forall_app_2; [done|by constructor].
Qed.

(** Whatever the cipher: a lone surrogate and U+FFFD have the same token. *)
Lemma encryptString_lone_surrogate (iv : list Z) :
  encryptString iv [55296]%Z = encryptString iv [65533]%Z.
Proof. done. Qed.
End CryptoService.

(* ===================================================================== *)
(** * The cipher of the deployment is authenticated *)
(* ===================================================================== *)

Lemma lxor_involutive a x : Z.lxor a (Z.lxor a x) = x.
Proof. by rewrite <- Z.lxor_assoc, Z.lxor_nilpotent, Z.lxor_0_l. Qed.

Lemma lxor_cancel_l a x y : Z.lxor a x = Z.lxor a y → x = y.
Proof. intros Heq. by rewrite <- (lxor_involutive a x), Heq, lxor_involutive. Qed.

Lemma lxor_cancel_r a x y : Z.lxor x a = Z.lxor y a → x = y.
Proof. rewrite (Z.lxor_comm x), (Z.lxor_comm y). apply lxor_cancel_l. Qed.

Lemma lxor_bit_neq b bit : (0 ≤ bit)%Z → Z.lxor b (2 ^ bit) ≠ b.
Proof.
  intros Hbit Heq. rewrite <- (Z.lxor_0_r b) in Heq at 2.
  apply lxor_cancel_l in Heq. pose proof (Z.pow_pos_nonneg 2 bit). lia.
Qed.

Lemma flipped_neq l l' : flipped l l' → l' ≠ l.
Proof.
  induction 1 as [bit b rest Hbit|b l l' _ IH]; intros [=]; [|done].
  by apply (lxor_bit_neq b bit); [lia|].
Qed.

Lemma flipped_xorFold l l' : flipped l l' → Deployment.xorFold l' ≠ Deployment.xorFold l.
Proof.
  induction 1 as [bit b rest Hbit|b l l' _ IH]; cbn [Deployment.xorFold List.fold_right].
  - intros Heq. apply lxor_cancel_r in Heq. by apply (lxor_bit_neq b bit); [lia|].
  - intros Heq. by apply lxor_cancel_l in Heq.
Qed.

Lemma flipped_app_l l l' tail : flipped l l' → flipped (l ++ tail) (l' ++ tail).
Proof. induction 1; cbn; by constructor. Qed.

Lemma flipped_app_r head l l' : flipped l l' → flipped (head ++ l) (head ++ l').
Proof. intros Hf. induction head; cbn; [done|by constructor]. Qed.

Lemma flipped_app_inv a a' b b' :
  length a' = length a → flipped (a ++ b) (a' ++ b') →
  (flipped a a' ∧ b' = b) ∨ (a' = a ∧ flipped b b').
Proof.
  revert a'. induction a as [|x a IH]; intros [|x' a'] Hlen Hf; try done.
  - by right.
  - cbn in Hf, Hlen. inversion Hf as [bit ? ? Hbit|? ? ? Hf']; subst.
    + left.
      match goal with
      | Heq : (a ++ b)%list = (a' ++ b')%list |- _ =>
          symmetry in Heq; apply app_inj_1 in Heq as [-> ->]; [|congruence]
      end.
      split; [by constructor|done].
    + destruct (IH a' ltac:(congruence) Hf') as [[? ->]|[-> ?]].
      * left. split; [by constructor|done].
      * by right.
Qed.

Lemma xorFold_byte l : Forall isByte l → isByte (Deployment.xorFold l).
Proof.
  induction 1 as [|b l Hb _ IH]; cbn [Deployment.xorFold List.fold_right].
  - unfold isByte. lia.
  - by apply lxor_byte.
Qed.

Lemma mask_bytes pt : Forall isByte pt → Forall isByte (List.map (Z.lxor 90) pt).
Proof.
  induction 1; cbn [List.map]; constructor; [|done].
  apply lxor_byte; [unfold isByte; lia|done].
Qed.

Lemma Deployment_cipher_authenticated : Authenticated (H := Deployment.cipher).
Proof.
  split.
  - intros iv pt Hiv Hpt. cbn [seal Deployment.cipher fst snd].
    split; [by apply mask_bytes|].
    unfold Deployment.tagOf. apply Forall_cons_2.
    + apply xorFold_byte, Forall_app_2; [done|by apply mask_bytes].
    + repeat constructor; unfold isByte; lia.
  - intros iv pt. cbn [seal Deployment.cipher fst snd].
    by rewrite length_map.
  - intros iv pt _. cbn [seal open Deployment.cipher fst snd].
    rewrite decide_True by done. f_equal.
    induction pt as [|b pt IH]; cbn [List.map]; [done|].
    by rewrite lxor_involutive, IH.
  - intros iv pt iv' tag' ct' _ _ Hliv Hltag Hf.
    cbn [seal open Deployment.cipher fst snd] in Hf |- *.
    set (ct := List.map (Z.lxor 90) pt) in *.
    assert (length (Deployment.tagOf iv ct) = 16%nat) as Hlt by done.
    apply flipped_app_inv in Hf as [[Hf Heq]|[-> Hf]]; [| |done].
    + apply app_inj_1 in Heq as [-> ->]; [|congruence].
      rewrite decide_False; [done|].
      unfold Deployment.tagOf. intros [= Heq].
      by apply (flipped_xorFold _ _ (flipped_app_l _ _ ct Hf)).
    + apply flipped_app_inv in Hf as [[Hf ->]|[-> Hf]]; [| |congruence].
      * rewrite decide_False; [done|]. by apply flipped_neq.
      * rewrite decide_False; [done|].
        unfold Deployment.tagOf. intros [= Heq].
        by apply (flipped_xorFold _ _ (flipped_app_r iv _ _ Hf)).
Qed.

(** C3 as the code has it, on the deployment's cipher, the nonce 1, ..., 12
    and the string "hi". *)
Lemma decryptString_encryptString_witness :
  CryptoService.encryptString Deployment.iv [104; 105]%Z
  = Base64.encode (Deployment.iv ++ (seal Deployment.iv (Utf8.encode [104; 105]%Z)).2
                     ++ (seal Deployment.iv (Utf8.encode [104; 105]%Z)).1)
  ∧ (Utf8.wellFormed [104; 105]%Z = true →
     CryptoService.decryptString (CryptoService.encryptString Deployment.iv [104; 105]%Z)
     = Ok [104; 105]%Z)
  ∧ (∀ raw',
       flipped (Deployment.iv ++ (seal Deployment.iv (Utf8.encode [104; 105]%Z)).2
                  ++ (seal Deployment.iv (Utf8.encode [104; 105]%Z)).1) raw' →
       CryptoService.decryptString (Base64.encode raw')
       = Throw (CryptoError "Unsupported state or unable to authenticate data")).
Proof.
  apply decryptString_encryptString.
  - apply Deployment_cipher_authenticated.
  - reflexivity.
  - unfold Deployment.iv, isByte. repeat constructor; lia.
  - unfold isCodeUnit. repeat constructor; lia.
Defined.

(** C3 does not hold as the specification states it; here on the deployment's
    cipher and the nonce 1, ..., 12.  In the token of the empty string the
    character at position 37, the last before the padding, holds two bits of
    data; with its bit 1 flipped the token is another one, and
    [decryptString] still returns the empty string.  And the string that is
    one lone high surrogate (U+D800) comes back as U+FFFD. *)
Lemma decryptString_accepts_a_flipped_bit :
  flipBitAt 37 1 (CryptoService.encryptString Deployment.iv [])
  ≠ CryptoService.encryptString Deployment.iv []
  ∧ CryptoService.decryptString
      (flipBitAt 37 1 (CryptoService.encryptString Deployment.iv [])) = Ok []
  ∧ CryptoService.decryptString (CryptoService.encryptString Deployment.iv [55296]%Z)
    = Ok [65533]%Z.
Proof. split; [|split]; vm_compute; [discriminate|reflexivity|reflexivity]. Qed.

Example token_of_the_empty_string :
  CryptoService.encryptString Deployment.iv [] = "AQIDBAUGBwgJCgsMDAAAAAAAAAAAAAAAAAAAAA=="
  ∧ flipBitAt 37 1 (CryptoService.encryptString Deployment.iv [])
    = "AQIDBAUGBwgJCgsMDAAAAAAAAAAAAAAAAAAAAC==".
Proof. split; vm_compute; reflexivity. Qed.

(* ===================================================================== *)
(** * The authorization guard and the lookup of the grant set *)
(* ===================================================================== *)

Section AuthorizationGuardProperties.
Import UserAuthorizationCredentialsModel.
Variable getUserAuthorizationCredentials : string → Result t.

(** The resolver answers with a boolean that says whether the grant set
    grants the requirement. *)
Lemma hasPermission_decides (userId : string) (g : t) (required : list Permission) :
  getUserAuthorizationCredentials userId = Ok g →
  ∃ b, AuthorizationService.hasPermission getUserAuthorizationCredentials userId required = Ok b
       ∧ (b = true ↔ GrantSet.grants g required).
Proof.
  intros Hg. destruct (decide (required = [])) as [->|Hne].
  { exists true. split; [done|]. split; [by left|done]. }
  rewrite (hasPermission_nonempty _ userId g required Hne Hg).
  unfold GrantSet.grants.
  destruct (truthyFlag (administratorAccess g)) eqn:Hadm.
  { apply (proj1 (truthyFlag_true _)) in Hadm. exists true. split; [done|].
    split; [by right; left|done]. }
  assert (administratorAccess g ≠ Some true) as Hnadm.
  { intros Heq. apply (proj2 (truthyFlag_true _)) in Heq. congruence. }
  destruct (existsb _ required) eqn:Hex.
  - exists false. split; [done|]. split; [done|].
    intros [?|[?|[Hno _]]]; [done|done|].
    pose proof (proj2 (existsb_excluded _ _ _) Hno). congruence.
  - pose proof (proj1 (existsb_excluded _ _ _) Hex) as Hno.
    eexists. split; [reflexivity|]. rewrite forallb_effective. split.
    + intros Hall. right; right. split; [done|].
      intros p Hp. apply (proj1 (elem_of_effective getUserAuthorizationCredentials g p)). by apply Hall.
    + intros [?|[?|[_ Hall]]]; [done|done|].
      intros p Hp. apply (proj2 (elem_of_effective getUserAuthorizationCredentials g p)). by apply Hall.
Qed.

(** X1. The authorization guard lets a request pass exactly when the grant
    set of the request's user grants the permissions required: it resolves
    to [true] then, and throws FORBIDDEN (403) otherwise.  It never resolves
    to [false], whatever the request carries. *)
Theorem AuthorizationGuard_passes_what_is_granted (user : UserModel.t) (g : t)
    (required : list Permission) :
  getUserAuthorizationCredentials (UserModel.id user) = Ok g →
  (GrantSet.grants g required →
   AuthorizationGuard.canActivate getUserAuthorizationCredentials (Some user) (Some required)
   = Ok true)
  ∧ (¬ GrantSet.grants g required →
     AuthorizationGuard.canActivate getUserAuthorizationCredentials (Some user) (Some required)
     = Throw (HttpException "FORBIDDEN" FORBIDDEN))
  ∧ (∀ request_user requiredPermissions,
       AuthorizationGuard.canActivate getUserAuthorizationCredentials
         request_user requiredPermissions ≠ Ok false).
Proof.
  intros Hg.
  destruct (hasPermission_decides (UserModel.id user) g required Hg) as (b & Hb & Hiff).
  unfold AuthorizationGuard.canActivate. rewrite Hb. cbn [mbind Result_bind bind].
  split; [|split].
  - intros Hgr. apply (proj2 Hiff) in Hgr. by subst b.
  - intros Hno. destruct b; [|done]. by destruct Hno; apply Hiff.
  - intros [u|] [perms|]; try done.
    destruct (AuthorizationService.hasPermission _ (UserModel.id u) perms) as [[|]|];
      cbn [mbind Result_bind bind negb]; done.
Qed.
End AuthorizationGuardProperties.

(** X1, on the grant set of the deployment: B is granted, A is vetoed. *)
Lemma AuthorizationGuard_passes_what_is_granted_witness :
  AuthorizationGuard.canActivate Deployment.lookup (Some Deployment.aliceModel) (Some ["B"])
  = Ok true
  ∧ AuthorizationGuard.canActivate Deployment.lookup (Some Deployment.aliceModel) (Some ["A"])
    = Throw (HttpException "FORBIDDEN" FORBIDDEN).
Proof.
  split.
  - apply (proj1 (AuthorizationGuard_passes_what_is_granted Deployment.lookup
                    Deployment.aliceModel Deployment.grantSet ["B"] eq_refl)).
    right; right. split.
    + intros p Hp. apply list_elem_of_singleton in Hp as ->. vm_compute. split; set_solver.
    + intros p Hp. apply list_elem_of_singleton in Hp as ->. vm_compute. set_solver.
  - apply (proj1 (proj2 (AuthorizationGuard_passes_what_is_granted Deployment.lookup
                           Deployment.aliceModel Deployment.grantSet ["A"] eq_refl))).
    intros [?|[?|[Hno _]]]; [done|done|].
    destruct (Hno "A" ltac:(by left)) as [_ Hn]. apply Hn. vm_compute. set_solver.
Defined.

Lemma run_getUserAuthorizationCredentials now userId db :
  run now (IdentityAuthorization.getUserAuthorizationCredentials userId) db =
  (match visibleUser db userId with
   | None => Throw (TypeError "Cannot read properties of null (reading 'populate')")
   | Some doc =>
       if bool_decide (UserEntity.roles doc = [])
       then Ok {| UserAuthorizationCredentialsModel.roles := [];
                  UserAuthorizationCredentialsModel.includedPermissions :=
                    list_to_set (UserEntity.includedPermissions doc);
                  UserAuthorizationCredentialsModel.excludedPermissions :=
                    list_to_set (UserEntity.excludedPermissions doc);
                  UserAuthorizationCredentialsModel.administratorAccess := None |}
       else Throw (HttpException "toAuthorizationCredentialsModel requires populated roles"
                     INTERNAL_SERVER_ERROR)
   end, db).
Proof.
  unfold IdentityAuthorization.getUserAuthorizationCredentials,
    UserRepositoryService.findUserAuthorizationCredentialsById, visibleUser.
  cbn [run mbind Async_mbind Async_bind await execQuery].
  destruct (List.find _ (users db)) as [doc|]; [|done].
  unfold UserDocument.toAuthorizationCredentialsModel, UserDocument.projected.
  cbn [UserDocument.roles UserDocument.rolesLength UserDocument.everyObjectId
       UserDocument.roleModels UserDocument.includedPermissions
       UserDocument.excludedPermissions UserDocument.administratorAccess].
  destruct (UserEntity.roles doc) as [|r rs]; [done|].
  rewrite bool_decide_eq_false_2 by done.
  assert (forallb (fun _ : string => true) (r :: rs) = true) as ->.
  { by apply forallb_forall. }
  cbn [length]. rewrite Nat2Z.inj_succ.
  destruct (Z.ltb_spec 0 (Z.succ (Z.of_nat (length rs)))); [done|lia].
Qed.

(** X2. The grant set the identity service hands to the resolver never
    carries a role and never carries the administrator flag: it is returned
    only for a user without roles, with the user's own inclusions and
    exclusions.  A user with at least one role makes the lookup fail with
    status 500, and a missing user makes it fail with a TypeError; the
    rejection USER_NOT_FOUND is never produced.  The database is only
    read. *)
Theorem getUserAuthorizationCredentials_outcomes now userId db :
  (∀ g db',
     run now (IdentityAuthorization.getUserAuthorizationCredentials userId) db = (Ok g, db') →
     UserAuthorizationCredentialsModel.roles g = []
     ∧ UserAuthorizationCredentialsModel.administratorAccess g = None
     ∧ ∃ doc, visibleUser db userId = Some doc ∧ UserEntity.roles doc = []
              ∧ UserAuthorizationCredentialsModel.includedPermissions g
                = list_to_set (UserEntity.includedPermissions doc)
              ∧ UserAuthorizationCredentialsModel.excludedPermissions g
                = list_to_set (UserEntity.excludedPermissions doc))
  ∧ (∀ doc, visibleUser db userId = Some doc → UserEntity.roles doc ≠ [] →
       (run now (IdentityAuthorization.getUserAuthorizationCredentials userId) db).1
       = Throw (HttpException "toAuthorizationCredentialsModel requires populated roles"
                  INTERNAL_SERVER_ERROR))
  ∧ (∀ status,
       (run now (IdentityAuthorization.getUserAuthorizationCredentials userId) db).1
       ≠ Throw (HttpException "USER_NOT_FOUND" status))
  ∧ (run now (IdentityAuthorization.getUserAuthorizationCredentials userId) db).2 = db.
Proof.
  rewrite run_getUserAuthorizationCredentials.
  destruct (visibleUser db userId) as [doc|]; cbn [fst snd].
  - case_bool_decide as Hroles.
    + split; [|split; [|split]]; try done.
      * intros g db' [= <- <-]. cbn. split; [done|]. split; [done|]. by exists doc.
      * intros ? [= <-] ?. done.
    + split; [|split; [|split]]; try done.
  - split; [|split; [|split]]; done.
Qed.

Section OverTheRepository.
Import UserAuthorizationCredentialsModel.

(** X3. The resolver over the repository's lookup, for a requirement that is
    not empty: it resolves to [true] exactly when the user is found, has no
    role, and has every required permission among the user's own inclusions
    and none among the user's own exclusions.  Neither a role nor the
    [administratorAccess] flag of the stored document ever grants anything:
    for a user with a role the call is rejected with status 500. *)
Theorem hasPermission_over_the_repository now db userId (required : list Permission) :
  required ≠ [] →
  (AuthorizationService.hasPermission (authorizationCredentialsIn now db) userId required
   = Ok true
   ↔ ∃ doc, visibleUser db userId = Some doc
            ∧ UserEntity.roles doc = []
            ∧ ∀ p, p ∈ required → p ∈ UserEntity.includedPermissions doc
                                  ∧ p ∉ UserEntity.excludedPermissions doc)
  ∧ (∀ doc, visibleUser db userId = Some doc → UserEntity.roles doc ≠ [] →
       AuthorizationService.hasPermission (authorizationCredentialsIn now db) userId required
       = Throw (HttpException "toAuthorizationCredentialsModel requires populated roles"
                  INTERNAL_SERVER_ERROR)).
Proof.
  intros Hne.
  assert (∀ e, authorizationCredentialsIn now db userId = Throw e →
               AuthorizationService.hasPermission (authorizationCredentialsIn now db)
                 userId required = Throw e) as Hthrow.
  { intros e He. unfold AuthorizationService.hasPermission.
    destruct required as [|q required]; [done|].
    cbn [length]. rewrite Nat2Z.inj_succ.
    destruct (Z.eqb_spec (Z.succ (Z.of_nat (length required))) 0) as [Hz|_]; [lia|].
    by rewrite He. }
  assert (authorizationCredentialsIn now db userId
          = (run now (IdentityAuthorization.getUserAuthorizationCredentials userId) db).1)
    as Hin by done.
  rewrite run_getUserAuthorizationCredentials in Hin. cbn [fst] in Hin.
  destruct (visibleUser db userId) as [doc|] eqn:Hdoc.
  - case_bool_decide as Hroles.
    + set (g := {| roles := []; includedPermissions := _ |}) in Hin.
      destruct (hasPermission_decides _ userId g required Hin) as (b & Hb & Hiff).
      rewrite Hb. split; [|by intros ? [= <-] ?]. split.
      * intros [= ->]. destruct (proj1 Hiff eq_refl) as [?|[?|[Hno Hall]]]; [done|done|].
        exists doc. split; [done|]. split; [done|].
        intros p Hp. specialize (Hno p Hp) as [Hno _]. specialize (Hall p Hp).
        unfold GrantSet.effective, GrantSet.roleIncluded, GrantSet.roleExcluded in Hall.
        cbn in Hall, Hno. set_solver.
      * intros (doc' & [= <-] & _ & Hall). f_equal. apply Hiff. right; right. split.
        -- intros p Hp. destruct (Hall p Hp) as [_ Hn]. cbn. split; set_solver.
        -- intros p Hp. destruct (Hall p Hp) as [Hi Hn].
           unfold GrantSet.effective. cbn. set_solver.
    + rewrite (Hthrow _ Hin). split; [|done]. split; [done|].
      intros (doc' & [= <-] & ? & _). done.
  - rewrite (Hthrow _ Hin). split; [|done]. split; [done|].
    intros (doc' & ? & _). done.
Qed.
End OverTheRepository.

(* ===================================================================== *)
(** * The session between sign-in, the guard, refresh and sign-out *)
(* ===================================================================== *)

Lemma split_spaceless (s : string) : spaceless s = true → split " " s = [s].
Proof.
  induction s as [|c s IH]; [done|]. cbn [spaceless split].
  intros [Hc Hs]%andb_true_iff. apply negb_true_iff in Hc. rewrite Hc.
  by rewrite (IH Hs).
Qed.

Lemma split_Bearer (token : string) :
  spaceless token = true → split " " ("Bearer " ++ token) = ["Bearer"; token].
Proof.
  intros Hs. rewrite !append_String.
  change ("" ++ token)%string with token.
  cbn [split Ascii.eqb Bool.eqb]. by rewrite (split_spaceless token Hs).
Qed.

Section Session.
Context `{Collaborators}.
Import AuthenticationService.

(** What the guard extracts from a request that presents credentials. *)
Lemma presenting_extracts (encryptedAccessToken encryptedSessionId accessToken sessionId : string) :
  spaceless encryptedAccessToken = true → encryptedSessionId ≠ "" →
  decrypt encryptedAccessToken = Some accessToken →
  decrypt encryptedSessionId = Some sessionId →
  AuthenticationGuard.getAccessToken
    (Request.authorization (presenting encryptedAccessToken encryptedSessionId)) = Ok accessToken
  ∧ AuthenticationGuard.getSessionId
      (Request.sessionIdCookie (presenting encryptedAccessToken encryptedSessionId))
    = Ok sessionId.
Proof.
  intros Hs Hne Ha Hid. split.
  - cbn [presenting Request.authorization].
    rewrite (getAccessToken_of_raw _ ("Bearer " ++ encryptedAccessToken))
      by (left; done).
    rewrite (split_Bearer _ Hs). rewrite bool_decide_eq_false_2 by (intros Hn; by apply Hn).
    unfold decryptString. by rewrite Ha.
  - cbn [presenting Request.sessionIdCookie]. unfold AuthenticationGuard.getSessionId.
    rewrite (proj2 (orThrow_Ok (Some encryptedSessionId) _ encryptedSessionId)) by done.
    cbn [mbind Result_bind bind]. unfold decryptString. by rewrite Hid.
Qed.

(** The session a fulfilled sign-in stored and the credentials it returned. *)
Lemma signIn_issued now oid nonces m db creds db' :
  run now (signIn now oid nonces m) db = (Ok creds, db') →
  let user := AuthenticationCredentialsModel.user creds in
  let accessToken := generateAccessToken now user in
  let refreshToken := generateRefreshToken now user accessToken in
  creds = generateAuthenticationCredentialsModel nonces user accessToken refreshToken oid
  ∧ sessions db' =
    <[oid := newSessionDocument now
               (CreateSessionModel.requestToSessionModel now (UserModel.id user)
                  (SignInModel.ipAddress m) (SignInModel.userAgent m)
                  (SignInModel.platform m) accessToken refreshToken sessionCookieOptions)]>
      (withoutSessionsOf (UserModel.id user) (SignInModel.platform m) db)
  ∧ users db' = users db.
Proof.
  intros Hrun. unfold signIn in Hrun.
  rewrite run_bind, run_getUserByCredentials in Hrun.
  destruct (List.filter _ (users db)) as [|userDoc ?]; [done|].
  destruct (bcryptCompare _ _); [|done]. cbn [negb] in Hrun.
  rewrite run_bind, run_getUserById in Hrun.
  destruct (List.find _ (users db)) as [userDoc'|]; [|done].
  rewrite run_bind, run_invalidateOtherSessions, run_bind, run_createSession in Hrun.
  cbn [sessions users] in Hrun.
  destruct (withoutSessionsOf _ _ db !! oid) eqn:Hfresh; [done|].
  cbn in Hrun. injection Hrun as <- <-. done.
Qed.

Lemma visibleSession_signIn now oid nonces m db creds db' :
  run now (signIn now oid nonces m) db = (Ok creds, db') →
  let user := AuthenticationCredentialsModel.user creds in
  let accessToken := generateAccessToken now user in
  let refreshToken := generateRefreshToken now user accessToken in
  visibleSession db' oid =
  Some (newSessionDocument now
          (CreateSessionModel.requestToSessionModel now (UserModel.id user)
             (SignInModel.ipAddress m) (SignInModel.userAgent m)
             (SignInModel.platform m) accessToken refreshToken sessionCookieOptions)).
Proof.
  intros Hrun. destruct (signIn_issued _ _ _ _ _ _ _ Hrun) as (_ & Hdb & _).
  unfold visibleSession. cbn zeta in Hdb. rewrite Hdb, lookup_insert_eq. done.
Qed.

(** X4. The session a sign-in at [now] creates is taken by [verifySession]
    up to and including the second [now + maxAge / 1000] of the session
    cookie, and rejected with SESSION_NOT_FOUND from the next second on;
    the session verified starts at [now], ends at that second, and belongs
    to the user and the platform of the sign-in.  [verifySession] leaves the
    database as it is. *)
Theorem signIn_session_window now oid nonces m db creds db' (t : Z) :
  run now (signIn now oid nonces m) db = (Ok creds, db') →
  ((t ≤ now + sessionMaxAge / 1000)%Z →
   ∃ session,
     run t (verifySession t oid) db' = (Ok session, db')
     ∧ SessionModel.id session = oid
     ∧ SessionModel.startedAt session = now
     ∧ SessionModel.endsAt session = now + sessionMaxAge / 1000
     ∧ SessionModel.user session = UserModel.id (AuthenticationCredentialsModel.user creds)
     ∧ SessionModel.platform session = SignInModel.platform m
     ∧ SessionModel.deletedAt session = None)
  ∧ ((now + sessionMaxAge / 1000 < t)%Z →
     run t (verifySession t oid) db'
     = (Throw (HttpException "SESSION_NOT_FOUND" UNAUTHORIZED), db')).
Proof.
  intros Hrun. pose proof (visibleSession_signIn _ _ _ _ _ _ _ Hrun) as Hdoc.
  cbn zeta in Hdoc. unfold verifySession.
  rewrite run_bind, run_getSessionById, Hdoc.
  cbn [fmap option_fmap option_map SessionEntity.toModel SessionModel.endsAt
       newSessionDocument SessionEntity.endsAt CreateSessionModel.endsAt
       CreateSessionModel.requestToSessionModel sessionCookieOptions CookieOptions.maxAge].
  split.
  - intros Ht. destruct (Z.ltb_spec (now + sessionMaxAge / 1000) t) as [?|_]; [lia|].
    eexists. split; [reflexivity|]. done.
  - intros Ht. by destruct (Z.ltb_spec (now + sessionMaxAge / 1000) t) as [_|?]; [|lia].
Qed.

(** X5. The credentials a sign-in returns pass the guard.  When the
    encrypted access token and session id it returned decrypt to what was
    encrypted, and the encrypted access token has no space in it, a request
    that presents them is admitted at every time [t] within the session
    window at which the access token verifies, and the request then carries
    the user of the token's payload. *)
Theorem signIn_credentials_pass_canActivate now oid nonces m db creds db' (t : Z)
    (payload : JwtPayload.t) :
  run now (signIn now oid nonces m) db = (Ok creds, db') →
  decrypt (AuthenticationCredentialsModel.accessToken creds)
  = Some (generateAccessToken now (AuthenticationCredentialsModel.user creds)) →
  decrypt (AuthenticationCredentialsModel.sessionId creds) = Some oid →
  spaceless (AuthenticationCredentialsModel.accessToken creds) = true →
  AuthenticationCredentialsModel.sessionId creds ≠ "" →
  (t ≤ now + sessionMaxAge / 1000)%Z →
  jwtVerify (generateAccessToken now (AuthenticationCredentialsModel.user creds)) t
  = inl payload →
  let request := presenting (AuthenticationCredentialsModel.accessToken creds)
                            (AuthenticationCredentialsModel.sessionId creds) in
  run t (AuthenticationGuard.canActivate t request) db'
  = (Ok (true, Request.mk (Request.authorization request)
                          (Request.sessionIdCookie request)
                          (Some (JwtPayload.user payload))), db').
Proof.
  intros Hrun Ha Hid Hs Hne Ht Hver request.
  destruct (presenting_extracts _ _ _ _ Hs Hne Ha Hid) as [Hat Hsid].
  rewrite (run_canActivate t request db' _ _ Hat Hsid).
  rewrite (visibleSession_signIn _ _ _ _ _ _ _ Hrun).
  cbn [newSessionDocument SessionEntity.endsAt SessionEntity.accessToken
       CreateSessionModel.endsAt CreateSessionModel.accessToken
       CreateSessionModel.requestToSessionModel sessionCookieOptions CookieOptions.maxAge].
  destruct (Z.ltb_spec (now + sessionMaxAge / 1000) t) as [?|_]; [lia|].
  rewrite bool_decide_eq_false_2 by (intros Hn; by apply Hn).
  by rewrite Hver.
Qed.

(** X6. A [refresh] that is rejected has written nothing: whatever the
    request and whatever the reason, the database is as it was. *)
Theorem refresh_rejected_writes_nothing now nonces req db e db' :
  run now (refresh now nonces req) db = (Throw e, db') → db' = db.
Proof.
  intros Hrun. unfold refresh in Hrun.
  run_inversion Hrun; first [discriminate Hrun | by injection Hrun as _ <-].
Qed.

(** X7. The guard only reads: whatever the request, whether it is admitted
    or rejected, the database after [canActivate] is the database before it.
    No token is rotated and no session is touched by a verification. *)
Theorem canActivate_only_reads now request db :
  (run now (AuthenticationGuard.canActivate now request) db).2 = db.
Proof.
  destruct (AuthenticationGuard.getAccessToken (Request.authorization request))
    as [accessToken|e] eqn:Ha.
  - destruct (AuthenticationGuard.getSessionId (Request.sessionIdCookie request))
      as [sessionId|e] eqn:Hs.
    + by rewrite (run_canActivate _ _ _ _ _ Ha Hs).
    + unfold AuthenticationGuard.canActivate. rewrite Ha, Hs.
      by rewrite run_bind, run_lift, run_bind, run_lift.
  - unfold AuthenticationGuard.canActivate. rewrite Ha.
    by rewrite run_bind, run_lift.
Qed.

(** X8. After a successful [refresh], the guard rejects the superseded
    access token and admits the new one.  A request for the same session
    whose Bearer token decrypts to the access token the refresh was called
    with is rejected with INVALID_ACCESS_TOKEN as soon as the token issued
    differs from it; a request that presents the credentials returned is
    admitted while the session is within its window and the new access
    token verifies. *)
Theorem refresh_supersedes_at_canActivate now nonces req db creds db' :
  run now (refresh now nonces req) db = (Ok creds, db') →
  ∃ sessionId doc doc',
    (∃ e, RefreshSessionModel.sessionId req = Some e ∧ decrypt e = Some sessionId)
    ∧ visibleSession db sessionId = Some doc
    ∧ visibleSession db' sessionId = Some doc'
    ∧ SessionEntity.endsAt doc' = SessionEntity.endsAt doc
    ∧ (∀ t request,
         AuthenticationGuard.getAccessToken (Request.authorization request)
         = Ok (SessionEntity.accessToken doc) →
         AuthenticationGuard.getSessionId (Request.sessionIdCookie request) = Ok sessionId →
         SessionEntity.accessToken doc' ≠ SessionEntity.accessToken doc →
         ¬ (SessionEntity.endsAt doc < t)%Z →
         run t (AuthenticationGuard.canActivate t request) db'
         = (Throw (HttpException "INVALID_ACCESS_TOKEN" UNAUTHORIZED), db'))
    ∧ (∀ t payload,
         decrypt (AuthenticationCredentialsModel.accessToken creds)
         = Some (SessionEntity.accessToken doc') →
         decrypt (AuthenticationCredentialsModel.sessionId creds) = Some sessionId →
         spaceless (AuthenticationCredentialsModel.accessToken creds) = true →
         AuthenticationCredentialsModel.sessionId creds ≠ "" →
         ¬ (SessionEntity.endsAt doc < t)%Z →
         jwtVerify (SessionEntity.accessToken doc') t = inl payload →
         ∃ request',
           run t (AuthenticationGuard.canActivate t
                    (presenting (AuthenticationCredentialsModel.accessToken creds)
                                (AuthenticationCredentialsModel.sessionId creds))) db'
           = (Ok (true, request'), db')
           ∧ Request.user request' = Some (JwtPayload.user payload)).
Proof.
  intros Hrun.
  apply refresh_fulfilled in Hrun as (sessionId & doc & decoded & Hacc & -> & ->).
  destruct Hacc as [[Hp Hdoc Hwin] _ _].
  pose proof (visibleSession_updated now sessionId
                (SetTokens (newAccessToken now decoded) (newRefreshToken now decoded))
                db doc Hdoc) as Hdoc'.
  fold (rotated now sessionId decoded db) in Hdoc'.
  exists sessionId, doc. eexists.
  split; [by destruct Hp as [(e & He & _ & Hd) _ _]; exists e|].
  split; [done|]. split; [exact Hdoc'|].
  split; [done|]. split.
  - intros t request Ha Hs Hne Ht.
    rewrite (run_canActivate _ _ _ _ _ Ha Hs), Hdoc'.
    cbn [applySessionUpdate SessionEntity.endsAt SessionEntity.accessToken] in Hne |- *.
    destruct (Z.ltb_spec (SessionEntity.endsAt doc) t) as [?|_]; [done|].
    by rewrite bool_decide_eq_true_2.
  - intros t payload Ha Hid Hs Hne Ht Hver.
    destruct (presenting_extracts _ _ _ _ Hs Hne Ha Hid) as [Hat Hsid].
    rewrite (run_canActivate _ _ _ _ _ Hat Hsid), Hdoc'.
    cbn [applySessionUpdate SessionEntity.endsAt SessionEntity.accessToken] in Hver |- *.
    destruct (Z.ltb_spec (SessionEntity.endsAt doc) t) as [?|_]; [done|].
    rewrite bool_decide_eq_false_2 by (intros Hn; by apply Hn).
    rewrite Hver. by eexists.
Qed.

(** X9. A request that names a session the lookup does not find is rejected
    by the guard with a TypeError, not with an HttpException: the guard reads
    [endsAt] of what the lookup returned without testing it for null.  This
    is what a client meets that still presents the session a later sign-in
    of the same user on the same platform has deleted. *)
Theorem canActivate_without_session now request db accessToken sessionId :
  AuthenticationGuard.getAccessToken (Request.authorization request) = Ok accessToken →
  AuthenticationGuard.getSessionId (Request.sessionIdCookie request) = Ok sessionId →
  (visibleSession db sessionId = None →
   run now (AuthenticationGuard.canActivate now request) db
   = (Throw (TypeError "Cannot read properties of null (reading 'endsAt')"), db))
  ∧ (∀ now' oid nonces m creds db' doc,
       run now' (signIn now' oid nonces m) db = (Ok creds, db') →
       sessions db !! sessionId = Some doc → sessionId ≠ oid →
       SessionEntity.user doc = UserModel.id (AuthenticationCredentialsModel.user creds) →
       SessionEntity.platform doc = SignInModel.platform m →
       run now (AuthenticationGuard.canActivate now request) db'
       = (Throw (TypeError "Cannot read properties of null (reading 'endsAt')"), db')).
Proof.
  intros Ha Hs.
  assert (∀ db, visibleSession db sessionId = None →
                run now (AuthenticationGuard.canActivate now request) db
                = (Throw (TypeError "Cannot read properties of null (reading 'endsAt')"), db))
    as Hnone.
  { intros db0 Hno. by rewrite (run_canActivate _ _ _ _ _ Ha Hs), Hno. }
  split; [apply Hnone|].
  intros now' oid nonces m creds db' doc Hrun Hdoc Hoid Huser Hplatform.
  apply Hnone. destruct (signIn_issued _ _ _ _ _ _ _ Hrun) as (_ & Hdb & _).
  cbn zeta in Hdb. unfold visibleSession. rewrite Hdb.
  rewrite lookup_insert_ne by done.
  unfold withoutSessionsOf.
  rewrite (proj2 (map_lookup_filter_None _ _ _)); [done|].
  right. intros doc0 Hdoc0. rewrite Hdoc in Hdoc0. injection Hdoc0 as <-.
  cbn. intros Hnot. by apply Hnot.
Qed.

(** X10. With the soft-delete filter as the MongoDB notes give it, a
    sign-out does not change what the guard answers: [signOut] sets
    [deletedAt] (and the [updatedAt] stamp) of the session and nothing the
    guard reads, so after a successful sign-out every request gets from
    [canActivate], at every time, the answer it would have got without the
    sign-out; a request that was admitted still is. *)
Theorem signOut_changes_no_verdict now sessionId db db' (t : Z) request :
  run now (signOut now (Some sessionId)) db = (Ok tt, db') →
  (run t (AuthenticationGuard.canActivate t request) db').1
  = (run t (AuthenticationGuard.canActivate t request) db).1.
Proof.
  intros Hrun.
  assert (sessionId ≠ "") as Hne.
  { intros ->. cbn in Hrun. done. }
  rewrite (run_signOut now sessionId db Hne) in Hrun.
  destruct (visibleSession db sessionId) as [doc|] eqn:Hdoc; [|done].
  injection Hrun as <-.
  assert (∀ id, visibleSession (updated now sessionId (SetDeletedAt now) db) id
                = (if bool_decide (id = sessionId)
                   then Some (applySessionUpdate now (SetDeletedAt now) doc)
                   else visibleSession db id)) as Hvis.
  { intros id. case_bool_decide as Hid.
    - subst id. by apply visibleSession_updated.
    - unfold updated. rewrite Hdoc. unfold visibleSession. cbn [sessions].
      by rewrite lookup_insert_ne. }
  destruct (AuthenticationGuard.getAccessToken (Request.authorization request))
    as [accessToken|e] eqn:Ha.
  - destruct (AuthenticationGuard.getSessionId (Request.sessionIdCookie request))
      as [id|e] eqn:Hs.
    + rewrite !(run_canActivate _ _ _ _ _ Ha Hs), Hvis. cbn [fst].
      case_bool_decide as Hid; [|done]. subst id. by rewrite Hdoc.
    + unfold AuthenticationGuard.canActivate. rewrite Ha, Hs.
      by rewrite !run_bind, !run_lift, !run_bind, !run_lift.
  - unfold AuthenticationGuard.canActivate. rewrite Ha.
    by rewrite !run_bind, !run_lift.
Qed.

(** What the guard leaves: the database, and the cookie of the request. *)
Lemma canActivate_leaves now request db result db0 :
  run now (AuthenticationGuard.canActivate now request) db = (result, db0) →
  db0 = db
  ∧ ∀ activated request', result = Ok (activated, request') →
      Request.sessionIdCookie request' = Request.sessionIdCookie request.
Proof.
  destruct (AuthenticationGuard.getAccessToken (Request.authorization request))
    as [accessToken|e] eqn:Ha.
  - destruct (AuthenticationGuard.getSessionId (Request.sessionIdCookie request))
      as [id|e] eqn:Hs.
    + rewrite (run_canActivate _ _ _ _ _ Ha Hs).
      destruct (visibleSession db id) as [doc|]; [|by intros [= <- <-]].
      destruct (SessionEntity.endsAt doc <? now)%Z; [by intros [= <- <-]|].
      destruct (bool_decide _); [by intros [= <- <-]|].
      destruct (jwtVerify accessToken now); intros [= <- <-]; [|done].
      split; [done|]. by intros ? ? [= _ <-].
    + unfold AuthenticationGuard.canActivate. rewrite Ha, Hs.
      rewrite run_bind, run_lift, run_bind, run_lift. by intros [= <- <-].
  - unfold AuthenticationGuard.canActivate. rewrite Ha.
    rewrite run_bind, run_lift. by intros [= <- <-].
Qed.

(** X11. Sign-out through the controller looks the session up under the
    text of the [sessionId] cookie itself, which the guard has decrypted
    for its own lookup only.  When that text is not the id of a session the
    lookup finds, the call is rejected and nothing is written: the session
    the cookie names stays as it was, without a tombstone. *)
Theorem controller_signOut_keeps_the_session now request db cookie :
  Request.sessionIdCookie request = Some cookie →
  visibleSession db cookie = None →
  (∀ a, (run now (AuthenticationController.signOut now request) db).1 ≠ Ok a)
  ∧ (run now (AuthenticationController.signOut now request) db).2 = db.
Proof.
  intros Hcookie Hno. unfold AuthenticationController.signOut.
  rewrite run_bind.
  destruct (run now (AuthenticationGuard.canActivate now request) db)
    as [[[allowed request']|e] db0] eqn:Hguard;
    destruct (canActivate_leaves _ _ _ _ _ Hguard) as [-> Hsame]; [|done].
  destruct allowed; [|done]. rewrite (Hsame _ _ eq_refl), Hcookie.
  destruct (decide (cookie = "")) as [->|Hne]; [done|].
  by rewrite (run_signOut now cookie db Hne), Hno.
Qed.
End Session.

(* ===================================================================== *)
(** * Sign-out with the session cookie *)
(* ===================================================================== *)

Section SignOutRoute.
Context `{Collaborators}.
Import AuthenticationService.

(** C9.  The session cookie holds the session id encrypted, and [signOut]
    gets it as it is: the controller passes the cookie on, and [signOut]
    does not decrypt it, as [refresh] and the guard do.  So for a session
    that is there, named by the cookie, the lookup under the cookie's text
    finds nothing: [signOut] does not resolve and nothing is written, from
    the service and through the route alike; the session keeps its place
    without a tombstone.  Given the id itself, [signOut] resolves and
    stores the second of the call as [deletedAt] of that session, with its
    tokens, window, owner, platform and [isDeleted] as they were. *)
Theorem signOut_of_the_session_cookie now request db cookie sessionId doc :
  Request.sessionIdCookie request = Some cookie →
  decrypt cookie = Some sessionId →
  sessionId ≠ "" →
  visibleSession db sessionId = Some doc →
  visibleSession db cookie = None →
  (∀ a, (run now (signOut now (Some cookie)) db).1 ≠ Ok a)
  ∧ (run now (signOut now (Some cookie)) db).2 = db
  ∧ (∀ a, (run now (AuthenticationController.signOut now request) db).1 ≠ Ok a)
  ∧ (run now (AuthenticationController.signOut now request) db).2 = db
  ∧ ∃ doc',
      run now (signOut now (Some sessionId)) db
      = (Ok tt, mkDatabase (users db) (<[sessionId := doc']> (sessions db)))
      ∧ SessionEntity.deletedAt doc' = Some now
      ∧ SessionEntity.accessToken doc' = SessionEntity.accessToken doc
      ∧ SessionEntity.refreshToken doc' = SessionEntity.refreshToken doc
      ∧ SessionEntity.endsAt doc' = SessionEntity.endsAt doc
      ∧ SessionEntity.user doc' = SessionEntity.user doc
      ∧ SessionEntity.platform doc' = SessionEntity.platform doc
      ∧ SessionEntity.isDeleted doc' = SessionEntity.isDeleted doc.
Proof.
  intros Hcookie Hdecrypt Hid Hdoc Hno.
  assert ((∀ a, (run now (signOut now (Some cookie)) db).1 ≠ Ok a)
          ∧ (run now (signOut now (Some cookie)) db).2 = db) as [Hservice Hkept].
  { destruct (decide (cookie = "")) as [->|Hne]; [done|].
    by rewrite (run_signOut now cookie db Hne), Hno. }
  split; [done|]. split; [done|].
  assert ((∀ a, (run now (AuthenticationController.signOut now request) db).1 ≠ Ok a)
          ∧ (run now (AuthenticationController.signOut now request) db).2 = db) as [? ?].
  { unfold AuthenticationController.signOut. rewrite run_bind.
    destruct (run now (AuthenticationGuard.canActivate now request) db)
      as [[[activated request']|e] db0] eqn:Hguard;
      destruct (canActivate_leaves _ _ _ _ _ Hguard) as [-> Hsame]; [|done].
    destruct activated; [|done].
    by rewrite (Hsame _ _ eq_refl), Hcookie. }
  split; [done|]. split; [done|].
  rewrite (run_signOut now sessionId db Hid), Hdoc. unfold updated. rewrite Hdoc.
  eexists. split; [reflexivity|]. done.
Qed.
End SignOutRoute.

(** C9, on the deployment: the request carries the cookie of s1 as the
    sign-in returned it. *)
Lemma signOut_of_the_session_cookie_witness :
  (∀ a, (run 200 (AuthenticationService.signOut 200 (Some "#s1")) Deployment.db).1 ≠ Ok a)
  ∧ (run 200 (AuthenticationController.signOut 200 (Deployment.request "Bearer #A@100"))
       Deployment.db).2 = Deployment.db
  ∧ ∀ a, (run 200 (AuthenticationController.signOut 200 (Deployment.request "Bearer #A@100"))
            Deployment.db).1 ≠ Ok a.
Proof.
  destruct (@signOut_of_the_session_cookie Deployment.collaborators 200
              (Deployment.request "Bearer #A@100")
              Deployment.db "#s1" "s1" (Deployment.session "A@100" "R@100/A@100" WEB)
              eq_refl eq_refl ltac:(discriminate) ltac:(vm_compute; reflexivity)
              ltac:(vm_compute; reflexivity))
    as (Hservice & _ & Hroute & Hkept & _).
  split; [exact Hservice|]. split; [exact Hkept|exact Hroute].
Defined.

(** On the deployment the guard lets that request pass; it is the sign-out
    behind it that is rejected, and s1 is found as before. *)
Example signOut_of_the_session_cookie_on_the_deployment :
  (run 200 (AuthenticationGuard.canActivate 200 (Deployment.request "Bearer #A@100"))
     Deployment.db).1
  = Ok (true, Request.mk (Some (Single "Bearer #A@100")) (Some "#s1")
                (Some Deployment.aliceModel))
  ∧ visibleSession
      (run 200 (AuthenticationController.signOut 200 (Deployment.request "Bearer #A@100"))
         Deployment.db).2 "s1"
    = Some (Deployment.session "A@100" "R@100/A@100" WEB).
Proof. split; vm_compute; reflexivity. Qed.

(* ===================================================================== *)
(** * The key of the crypto service and the text of its tokens *)
(* ===================================================================== *)

Lemma list_ind4 {A} (P : list A → Prop) :
  P [] → (∀ a, P [a]) → (∀ a b, P [a; b]) → (∀ a b c, P [a; b; c]) →
  (∀ a b c d l, P l → P (a :: b :: c :: d :: l)) →
  ∀ l, P l.
Proof.
  intros H0 H1 H2 H3 H4 l.
  assert (P l ∧ (∀ a, P (a :: l)) ∧ (∀ a b, P (a :: b :: l))
          ∧ (∀ a b c, P (a :: b :: c :: l))) as [? _]; [|done].
  induction l as [|d l (IH0 & IH1 & IH2 & IH3)]; [done|].
  split; [apply IH1|]. split; [intros a; apply IH2|].
  split; [intros a b; apply IH3|].
  intros a b c. by apply H4.
Qed.

(** Every four sextets give three bytes; two or three left over give one or
    two; one left over gives none. *)
Lemma length_decodeSextets (l : list Z) :
  length (Base64.decodeSextets l) = (3 * length l / 4)%nat.
Proof.
  induction l as [|a|a b|a b c|a b c d l IH] using list_ind4; try done.
  cbn [Base64.decodeSextets length]. rewrite IH.
  replace (3 * S (S (S (S (length l)))))%nat with (3 * length l + 3 * 4)%nat by lia.
  rewrite Nat.div_add by done. lia.
Qed.

(** X12. With an algorithm whose name contains 256 (the default,
    aes-256-gcm, among them), the crypto service is constructed exactly for
    a CRYPTO_KEY in which 43 code units read as base64 digits come before
    the first one read as [=], where the decoder reads a code unit by its
    low byte and skips what is then no digit; the key has 32 bytes.  Every
    other key is refused with Invalid CRYPTO_KEY, and a missing or empty one
    with CRYPTO_KEY is not set. *)
Theorem CRYPTO_KEY_of_43_digits (algorithm : option (list Z)) (keyBase64 : list Z) :
  includes (codeUnits "256") (default (codeUnits "aes-256-gcm") algorithm) = true →
  (length (Base64.sextets (lowBytes keyBase64)) = 43%nat →
   CryptoServiceConstructor.construct algorithm (Some keyBase64)
   = inr (default (codeUnits "aes-256-gcm") algorithm, Base64.decode (lowBytes keyBase64))
   ∧ length (Base64.decode (lowBytes keyBase64)) = 32%nat)
  ∧ (length (Base64.sextets (lowBytes keyBase64)) ≠ 43%nat → keyBase64 ≠ [] →
     CryptoServiceConstructor.construct algorithm (Some keyBase64) = inl "Invalid CRYPTO_KEY")
  ∧ CryptoServiceConstructor.construct algorithm (Some []) = inl "CRYPTO_KEY is not set"
  ∧ CryptoServiceConstructor.construct algorithm None = inl "CRYPTO_KEY is not set".
Proof.
  intros H256.
  assert (length (Base64.decode (lowBytes keyBase64)) = 32%nat
          ↔ length (Base64.sextets (lowBytes keyBase64)) = 43%nat) as Hlen.
  { unfold Base64.decode. rewrite length_decodeSextets.
    pose proof (Nat.div_mod_eq (3 * length (Base64.sextets (lowBytes keyBase64))) 4).
    pose proof (Nat.mod_upper_bound (3 * length (Base64.sextets (lowBytes keyBase64))) 4).
    lia. }
  unfold CryptoServiceConstructor.construct.
  split; [|split; [|split]]; try done.
  - intros H43. apply Hlen in H43 as H32.
    destruct keyBase64 as [|u key]; [cbn in H43; lia|].
    rewrite H256, H32. done.
  - intros Hn43 Hne. destruct keyBase64 as [|u key]; [done|].
    rewrite H256. cbn [andb].
    destruct (Nat.eqb_spec (length (Base64.decode (lowBytes (u :: key)))) 32) as [H32|_];
      [|done].
    by apply Hlen in H32.
Qed.

(** X12, for a key of 43 digits and a padding. *)
Lemma CRYPTO_KEY_of_43_digits_witness :
  CryptoServiceConstructor.construct None
    (Some (codeUnits "MDEyMzQ1Njc4OWFiY2RlZjAxMjM0NTY3ODlhYmNkZWY="))
  = inr (codeUnits "aes-256-gcm",
         Base64.decode "MDEyMzQ1Njc4OWFiY2RlZjAxMjM0NTY3ODlhYmNkZWY=")
  ∧ length (Base64.decode "MDEyMzQ1Njc4OWFiY2RlZjAxMjM0NTY3ODlhYmNkZWY=") = 32%nat.
Proof.
  apply (proj1 (CRYPTO_KEY_of_43_digits None
                  (codeUnits "MDEyMzQ1Njc4OWFiY2RlZjAxMjM0NTY3ODlhYmNkZWY=") eq_refl)).
  vm_compute. reflexivity.
Defined.

(** A code unit above 255 counts by its low byte: with U+0144 in the place
    of the last digit, D, the key is the same. *)
Example CRYPTO_KEY_low_bytes :
  CryptoServiceConstructor.construct None
    (Some (codeUnits "MDEyMzQ1Njc4OWFiY2RlZjAxMjM0NTY3ODlhYmNkZW" ++ [324%Z])%list)
  = CryptoServiceConstructor.construct None
      (Some (codeUnits "MDEyMzQ1Njc4OWFiY2RlZjAxMjM0NTY3ODlhYmNkZWD"))
  ∧ ∃ key, CryptoServiceConstructor.construct None
             (Some (codeUnits "MDEyMzQ1Njc4OWFiY2RlZjAxMjM0NTY3ODlhYmNkZW" ++ [324%Z])%list)
           = inr (codeUnits "aes-256-gcm", key).
Proof.
  split; [vm_compute; reflexivity|]. eexists. vm_compute. reflexivity.
Qed.

Section TokenText.
Import Base64.

Lemma isBase64Character_charOf (n : Z) :
  (0 ≤ n < 64)%Z → isBase64Character (charOf n) = true.
Proof.
  intros Hn.
  assert (forallb (fun n => isBase64Character (charOf n)) (seqZ 0 64) = true) as Hall
      by (vm_compute; reflexivity).
  rewrite forallb_forall in Hall. apply Hall.
  rewrite <- list_elem_of_In, elem_of_seqZ. lia.
Qed.

(** The text [toString('base64')] gives for a buffer: four characters of
    the alphabet or paddings for every three bytes begun. *)
Lemma encode_text (bytes : list Z) :
  Forall isByte bytes →
  everyCharacter isBase64Character (encode bytes) = true
  ∧ String.length (encode bytes) = (4 * ((length bytes + 2) / 3))%nat.
Proof.
  unfold isByte.
  induction bytes as [|a|a b|a b c l IH] using list_ind3; intros Hb.
  - done.
  - apply Forall_cons in Hb as [Ha _]. cbn [encode everyCharacter].
    rewrite !isBase64Character_charOf by (Z.div_mod_to_equations; lia). done.
  - apply Forall_cons in Hb as [Ha Hb]. apply Forall_cons in Hb as [Hb _].
    cbn [encode everyCharacter].
    rewrite !isBase64Character_charOf by (Z.div_mod_to_equations; lia). done.
  - apply Forall_cons in Hb as [Ha Hb]. apply Forall_cons in Hb as [Hb Hc].
    apply Forall_cons in Hc as [Hc Hl]. destruct (IH Hl) as [IHc IHl].
    cbn [encode everyCharacter String.length length].
    rewrite !isBase64Character_charOf by (Z.div_mod_to_equations; lia).
    rewrite IHc, IHl. split; [done|].
    replace (S (S (S (length l))) + 2)%nat with (length l + 2 + 1 * 3)%nat by lia.
    rewrite Nat.div_add by done. lia.
Qed.

Lemma spaceless_base64 (s : string) :
  everyCharacter isBase64Character s = true → spaceless s = true.
Proof.
  induction s as [|c s IH]; [done|]. cbn [everyCharacter spaceless].
  intros [Hc Hs]%andb_true_iff. rewrite (IH Hs), andb_true_r.
  destruct (Ascii.eqb_spec c " ") as [->|]; [|done]. by vm_compute in Hc.
Qed.
End TokenText.

Section Tokens.
Context `{Cipher}.
Import CryptoService.

Lemma encryptString_token (iv s : list Z) :
  encryptString iv s
  = Base64.encode (iv ++ (seal iv (Utf8.encode s)).2 ++ (seal iv (Utf8.encode s)).1).
Proof. unfold encryptString. by destruct (seal iv (Utf8.encode s)). Qed.

(** X13. The text of a token.  With a 12-byte nonce, the token of a string
    is made of characters of the base64 alphabet and paddings only: it has
    no space in it, so the guard's split of the Authorization header on
    spaces keeps it whole, and neither of the URL-safe characters.  Its
    length is four characters for every three bytes begun of the 28 bytes
    of nonce and tag and the UTF-8 bytes of the string. *)
Theorem encryptString_text (iv s : list Z) :
  Authenticated →
  length iv = 12%nat → Forall isByte iv → Forall isCodeUnit s →
  everyCharacter isBase64Character (encryptString iv s) = true
  ∧ spaceless (encryptString iv s) = true
  ∧ String.length (encryptString iv s)
    = (4 * ((28 + length (Utf8.encode s) + 2) / 3))%nat
  ∧ encryptString iv s ≠ "".
Proof.
  intros Hauth Hlen Hiv Hs.
  pose proof (encode_bytes s Hs) as Hpt.
  destruct (seal_bytes Hauth iv _ Hiv Hpt) as [Hct Htag].
  destruct (seal_length Hauth iv (Utf8.encode s)) as [Hlct Hltag].
  rewrite encryptString_token.
  set (ct := (seal iv (Utf8.encode s)).1) in *.
  set (tag := (seal iv (Utf8.encode s)).2) in *.
  assert (Forall isByte (iv ++ tag ++ ct)) as Hraw by (by repeat apply Forall_app_2).
  destruct (encode_text _ Hraw) as [Hchars Hlength].
  rewrite !length_app, Hlen, Hltag, Hlct in Hlength.
  replace (12 + (16 + length (Utf8.encode s)))%nat
    with (28 + length (Utf8.encode s))%nat in Hlength by lia.
  split; [done|]. split; [by apply spaceless_base64|]. split; [done|].
  intros Heq. rewrite Heq in Hlength. cbn [String.length] in Hlength.
  assert (1 ≤ (28 + length (Utf8.encode s) + 2) / 3)%nat; [|lia].
  apply Nat.div_le_lower_bound; lia.
Qed.

(** X14. No two encryptions share a token.  Tokens made with different
    12-byte nonces are different texts, whatever was encrypted; and two
    strings without lone surrogates that have the same token are the same
    string. *)
Theorem encryptString_injective (iv iv' s s' : list Z) :
  Authenticated →
  length iv = 12%nat → Forall isByte iv → Forall isCodeUnit s →
  length iv' = 12%nat → Forall isByte iv' → Forall isCodeUnit s' →
  encryptString iv s = encryptString iv' s' →
  iv = iv'
  ∧ (Utf8.wellFormed s = true → Utf8.wellFormed s' = true → s = s').
Proof.
  intros Hauth Hlen Hiv Hs Hlen' Hiv' Hs' Heq.
  pose proof (encode_bytes s Hs) as Hpt.
  pose proof (encode_bytes s' Hs') as Hpt'.
  destruct (seal_bytes Hauth iv _ Hiv Hpt) as [Hct Htag].
  destruct (seal_bytes Hauth iv' _ Hiv' Hpt') as [Hct' Htag'].
  destruct (seal_length Hauth iv (Utf8.encode s)) as [Hlct Hltag].
  destruct (seal_length Hauth iv' (Utf8.encode s')) as [Hlct' Hltag'].
  rewrite !encryptString_token in Heq.
  apply (f_equal Base64.decode) in Heq.
  rewrite !decode_encode in Heq by (by repeat apply Forall_app_2).
  apply app_inj_1 in Heq as [Heqiv Heq]; [|congruence].
  apply app_inj_1 in Heq as [Heqtag Heqct]; [|congruence].
  split; [done|]. intros Hwf Hwf'. subst iv'.
  pose proof (open_seal Hauth iv _ Hpt) as Hopen.
  pose proof (open_seal Hauth iv _ Hpt') as Hopen'.
  rewrite Heqtag, Heqct, Hopen' in Hopen. injection Hopen as Hbytes.
  rewrite <- (utf8_decode_encode s Hs Hwf), <- (utf8_decode_encode s' Hs' Hwf').
  by rewrite Hbytes.
Qed.
End Tokens.

(* ===================================================================== *)
(** * Durations *)
(* ===================================================================== *)

Section Durations.
Import TimeToSeconds.

Lemma span_spec (p : ascii → bool) (s : string) :
  s = ((span p s).1 ++ (span p s).2)%string
  ∧ everyCharacter p (span p s).1 = true
  ∧ match (span p s).2 with
    | EmptyString => True
    | String c _ => p c = false
    end.
Proof.
  induction s as [|c s (IHs & IHe & IHa)]; [done|].
  cbn [span]. destruct (p c) eqn:Hc.
  - destruct (span p s) as [run after]. cbn [fst snd] in *.
    rewrite append_String, <- IHs. cbn [everyCharacter]. by rewrite Hc, IHe.
  - done.
Qed.

Lemma span_app (p : ascii → bool) (run after : string) :
  everyCharacter p run = true →
  match after with EmptyString => True | String c _ => p c = false end →
  span p (run ++ after) = (run, after).
Proof.
  intros Hrun Hafter. induction run as [|c run IH].
  - change (span p after = ("", after)).
    destruct after as [|c after]; [done|]. cbn [span]. by rewrite Hafter.
  - cbn [everyCharacter] in Hrun. apply andb_true_iff in Hrun as [Hc Hrun].
    rewrite append_String. cbn [span]. by rewrite Hc, (IH Hrun).
Qed.

(** The shape of a numeral. *)
Lemma isNumeral_shape (numeral : string) :
  isNumeral numeral = true ↔
  ∃ integer, integer ≠ "" ∧ everyCharacter isDigit integer = true
    ∧ (numeral = integer
       ∨ ∃ fraction, fraction ≠ "" ∧ everyCharacter isDigit fraction = true
                     ∧ numeral = (integer ++ String "." fraction)%string).
Proof.
  unfold isNumeral. split.
  - destruct (span_spec isDigit numeral) as (Hs & He & Ha).
    destruct (span isDigit numeral) as [integer after]. cbn [fst snd] in *.
    intros [Hi Hrest]%andb_true_iff. apply negb_true_iff, bool_decide_eq_false in Hi.
    exists integer. split; [done|]. split; [done|].
    destruct after as [|c fraction].
    + left. rewrite Hs. clear. induction integer as [|c i IH]; [done|].
      by rewrite append_String, IH.
    + destruct (Ascii.eqb_spec c ".") as [->|Hc].
      * apply andb_true_iff in Hrest as [Hf Hd].
        apply negb_true_iff, bool_decide_eq_false in Hf. right. by exists fraction.
      * exfalso. revert Hrest. clear -Hc.
        destruct c as [[] [] [] [] [] [] [] []]; try done.
  - intros (integer & Hi & Hd & [->|(fraction & Hf & Hfd & ->)]).
    + replace integer with (integer ++ "")%string at 1.
      2:{ clear. induction integer as [|c i IH]; [done|]. by rewrite append_String, IH. }
      rewrite (span_app isDigit integer "" Hd I).
      by rewrite bool_decide_eq_false_2.
    + rewrite (span_app isDigit integer (String "." fraction) Hd eq_refl).
      rewrite !bool_decide_eq_false_2 by done. by rewrite Hfd.
Qed.

Lemma length_append_String (a : string) (c : ascii) (b : string) :
  String.length (a ++ String c b) = S (String.length a + String.length b).
Proof. rewrite length_append. cbn [String.length]. lia. Qed.

(** What [matchAt] finds is a numeral and a unit. *)
Lemma matchAt_Some (s numeral : string) (unit : ascii) (consumed : nat) :
  matchAt s = Some (numeral, unit, consumed) →
  isNumeral numeral = true ∧ isUnit unit = true ∧ (1 ≤ consumed)%nat.
Proof.
  unfold matchAt.
  destruct (span_spec isDigit s) as (_ & He & _).
  destruct (span isDigit s) as [integer after]. cbn [fst snd] in He.
  case_bool_decide as Hi; [done|].
  assert (∀ numeral' after',
            (let '(spaces, after) := span isWhiteSpace after' in
             match after with
             | String unit _ =>
                 if isUnit unit
                 then Some (numeral', unit,
                            (String.length numeral' + String.length spaces + 1)%nat)
                 else None
             | EmptyString => None
             end) = Some (numeral, unit, consumed) →
            numeral = numeral' ∧ isUnit unit = true ∧ (1 ≤ consumed)%nat) as Htail.
  { intros numeral' after'. destruct (span isWhiteSpace after') as [spaces [|u rest]]; [done|].
    destruct (isUnit u) eqn:Hu; [|done]. intros [= <- <- <-]. split; [done|]. split; [done|lia]. }
  assert (isNumeral integer = true) as Hinteger.
  { apply isNumeral_shape. exists integer. auto. }
  destruct after as [|c more].
  { intros Hm. apply Htail in Hm as (-> & ? & ?). done. }
  destruct (Ascii.eqb_spec c ".") as [->|Hc].
  - destruct (span_spec isDigit more) as (_ & Hfe & _).
    destruct (span isDigit more) as [fraction after']. cbn [fst snd] in Hfe.
    case_bool_decide as Hf.
    + intros Hm. apply Htail in Hm as (-> & ? & ?). done.
    + intros Hm. apply Htail in Hm as (-> & ? & ?). split; [|done].
      apply isNumeral_shape. exists integer. split; [done|]. split; [done|].
      right. by exists fraction.
  - assert ((let '(numeral0, after0) :=
               match String c more with
               | String "." more0 =>
                   let '(fraction, after') := span isDigit more0 in
                   if bool_decide (fraction = "") then (integer, String c more)
                   else ((integer ++ String "." fraction)%string, after')
               | _ => (integer, String c more)
               end in
             let '(spaces, after1) := span isWhiteSpace after0 in
             match after1 with
             | String unit0 _ =>
                 if isUnit unit0
                 then Some (numeral0, unit0,
                            (String.length numeral0 + String.length spaces + 1)%nat)
                 else None
             | EmptyString => None
             end)
            = (let '(spaces, after1) := span isWhiteSpace (String c more) in
               match after1 with
               | String unit0 _ =>
                   if isUnit unit0
                   then Some (integer, unit0,
                              (String.length integer + String.length spaces + 1)%nat)
                   else None
               | EmptyString => None
               end)) as ->.
    { clear -Hc. destruct c as [[] [] [] [] [] [] [] []]; try done. }
    intros Hm. apply Htail in Hm as (-> & ? & ?). done.
Qed.

Lemma matchAll_numerals (inside : nat) (s : string) :
  Forall (fun m => isNumeral m.1 = true ∧ isUnit m.2 = true) (matchAll inside s).
Proof.
  revert inside. induction s as [|c s IH]; intros inside; [constructor|].
  cbn [matchAll]. destruct inside as [|inside]; [|apply IH].
  destruct (matchAt (String c s)) as [[[numeral unit] consumed]|] eqn:Hm; [|apply IH].
  apply matchAt_Some in Hm as (? & ? & _). constructor; [done|apply IH].
Qed.

Lemma matchAt_not_a_digit (c : ascii) (s : string) :
  isDigit c = false → matchAt (String c s) = None.
Proof. intros Hc. unfold matchAt. cbn [span]. by rewrite Hc. Qed.

Lemma matchAll_not_a_digit (c : ascii) (s : string) :
  isDigit c = false → matchAll 0 (String c s) = matchAll 0 s.
Proof. intros Hc. cbn [matchAll]. by rewrite (matchAt_not_a_digit c s Hc). Qed.

Lemma matchAll_inside (passed rest : string) :
  matchAll (String.length passed) (passed ++ rest) = matchAll 0 rest.
Proof. induction passed as [|c passed IH]; [done|]. by rewrite append_String. Qed.

Lemma lowerCase_not_a_digit (c : ascii) :
  isDigit c = false → isDigit (lowerCase c) = false.
Proof. destruct c as [[] [] [] [] [] [] [] []]; by vm_compute. Qed.

Lemma whiteSpace_not_a_digit (c : ascii) : isWhiteSpace c = true → isDigit c = false.
Proof. destruct c as [[] [] [] [] [] [] [] []]; by vm_compute. Qed.

Lemma trimEnd_String (c : ascii) (s : string) :
  isWhiteSpace c = false → trimEnd (String c s) = String c (trimEnd s).
Proof. intros Hc. cbn [trimEnd]. rewrite Hc. by destruct (trimEnd s). Qed.

(** White space at the start of a text takes no part in a match. *)
Lemma matchAll_trimStart (s : string) :
  matchAll 0 (toLowerCase (trimEnd (trimStart s))) = matchAll 0 (toLowerCase (trimEnd s)).
Proof.
  induction s as [|c s IH]; [done|].
  cbn [trimStart]. destruct (isWhiteSpace c) eqn:Hc; [|done].
  rewrite IH. cbn [trimEnd]. rewrite Hc.
  destruct (trimEnd s) as [|c' trimmed] eqn:Ht; [done|].
  symmetry. change (toLowerCase (String c (String c' trimmed)))
    with (String (lowerCase c) (toLowerCase (String c' trimmed))).
  apply matchAll_not_a_digit.
  by apply lowerCase_not_a_digit, whiteSpace_not_a_digit.
Qed.

Lemma matchesOf_not_a_digit (c : ascii) (s : string) :
  isDigit c = false → matchesOf (String c s) = matchesOf s.
Proof.
  intros Hc. unfold matchesOf, trim. rewrite (matchAll_trimStart s).
  cbn [trimStart]. destruct (isWhiteSpace c) eqn:Hw.
  - apply matchAll_trimStart.
  - rewrite (trimEnd_String c s Hw). cbn [toLowerCase].
    apply matchAll_not_a_digit. by apply lowerCase_not_a_digit.
Qed.

Context `{Numbers}.

Lemma timeToSeconds_matches (text : string) :
  text ≠ "" →
  timeToSeconds (Some text) =
  match matchesOf text with
  | [] => inl (InvalidTimeFormat text)
  | matches =>
      match accumulate matches (literal 0) ∅ with
      | inl error => inl error
      | inr totalSeconds => inr (floor totalSeconds)
      end
  end.
Proof.
  intros Hne. unfold timeToSeconds, matchesOf. cbn [truthy].
  rewrite bool_decide_eq_false_2 by done. cbn [negb].
  by destruct (matchAll 0 (toLowerCase (trim text))).
Qed.

(** The loop: it adds up the matches as long as no unit comes again. *)
Lemma accumulate_outcome (matches : list (string * ascii)) (totalSeconds : Number)
    (usedUnits : gset ascii) :
  Magnitudes →
  Forall (fun m => isNumeral m.1 = true ∧ isUnit m.2 = true) matches →
  (NoDup matches.*2 ∧ (∀ unit, unit ∈ matches.*2 → unit ∉ usedUnits) →
   accumulate matches totalSeconds usedUnits
   = inr (List.fold_left
            (fun totalSeconds part =>
               add totalSeconds
                   (multiply (parseFloat part.1)
                             (match timeUnits part.2 with
                              | Some seconds => literal seconds
                              | None => NaN
                              end)))
            matches totalSeconds))
  ∧ (¬ (NoDup matches.*2 ∧ (∀ unit, unit ∈ matches.*2 → unit ∉ usedUnits)) →
     ∃ unit, accumulate matches totalSeconds usedUnits = inl (DuplicateTimeUnit unit)
             ∧ unit ∈ matches.*2
             ∧ (unit ∈ usedUnits ∨ ¬ NoDup matches.*2)).
Proof.
  intros Hlaw Hm. revert totalSeconds usedUnits.
  induction Hm as [|[numeral unit] matches [Hn Hu] _ IH]; intros totalSeconds usedUnits.
  { split; [done|]. intros Hno. destruct Hno. split; [constructor|]. intros ? Hin.
    by apply elem_of_nil in Hin. }
  cbn [fst snd] in Hn, Hu. cbn [accumulate fmap list_fmap snd].
  rewrite (numeral_is_a_number Hlaw numeral Hn), (numeral_is_not_negative Hlaw numeral Hn).
  cbn [orb]. case_bool_decide as Hused.
  - split.
    + intros [_ Hfresh]. destruct (Hfresh unit); [by left|done].
    + intros _. exists unit. split; [done|]. split; [by left|by left].
  - destruct (IH (add totalSeconds
                      (multiply (parseFloat numeral)
                                (match timeUnits unit with
                                 | Some seconds => literal seconds
                                 | None => NaN
                                 end)))
                 ({[unit]} ∪ usedUnits)) as [IHok IHno].
    split.
    + intros [Hnodup Hfresh]. apply NoDup_cons in Hnodup as [Hnotin Hnodup].
      rewrite IHok; [done|]. split; [done|].
      intros u Hin. apply not_elem_of_union. split.
      * apply not_elem_of_singleton. intros ->. done.
      * apply Hfresh. by right.
    + intros Hno. destruct IHno as (u & Hacc & Hin & Hwhy).
      { intros [Hnodup Hfresh]. apply Hno. split.
        - apply NoDup_cons. split; [|done]. intros Hin.
          apply (Hfresh unit Hin). apply elem_of_union. left. by apply elem_of_singleton.
        - intros u Hin. apply elem_of_cons in Hin as [->|Hin]; [done|].
          specialize (Hfresh u Hin). by apply not_elem_of_union in Hfresh as [_ ?]. }
      exists u. split; [done|]. split; [by right|].
      destruct Hwhy as [Hin'|Hdup].
      * apply elem_of_union in Hin' as [->%elem_of_singleton|Hin']; [|by left].
        right. intros Hnodup. by apply NoDup_cons in Hnodup as [? _].
      * right. intros Hnodup. by apply NoDup_cons in Hnodup as [_ ?].
Qed.

(** X15. What [timeToSeconds] answers, by the numerals with a unit letter
    it finds in the trimmed, lower-cased text.  No text or an empty one:
    Invalid time string provided.  No numeral with a unit: Invalid time
    format.  A unit that comes a second time: Duplicate time unit, also when
    other parts come between.  Otherwise the floor of the sum of the
    numerals, each times the seconds of its unit.  With a [parseFloat] that
    reads a numeral as a number not below zero, Invalid time value is never
    thrown. *)
Theorem timeToSeconds_outcomes (text : string) :
  Magnitudes →
  timeToSeconds None = inl InvalidTimeString
  ∧ timeToSeconds (Some "") = inl InvalidTimeString
  ∧ (text ≠ "" → matchesOf text = [] →
     timeToSeconds (Some text) = inl (InvalidTimeFormat text))
  ∧ (matchesOf text ≠ [] → NoDup (matchesOf text).*2 →
     timeToSeconds (Some text) = inr (floor (total (matchesOf text))))
  ∧ (¬ NoDup (matchesOf text).*2 →
     ∃ unit, timeToSeconds (Some text) = inl (DuplicateTimeUnit unit)
             ∧ unit ∈ (matchesOf text).*2)
  ∧ (∀ numeral, timeToSeconds (Some text) ≠ inl (InvalidTimeValue numeral)).
Proof.
  intros Hlaw. split; [done|]. split; [done|].
  destruct (decide (text = "")) as [->|Hne].
  { split; [done|]. split; [done|]. split; [|done].
    intros Hno. destruct Hno. constructor. }
  rewrite (timeToSeconds_matches text Hne).
  pose proof (matchAll_numerals 0 (toLowerCase (trim text))) as Hnum.
  fold (matchesOf text) in Hnum.
  destruct (accumulate_outcome (matchesOf text) (literal 0) ∅ Hlaw Hnum) as [Hok Hno].
  destruct (matchesOf text) as [|m matches] eqn:Hmatches.
  { split; [done|]. split; [done|]. split; [|done].
    intros Hnd. destruct Hnd. constructor. }
  split; [done|]. split; [|split].
  - intros _ Hnodup. rewrite Hok; [done|]. split; [done|]. intros ? _. set_solver.
  - intros Hdup. destruct Hno as (unit & -> & Hin & _); [by intros [? _]|].
    by exists unit.
  - intros numeral. destruct (decide (NoDup (m :: matches).*2)) as [Hnodup|Hdup].
    + rewrite Hok; [done|]. split; [done|]. intros ? _. set_solver.
    + destruct Hno as (unit & -> & _); [by intros [? _]|]. done.
Qed.

Lemma append_empty (s : string) : (s ++ "")%string = s.
Proof. induction s as [|c s IH]; [done|]. by rewrite append_String, IH. Qed.

Lemma span_whiteSpace_unit (unit : ascii) (rest : string) :
  isUnit unit = true → span isWhiteSpace (String unit rest) = ("", String unit rest).
Proof.
  intros Hu. cbn [span].
  assert (isWhiteSpace unit = false) as ->; [|done].
  revert Hu. clear. destruct unit as [[] [] [] [] [] [] [] []]; by vm_compute.
Qed.

Lemma unit_not_a_digit (unit : ascii) : isUnit unit = true → isDigit unit = false.
Proof. destruct unit as [[] [] [] [] [] [] [] []]; by vm_compute. Qed.

(** A numeral with its unit letter at the start of a text is a match. *)
Lemma matchAt_written (numeral : string) (unit : ascii) (rest : string) :
  isNumeral numeral = true → isUnit unit = true →
  matchAt (numeral ++ String unit rest)
  = Some (numeral, unit, S (String.length numeral)).
Proof.
  intros Hn Hu.
  apply isNumeral_shape in Hn
    as (integer & Hi & Hd & [->|(fraction & Hf & Hfd & ->)]); unfold matchAt.
  - rewrite (span_app isDigit integer (String unit rest) Hd (unit_not_a_digit unit Hu)).
    rewrite bool_decide_eq_false_2 by done.
    assert (unit ≠ "."%char) as Hpoint by (intros ->; done).
    assert ((let '(numeral, after) :=
               match String unit rest with
               | String "." more =>
                   let '(fraction, after') := span isDigit more in
                   if bool_decide (fraction = "") then (integer, String unit rest)
                   else ((integer ++ String "." fraction)%string, after')
               | _ => (integer, String unit rest)
               end in
             let '(spaces, after0) := span isWhiteSpace after in
             match after0 with
             | String unit0 _ =>
                 if isUnit unit0
                 then Some (numeral, unit0,
                            (String.length numeral + String.length spaces + 1)%nat)
                 else None
             | EmptyString => None
             end)
            = (let '(spaces, after0) := span isWhiteSpace (String unit rest) in
               match after0 with
               | String unit0 _ =>
                   if isUnit unit0
                   then Some (integer, unit0,
                              (String.length integer + String.length spaces + 1)%nat)
                   else None
               | EmptyString => None
               end)) as ->.
    { clear -Hpoint. destruct unit as [[] [] [] [] [] [] [] []]; try done. }
    rewrite (span_whiteSpace_unit unit rest Hu), Hu. cbn [String.length].
    do 3 f_equal. lia.
  - rewrite append_associative, append_String.
    rewrite (span_app isDigit integer (String "." (fraction ++ String unit rest)) Hd eq_refl).
    rewrite bool_decide_eq_false_2 by done.
    rewrite (span_app isDigit fraction (String unit rest) Hfd (unit_not_a_digit unit Hu)).
    rewrite bool_decide_eq_false_2 by done.
    rewrite (span_whiteSpace_unit unit rest Hu), Hu. cbn [String.length].
    do 3 f_equal. lia.
Qed.

Lemma numeral_starts_with_a_digit (numeral : string) :
  isNumeral numeral = true →
  ∃ c rest, numeral = String c rest ∧ isDigit c = true.
Proof.
  intros (integer & Hi & Hd & Hshape)%isNumeral_shape.
  destruct integer as [|c integer]; [done|].
  cbn [everyCharacter] in Hd. apply andb_true_iff in Hd as [Hc _].
  destruct Hshape as [->|(fraction & _ & _ & ->)]; rewrite ?append_String; by eexists _, _.
Qed.

Lemma matchAll_written (parts : list (string * ascii)) :
  Forall (fun part => isNumeral part.1 = true ∧ isUnit part.2 = true) parts →
  matchAll 0 (written parts) = parts.
Proof.
  induction 1 as [|[numeral unit] parts [Hn Hu] Hparts IH]; [done|].
  cbn [fst snd] in Hn, Hu.
  assert (∀ rest, matchAll 0 (numeral ++ String unit rest)
                  = (numeral, unit) :: matchAll 0 rest) as Hhead.
  { intros rest.
    destruct (numeral_starts_with_a_digit numeral Hn) as (c & tail & Heq & _).
    pose proof (matchAt_written numeral unit rest Hn Hu) as Hm.
    rewrite Heq in Hm |- *. rewrite append_String in Hm |- *.
    cbn [matchAll]. rewrite Hm. f_equal.
    cbn [String.length Nat.sub].
    replace (S (String.length tail)) with (String.length (tail ++ String unit ""))
      by (rewrite length_append_String; cbn [String.length]; lia).
    replace (tail ++ String unit rest)%string with ((tail ++ String unit "") ++ rest)%string
      by (by rewrite append_associative, append_String).
    apply matchAll_inside. }
  cbn [written]. destruct parts as [|part parts].
  - by rewrite Hhead.
  - rewrite Hhead. rewrite matchAll_not_a_digit by done. by rewrite IH.
Qed.

Lemma trimEnd_last (s : string) (c : ascii) :
  isWhiteSpace c = false → trimEnd (s ++ String c "") = (s ++ String c "")%string.
Proof.
  intros Hc. induction s as [|a s IH].
  - change (trimEnd (String c "") = String c ""). cbn [trimEnd]. by rewrite Hc.
  - rewrite append_String. cbn [trimEnd]. rewrite IH.
    by destruct (s ++ String c "")%string eqn:Heq; [destruct s|].
Qed.

Lemma written_last (parts : list (string * ascii)) :
  parts ≠ [] →
  ∃ front unit, written parts = (front ++ String unit "")%string
                ∧ unit ∈ parts.*2.
Proof.
  induction parts as [|[numeral unit] parts IH]; [done|]. intros _.
  destruct parts as [|part parts].
  - exists numeral, unit. split; [done|]. by left.
  - destruct (IH ltac:(done)) as (front & u & Heq & Hin).
    exists (numeral ++ String unit (String " " front))%string, u. split.
    + change (written ((numeral, unit) :: part :: parts))
        with (numeral ++ String unit (String " " (written (part :: parts))))%string.
      rewrite Heq. by rewrite append_associative, !append_String.
    + by right.
Qed.

Lemma lowerCase_written (c : ascii) :
  isDigit c = true ∨ isUnit c = true ∨ c = "."%char ∨ c = " "%char → lowerCase c = c.
Proof.
  destruct c as [[] [] [] [] [] [] [] []]; vm_compute; try done;
    intros [?|[?|[?|?]]]; done.
Qed.

Lemma toLowerCase_fixed (s : string) :
  everyCharacter (fun c => bool_decide (lowerCase c = c)) s = true → toLowerCase s = s.
Proof.
  induction s as [|c s IH]; [done|]. cbn [everyCharacter toLowerCase].
  intros [Hc Hs]%andb_true_iff. apply bool_decide_eq_true in Hc. by rewrite Hc, IH.
Qed.

Lemma everyCharacter_append (p : ascii → bool) (a b : string) :
  everyCharacter p (a ++ b) = everyCharacter p a && everyCharacter p b.
Proof.
  induction a as [|c a IH]; [done|]. rewrite append_String. cbn [everyCharacter].
  by rewrite IH, andb_assoc.
Qed.

Lemma everyCharacter_impl (p q : ascii → bool) (s : string) :
  (∀ c, p c = true → q c = true) → everyCharacter p s = true → everyCharacter q s = true.
Proof.
  intros Hpq. induction s as [|c s IH]; [done|]. cbn [everyCharacter].
  intros [Hc Hs]%andb_true_iff. by rewrite (Hpq c Hc), IH.
Qed.

Lemma numeral_fixed (numeral : string) :
  isNumeral numeral = true →
  everyCharacter (fun c => bool_decide (lowerCase c = c)) numeral = true.
Proof.
  assert (∀ s, everyCharacter isDigit s = true →
               everyCharacter (fun c => bool_decide (lowerCase c = c)) s = true) as Hdigits.
  { intros s. apply everyCharacter_impl. intros c Hc.
    apply bool_decide_eq_true, lowerCase_written. by left. }
  intros (integer & Hi & Hd & [->|(fraction & _ & Hfd & ->)])%isNumeral_shape.
  - by apply Hdigits.
  - rewrite everyCharacter_append. cbn [everyCharacter].
    rewrite (Hdigits integer Hd), (Hdigits fraction Hfd). done.
Qed.

Lemma written_fixed (parts : list (string * ascii)) :
  Forall (fun part => isNumeral part.1 = true ∧ isUnit part.2 = true) parts →
  everyCharacter (fun c => bool_decide (lowerCase c = c)) (written parts) = true.
Proof.
  induction 1 as [|[numeral unit] parts [Hn Hu] Hparts IH]; [done|].
  cbn [fst snd] in Hn, Hu.
  assert (bool_decide (lowerCase unit = unit) = true) as Hunit.
  { apply bool_decide_eq_true, lowerCase_written. by right; left. }
  cbn [written]. destruct parts as [|part parts].
  - rewrite everyCharacter_append. cbn [everyCharacter].
    by rewrite (numeral_fixed numeral Hn), Hunit.
  - rewrite everyCharacter_append. cbn [everyCharacter].
    rewrite (numeral_fixed numeral Hn), Hunit, IH. done.
Qed.

Lemma matchesOf_written (parts : list (string * ascii)) :
  Forall (fun part => isNumeral part.1 = true ∧ isUnit part.2 = true) parts →
  matchesOf (written parts) = parts.
Proof.
  intros Hparts. destruct (decide (parts = [])) as [->|Hne]; [done|].
  unfold matchesOf, trim.
  assert (trimStart (written parts) = written parts) as ->.
  { destruct parts as [|[numeral unit] parts]; [done|].
    apply Forall_cons in Hparts as [[Hn _] _]. cbn [fst] in Hn.
    destruct (numeral_starts_with_a_digit numeral Hn) as (c & tail & -> & Hc).
    assert (isWhiteSpace c = false) as Hw.
    { destruct (isWhiteSpace c) eqn:Hw; [|done].
      apply whiteSpace_not_a_digit in Hw. congruence. }
    cbn [written]. destruct parts; rewrite append_String; cbn [trimStart]; by rewrite Hw. }
  destruct (written_last parts Hne) as (front & unit & Heq & Hin).
  assert (isUnit unit = true) as Hu.
  { apply list_elem_of_fmap in Hin as ([numeral u] & -> & Hin).
    rewrite Forall_forall in Hparts. by destruct (Hparts _ Hin). }
  rewrite Heq, trimEnd_last, <- Heq.
  2:{ revert Hu. clear. destruct unit as [[] [] [] [] [] [] [] []]; by vm_compute. }
  rewrite (toLowerCase_fixed _ (written_fixed parts Hparts)).
  by apply matchAll_written.
Qed.

(** X16. A time string written as numerals each followed by its unit letter
    (s, m, h, d or w), the parts separated by single spaces and no unit
    used twice, gives the floor of the sum, from left to right, of each
    numeral as [parseFloat] reads it times the seconds of its unit (1, 60,
    3600, 86400, 604800).  The parts may come in any order. *)
Theorem timeToSeconds_of_written_parts (parts : list (string * ascii)) :
  Magnitudes →
  parts ≠ [] →
  Forall (fun part => isNumeral part.1 = true ∧ isUnit part.2 = true) parts →
  NoDup parts.*2 →
  timeToSeconds (Some (written parts)) = inr (floor (total parts)).
Proof.
  intros Hlaw Hne Hparts Hnodup.
  assert (written parts ≠ "") as Hwritten.
  { destruct (written_last parts Hne) as (front & unit & -> & _). by destruct front. }
  rewrite (timeToSeconds_matches _ Hwritten), (matchesOf_written parts Hparts).
  destruct (accumulate_outcome parts (literal 0) ∅ Hlaw Hparts) as [Hok _].
  destruct parts as [|part parts]; [done|].
  rewrite Hok by (split; [done|]; intros ? _; set_solver). done.
Qed.

(** X17. A character that is not a digit, put in front of a time string,
    changes nothing of the seconds it gives: [timeToSeconds] gives a number
    for the longer text exactly when it gives it for the shorter one.  A
    minus sign is such a character, and so is a point. *)
Theorem timeToSeconds_ignores_a_sign (c : ascii) (text : string) (seconds : Number) :
  isDigit c = false →
  timeToSeconds (Some (String c text)) = inr seconds
  ↔ timeToSeconds (Some text) = inr seconds.
Proof.
  intros Hc. rewrite (timeToSeconds_matches (String c text)) by done.
  rewrite (matchesOf_not_a_digit c text Hc).
  destruct (decide (text = "")) as [->|Hne]; [done|].
  rewrite (timeToSeconds_matches text Hne).
  by destruct (matchesOf text).
Qed.
End Durations.

(* ===================================================================== *)
(** * Durations with exact numbers *)
(* ===================================================================== *)

Section ExactNumbers.
Import TimeToSeconds ExactNumbers.

Lemma digits_not_negative (s : string) (value : Z) :
  (0 ≤ value)%Z → everyCharacter isDigit s = true → (0 ≤ digits value s)%Z.
Proof.
  revert value. induction s as [|c s IH]; intros value Hv; [done|].
  cbn [everyCharacter digits]. intros [Hc Hs]%andb_true_iff. apply IH; [|done].
  assert (0 ≤ digit c)%Z; [|lia].
  unfold isDigit in Hc. apply andb_true_iff in Hc as [Hc _].
  apply Nat.leb_le in Hc. unfold digit. lia.
Qed.

Lemma ExactNumbers_magnitudes : Magnitudes (H := numbers).
Proof.
  assert (∀ numeral, isNumeral numeral = true →
                     ∃ n d, parse numeral = Some (QArith_base.Qmake n d) ∧ (0 ≤ n)%Z) as Hparse.
  { intros numeral (integer & Hi & Hd & [->|(fraction & Hf & Hfd & ->)])%isNumeral_shape;
      unfold parse.
    - replace (span isDigit integer) with (span isDigit (integer ++ ""))
        by (by rewrite append_empty).
      rewrite (span_app isDigit integer "" Hd I), bool_decide_eq_false_2 by done.
      eexists _, _. split; [reflexivity|]. by apply digits_not_negative.
    - rewrite (span_app isDigit integer (String "." fraction) Hd eq_refl).
      rewrite bool_decide_eq_false_2 by done.
      replace (span isDigit fraction) with (span isDigit (fraction ++ ""))
        by (by rewrite append_empty).
      rewrite (span_app isDigit fraction "" Hfd I).
      eexists _, _. split; [reflexivity|].
      apply digits_not_negative; [|done]. by apply digits_not_negative. }
  split; intros numeral Hn; destruct (Hparse numeral Hn) as (n & d & Hp & Hpos);
    cbn [parseFloat isNaN lessThan literal numbers]; rewrite Hp; [done|].
  apply negb_false_iff. unfold QArith_base.Qle_bool. cbn. apply Z.leb_le. lia.
Qed.
End ExactNumbers.

(** The examples of the source's own description of [timeToSeconds]. *)
Example timeToSeconds_examples :
  TimeToSeconds.timeToSeconds (Some "3m") = inr (Some (QArith_base.inject_Z 180))
  ∧ TimeToSeconds.timeToSeconds (Some "2h 30m") = inr (Some (QArith_base.inject_Z 9000))
  ∧ TimeToSeconds.timeToSeconds (Some "1d 2h 30m 15s")
    = inr (Some (QArith_base.inject_Z 95415))
  ∧ TimeToSeconds.timeToSeconds (Some "1.5h") = inr (Some (QArith_base.inject_Z 5400))
  ∧ TimeToSeconds.timeToSeconds (Some "-5m") = inr (Some (QArith_base.inject_Z 300))
  ∧ TimeToSeconds.timeToSeconds (Some "1h 30m 15m") = inl (DuplicateTimeUnit "m")
  ∧ TimeToSeconds.timeToSeconds (Some "soon")
    = inl (InvalidTimeFormat "soon").
Proof. repeat split; vm_compute; reflexivity. Qed.

(** X15, with exact numbers and the text 1h 30m 15m. *)
Lemma timeToSeconds_outcomes_witness :
  TimeToSeconds.timeToSeconds None = inl InvalidTimeString
  ∧ TimeToSeconds.timeToSeconds (Some "") = inl InvalidTimeString
  ∧ ("1h 30m 15m" ≠ "" → TimeToSeconds.matchesOf "1h 30m 15m" = [] →
     TimeToSeconds.timeToSeconds (Some "1h 30m 15m")
     = inl (InvalidTimeFormat "1h 30m 15m"))
  ∧ (TimeToSeconds.matchesOf "1h 30m 15m" ≠ [] →
     NoDup (TimeToSeconds.matchesOf "1h 30m 15m").*2 →
     TimeToSeconds.timeToSeconds (Some "1h 30m 15m")
     = inr (floor (TimeToSeconds.total (TimeToSeconds.matchesOf "1h 30m 15m"))))
  ∧ (¬ NoDup (TimeToSeconds.matchesOf "1h 30m 15m").*2 →
     ∃ unit, TimeToSeconds.timeToSeconds (Some "1h 30m 15m") = inl (DuplicateTimeUnit unit)
             ∧ unit ∈ (TimeToSeconds.matchesOf "1h 30m 15m").*2)
  ∧ (∀ numeral, TimeToSeconds.timeToSeconds (Some "1h 30m 15m")
                ≠ inl (InvalidTimeValue numeral)).
Proof.
  apply (timeToSeconds_outcomes "1h 30m 15m"). apply ExactNumbers_magnitudes.
Defined.

(** X16, with exact numbers: two hours and a half. *)
Lemma timeToSeconds_of_written_parts_witness :
  TimeToSeconds.timeToSeconds (Some (TimeToSeconds.written [("2", "h"%char); ("30", "m"%char)]))
  = inr (floor (TimeToSeconds.total [("2", "h"%char); ("30", "m"%char)])).
Proof.
  apply (timeToSeconds_of_written_parts [("2", "h"%char); ("30", "m"%char)]).
  - apply ExactNumbers_magnitudes.
  - discriminate.
  - repeat constructor.
  - apply (bool_decide_unpack _). vm_compute. exact I.
Defined.

(** X17, with exact numbers: minus five minutes. *)
Lemma timeToSeconds_ignores_a_sign_witness :
  TimeToSeconds.timeToSeconds (Some "-5m") = inr (Some (QArith_base.inject_Z 300))
  ↔ TimeToSeconds.timeToSeconds (Some "5m") = inr (Some (QArith_base.inject_Z 300)).
Proof.
  apply (@timeToSeconds_ignores_a_sign ExactNumbers.numbers "-"%char "5m"
           (Some (QArith_base.inject_Z 300))).
  reflexivity.
Defined.

(* ===================================================================== *)
(** * The further properties on the deployment *)
(* ===================================================================== *)

(** X2, for Alice on the deployment. *)
Lemma getUserAuthorizationCredentials_outcomes_witness :
  ∃ g, run 200 (IdentityAuthorization.getUserAuthorizationCredentials "u1") Deployment.db
       = (Ok g, Deployment.db)
       ∧ UserAuthorizationCredentialsModel.roles g = []
       ∧ UserAuthorizationCredentialsModel.administratorAccess g = None.
Proof.
  eexists. split; [vm_compute; reflexivity|].
  destruct (proj1 (getUserAuthorizationCredentials_outcomes 200 "u1" Deployment.db)
              _ Deployment.db ltac:(vm_compute; reflexivity)) as (Hroles & Hflag & _).
  by split.
Defined.

(** X3, for Alice on the deployment, who includes no permission herself. *)
Lemma hasPermission_over_the_repository_witness :
  AuthorizationService.hasPermission (authorizationCredentialsIn 200 Deployment.db) "u1" ["A"]
  = Ok true
  ↔ ∃ doc, visibleUser Deployment.db "u1" = Some doc
           ∧ UserEntity.roles doc = []
           ∧ ∀ p, p ∈ ["A"] → p ∈ UserEntity.includedPermissions doc
                               ∧ p ∉ UserEntity.excludedPermissions doc.
Proof.
  apply (proj1 (hasPermission_over_the_repository 200 Deployment.db "u1" ["A"]
                  ltac:(discriminate))).
Defined.

(** X4, on the deployment: Alice signs in on the web at 200; her session is
    verified at 86600 and no longer at 86601. *)
Lemma signIn_session_window_witness :
  ∃ creds db',
    run 200 (AuthenticationService.signIn 200 "s3" Deployment.nonces
               (Deployment.signInRequest "alice" "rabbit")) Deployment.db
    = (Ok creds, db')
    ∧ (∃ session, run 86600 (AuthenticationService.verifySession 86600 "s3") db'
                  = (Ok session, db'))
    ∧ run 86601 (AuthenticationService.verifySession 86601 "s3") db'
      = (Throw (HttpException "SESSION_NOT_FOUND" UNAUTHORIZED), db').
Proof.
  eexists _, _. split; [vm_compute; reflexivity|]. split.
  - destruct (proj1 (signIn_session_window 200 "s3" Deployment.nonces
                       (Deployment.signInRequest "alice" "rabbit") Deployment.db _ _ 86600
                       ltac:(vm_compute; reflexivity)) ltac:(vm_compute; discriminate))
      as (session & Hrun & _).
    by exists session.
  - apply (proj2 (signIn_session_window 200 "s3" Deployment.nonces
                    (Deployment.signInRequest "alice" "rabbit") Deployment.db _ _ 86601
                    ltac:(vm_compute; reflexivity))).
    vm_compute. reflexivity.
Defined.

(** X5, on the deployment: the credentials of Alice's sign-in at 200,
    presented at 300. *)
Lemma signIn_credentials_pass_canActivate_witness :
  ∃ creds db' request',
    run 200 (AuthenticationService.signIn 200 "s3" Deployment.nonces
               (Deployment.signInRequest "alice" "rabbit")) Deployment.db
    = (Ok creds, db')
    ∧ run 300 (AuthenticationGuard.canActivate 300
                 (presenting (AuthenticationCredentialsModel.accessToken creds)
                             (AuthenticationCredentialsModel.sessionId creds))) db'
      = (Ok (true, request'), db').
Proof.
  eexists _, _, _. split; [vm_compute; reflexivity|].
  apply (signIn_credentials_pass_canActivate 200 "s3" Deployment.nonces
           (Deployment.signInRequest "alice" "rabbit") Deployment.db _ _ 300
           (JwtPayload.mk Deployment.aliceModel None)); try (vm_compute; reflexivity).
  - discriminate.
  - vm_compute. discriminate.
Defined.

(** X6, on the deployment: the refresh of C5 that is rejected. *)
Lemma refresh_rejected_writes_nothing_witness :
  (run 200 (AuthenticationService.refresh 200 Deployment.nonces
              (Deployment.refreshRequest "R@100/A@999")) Deployment.dbMismatched).2
  = Deployment.dbMismatched.
Proof.
  apply (refresh_rejected_writes_nothing 200 Deployment.nonces
           (Deployment.refreshRequest "R@100/A@999") Deployment.dbMismatched
           (HttpException "EXPIRED_REFRESH_TOKEN" UNAUTHORIZED)).
  vm_compute. reflexivity.
Defined.

(** X8, on the deployment: after the refresh of s1 at 200, the access token
    A@100 is refused at the guard. *)
Lemma refresh_supersedes_at_canActivate_witness :
  ∃ creds db',
    run 200 (AuthenticationService.refresh 200 Deployment.nonces
               (Deployment.refreshRequest "R@100/A@100")) Deployment.db
    = (Ok creds, db')
    ∧ run 300 (AuthenticationGuard.canActivate 300 (Deployment.request "Bearer #A@100")) db'
      = (Throw (HttpException "INVALID_ACCESS_TOKEN" UNAUTHORIZED), db').
Proof.
  eexists _, _. split; [vm_compute; reflexivity|].
  destruct (refresh_supersedes_at_canActivate 200 Deployment.nonces
              (Deployment.refreshRequest "R@100/A@100") Deployment.db _ _
              ltac:(vm_compute; reflexivity))
    as (sessionId & doc & doc' & (e & He & Hid) & Hdoc & Hdoc' & _ & Hold & _).
  injection He as <-. injection Hid as <-.
  vm_compute in Hdoc, Hdoc'. injection Hdoc as <-. injection Hdoc' as <-.
  apply Hold; try (vm_compute; reflexivity).
  - vm_compute. discriminate.
  - vm_compute. discriminate.
Defined.

(** X9, on the deployment: the session s9 that no lookup finds. *)
Lemma canActivate_without_session_witness :
  run 200 (AuthenticationGuard.canActivate 200
             (presenting "#A@100" "#s9")) Deployment.db
  = (Throw (TypeError "Cannot read properties of null (reading 'endsAt')"), Deployment.db).
Proof.
  apply (proj1 (canActivate_without_session (H := Deployment.collaborators) 200
                  (presenting "#A@100" "#s9") Deployment.db "A@100" "s9"
                  ltac:(vm_compute; reflexivity) ltac:(vm_compute; reflexivity))).
  vm_compute. reflexivity.
Defined.

(** X10, on the deployment: s1 signed out at 200, its access token presented
    at 300. *)
Lemma signOut_changes_no_verdict_witness :
  ∃ db',
    run 200 (AuthenticationService.signOut 200 (Some "s1")) Deployment.db = (Ok tt, db')
    ∧ (run 300 (AuthenticationGuard.canActivate 300 (Deployment.request "Bearer #A@100")) db').1
      = (run 300 (AuthenticationGuard.canActivate 300 (Deployment.request "Bearer #A@100"))
           Deployment.db).1.
Proof.
  eexists. split; [vm_compute; reflexivity|].
  apply (signOut_changes_no_verdict 200 "s1" Deployment.db).
  vm_compute. reflexivity.
Defined.

(** X11, on the deployment: the cookie of s1 is the text #s1. *)
Lemma controller_signOut_keeps_the_session_witness :
  (∀ a, (run 200 (AuthenticationController.signOut 200 (Deployment.request "Bearer #A@100"))
           Deployment.db).1 ≠ Ok a)
  ∧ (run 200 (AuthenticationController.signOut 200 (Deployment.request "Bearer #A@100"))
       Deployment.db).2 = Deployment.db.
Proof.
  apply (controller_signOut_keeps_the_session 200 (Deployment.request "Bearer #A@100")
           Deployment.db "#s1").
  - reflexivity.
  - vm_compute. reflexivity.
Defined.

(** X13, on the deployment's cipher. *)
Lemma encryptString_text_witness :
  everyCharacter isBase64Character (CryptoService.encryptString Deployment.iv [104; 105]%Z)
  = true
  ∧ spaceless (CryptoService.encryptString Deployment.iv [104; 105]%Z) = true
  ∧ String.length (CryptoService.encryptString Deployment.iv [104; 105]%Z)
    = (4 * ((28 + length (Utf8.encode [104; 105]%Z) + 2) / 3))%nat
  ∧ CryptoService.encryptString Deployment.iv [104; 105]%Z ≠ "".
Proof.
  apply encryptString_text.
  - apply Deployment_cipher_authenticated.
  - reflexivity.
  - unfold Deployment.iv, isByte. repeat constructor; lia.
  - unfold isCodeUnit. repeat constructor; lia.
Defined.

(** X14, on the deployment's cipher. *)
Lemma encryptString_injective_witness :
  Deployment.iv = Deployment.iv
  ∧ (Utf8.wellFormed [104; 105]%Z = true → Utf8.wellFormed [104; 105]%Z = true →
     [104; 105]%Z = [104; 105]%Z).
Proof.
  apply (encryptString_injective Deployment.iv Deployment.iv [104; 105]%Z [104; 105]%Z).
  - apply Deployment_cipher_authenticated.
  - reflexivity.
  - unfold Deployment.iv, isByte. repeat constructor; lia.
  - unfold isCodeUnit. repeat constructor; lia.
  - reflexivity.
  - unfold Deployment.iv, isByte. repeat constructor; lia.
  - unfold isCodeUnit. repeat constructor; lia.
  - reflexivity.
Defined.

(* ===================================================================== *)
(** * Role management *)
(* ===================================================================== *)

Section Roles.

Lemma perform_bind {A B} (m : Call A) (k : A → Call B) now c :
  perform (m ≫= k) now c =
  match perform m now c with
  | (Fulfilled a, c') => perform (k a) now c'
  | (Rejected r, c') => (Rejected r, c')
  end.
Proof. done. Qed.

Lemma rolesTitled_empty (c : Collections) (title : string) :
  rolesTitled c title = ∅ ↔
  ∀ id role, visibleRole c id = Some role → RoleEntity.title role ≠ title.
Proof.
  unfold rolesTitled, visibleRole. rewrite map_empty_filter. split.
  - intros Hall id role Hrole Htitle.
    destruct (roles c !! id) as [doc|] eqn:Hdoc; [|done].
    destruct (softDeleteFilter (RoleEntity.isDeleted doc)) eqn:Hvis; [|done].
    injection Hrole as <-. by apply (Hall id doc Hdoc).
  - intros Hall id doc Hdoc [Hvis Htitle]. cbn in Hvis, Htitle.
    apply (Hall id doc); [|done]. by rewrite Hdoc, Hvis.
Qed.

Lemma visibleRole_insert (c : Collections) (id id' : string) (doc : RoleEntity.t) :
  visibleRole (mkCollections (database c) (<[id := doc]> (roles c))) id' =
  if bool_decide (id' = id)
  then (if softDeleteFilter (RoleEntity.isDeleted doc) then Some doc else None)
  else visibleRole c id'.
Proof.
  unfold visibleRole. cbn [roles]. case_bool_decide as Hid.
  - subst. by rewrite lookup_insert_eq.
  - by rewrite lookup_insert_ne.
Qed.

Lemma setPath_isDeleted doc entry :
  RoleEntity.isDeleted (setPath doc entry) = RoleEntity.isDeleted doc.
Proof.
  destruct doc, entry as [path [value|value]]; cbn; repeat case_bool_decide; done.
Qed.

Lemma foldl_setPath_isDeleted update doc :
  RoleEntity.isDeleted (foldl setPath doc update) = RoleEntity.isDeleted doc.
Proof.
  revert doc. induction update as [|entry update IH]; intros doc; [done|].
  cbn [foldl]. by rewrite IH, setPath_isDeleted.
Qed.

(** What the update of a role leaves and what it sets. *)
Lemma applyRoleUpdate_fields now (model : UpdateRoleModel.t) (doc : RoleEntity.t) :
  let doc' := applyRoleUpdate now (removeUndefinedProperties (updateEntries model)) doc in
  RoleEntity.title doc' = default (RoleEntity.title doc) (UpdateRoleModel.title model)
  ∧ RoleEntity.color doc' = default (RoleEntity.color doc) (UpdateRoleModel.color model)
  ∧ RoleEntity.description doc'
    = match UpdateRoleModel.description model with
      | Some text => Some text
      | None => RoleEntity.description doc
      end
  ∧ RoleEntity.includedPermissions doc'
    = default (RoleEntity.includedPermissions doc) (UpdateRoleModel.includedPermissions model)
  ∧ RoleEntity.excludedPermissions doc'
    = default (RoleEntity.excludedPermissions doc) (UpdateRoleModel.excludedPermissions model)
  ∧ RoleEntity.createdAt doc' = RoleEntity.createdAt doc
  ∧ RoleEntity.updatedAt doc' = now
  ∧ RoleEntity.deletedAt doc' = RoleEntity.deletedAt doc
  ∧ RoleEntity.isDeleted doc' = RoleEntity.isDeleted doc.
Proof.
  destruct doc, model as [[t|] [c|] [d|] [i|] [e|]]; cbn; repeat split; done.
Qed.

Lemma perform_createRole oid model now c :
  perform (RoleManagement.createRole oid model) now c =
  if bool_decide (rolesTitled c (CreateRoleModel.title model) ≠ ∅)
  then (Rejected (Thrown (HttpException "ROLE_TITLE_ALREADY_EXISTS" CONFLICT)), c)
  else match invalidPaths model with
       | [] =>
           match roles c !! oid with
           | Some _ => (Rejected (Thrown (MongoServerError "E11000 duplicate key error")), c)
           | None =>
               (Fulfilled (RoleEntity.toModel oid (newRoleDocument now model)),
                mkCollections (database c) (<[oid := newRoleDocument now model]> (roles c)))
           end
       | paths => (Rejected (ValidationError paths), c)
       end.
Proof.
  unfold RoleManagement.createRole. rewrite perform_bind. cbn [perform RoleRepositoryService.doesTitleExists].
  by destruct (bool_decide (rolesTitled c (CreateRoleModel.title model) ≠ ∅)).
Qed.

Lemma perform_updateRole id model now c :
  perform (RoleManagement.updateRole id model) now c =
  match visibleRole c id with
  | None => (Rejected (Thrown (HttpException "ROLE_NOT_FOUND" NOT_FOUND)), c)
  | Some doc =>
      if truthy (UpdateRoleModel.title model)
         && bool_decide (UpdateRoleModel.title model ≠ Some (RoleEntity.title doc))
         && bool_decide (rolesTitled c (default "" (UpdateRoleModel.title model)) ≠ ∅)
      then (Rejected (Thrown (HttpException "ROLE_TITLE_ALREADY_EXISTS" CONFLICT)), c)
      else
        (Fulfilled (RoleEntity.toModel id
                      (applyRoleUpdate now (removeUndefinedProperties (updateEntries model)) doc)),
         mkCollections (database c)
           (<[id := applyRoleUpdate now (removeUndefinedProperties (updateEntries model)) doc]>
              (roles c)))
  end.
Proof.
  unfold RoleManagement.updateRole. rewrite perform_bind.
  cbn [perform RoleRepositoryService.findRoleById].
  destruct (visibleRole c id) as [doc|] eqn:Hdoc; cbn [fmap option_fmap option_map]; [|done].
  rewrite perform_bind. cbn [RoleEntity.toModel RoleModel.title].
  destruct (truthy (UpdateRoleModel.title model)
            && bool_decide (UpdateRoleModel.title model ≠ Some (RoleEntity.title doc))).
  - rewrite perform_bind. cbn [perform RoleRepositoryService.doesTitleExists andb].
    destruct (bool_decide (rolesTitled c _ ≠ ∅)); [done|].
    cbn [perform mret Call_ret RoleRepositoryService.updateRole]. by rewrite Hdoc.
  - cbn [perform mret Call_ret RoleRepositoryService.updateRole andb]. by rewrite Hdoc.
Qed.

Lemma perform_deleteRole id now c :
  perform (RoleManagement.deleteRole id) now c =
  match visibleRole c id with
  | None => (Rejected (Thrown (HttpException "ROLE_NOT_FOUND" NOT_FOUND)), c)
  | Some doc =>
      match assignedTo id c with
      | [] =>
          (Fulfilled true,
           mkCollections (database c)
             (<[id := RoleEntity.mk (RoleEntity.title doc) (RoleEntity.color doc)
                        (RoleEntity.description doc) (RoleEntity.includedPermissions doc)
                        (RoleEntity.excludedPermissions doc) (RoleEntity.createdAt doc)
                        now (Some now) (RoleEntity.isDeleted doc)]> (roles c)))
      | _ => (Rejected (Thrown (HttpException "ROLE_ASSIGNED_TO_USER" CONFLICT)), c)
      end
  end.
Proof.
  unfold RoleManagement.deleteRole. rewrite perform_bind.
  cbn [perform RoleRepositoryService.findRoleById].
  destruct (visibleRole c id) as [doc|] eqn:Hdoc; cbn [fmap option_fmap option_map]; [|done].
  rewrite perform_bind. cbn [perform getUsersByRoleId]. fold (assignedTo id c).
  destruct (assignedTo id c) as [|user users]; cbn [fmap list_fmap length].
  - change (0 <? Z.of_nat 0)%Z with false.
    cbn [perform RoleRepositoryService.deleteRole]. rewrite Hdoc. by destruct doc.
  - replace (0 <? Z.of_nat (S (length (UserEntity.toModel <$> users))))%Z with true; [done|].
    symmetry. apply Z.ltb_lt. lia.
Qed.

Lemma perform_getRoleById id now c :
  perform (RoleManagement.getRoleById id) now c =
  match visibleRole c id with
  | Some doc => (Fulfilled (RoleEntity.toModel id doc), c)
  | None => (Rejected (Thrown (HttpException "ROLE_NOT_FOUND" NOT_FOUND)), c)
  end.
Proof.
  unfold RoleManagement.getRoleById. rewrite perform_bind.
  cbn [perform RoleRepositoryService.findRoleById].
  by destruct (visibleRole c id).
Qed.

Lemma DistinctTitles_insert (c : Collections) (id : string) (doc : RoleEntity.t) :
  DistinctTitles c →
  (∀ id' role, id' ≠ id → visibleRole c id' = Some role →
               RoleEntity.title role = RoleEntity.title doc → RoleEntity.title doc = "") →
  DistinctTitles (mkCollections (database c) (<[id := doc]> (roles c))).
Proof.
  intros Hinv Hfresh id1 id2 role1 role2. rewrite !visibleRole_insert.
  case_bool_decide as H1; case_bool_decide as H2; subst; try done.
  - destruct (softDeleteFilter _); [|done]. intros [= <-] Hrole2 Htitle Hne.
    destruct Hne. by apply (Hfresh id2 role2).
  - destruct (softDeleteFilter _); [|done]. intros Hrole1 [= <-] Htitle Hne.
    destruct Hne. rewrite Htitle. by apply (Hfresh id1 role1).
  - apply Hinv.
Qed.

Lemma serve_DistinctTitles now request c :
  DistinctTitles c → DistinctTitles (serve now request c).
Proof.
  intros Hinv. destruct request as [oid model|id model|id]; cbn [serve].
  - rewrite perform_createRole.
    case_bool_decide as Htaken; [done|].
    destruct (invalidPaths model) eqn:Hvalid; [|done].
    destruct (roles c !! oid) eqn:Hoid; [done|]. cbn [snd].
    apply DistinctTitles_insert; [done|].
    intros id' role _ Hrole Htitle. exfalso.
    assert (rolesTitled c (CreateRoleModel.title model) = ∅) as Hnone.
    { destruct (decide (rolesTitled c (CreateRoleModel.title model) = ∅)); [done|].
      by destruct Htaken. }
    by apply (proj1 (rolesTitled_empty _ _) Hnone id' role Hrole).
  - rewrite perform_updateRole.
    destruct (visibleRole c id) as [doc|] eqn:Hdoc; [|done].
    destruct (applyRoleUpdate_fields now model doc) as (Htitle & _).
    destruct (truthy (UpdateRoleModel.title model)) eqn:Htruthy; cbn [andb].
    + case_bool_decide as Hchanged; cbn [andb].
      * case_bool_decide as Htaken; [done|]. cbn [snd].
        apply DistinctTitles_insert; [done|].
        intros id' role _ Hrole Hsame. exfalso.
        assert (rolesTitled c (default "" (UpdateRoleModel.title model)) = ∅) as Hnone.
        { destruct (decide (rolesTitled c (default "" (UpdateRoleModel.title model)) = ∅));
            [done|]. by destruct Htaken. }
        apply (proj1 (rolesTitled_empty _ _) Hnone id' role Hrole).
        rewrite Hsame, Htitle. by destruct (UpdateRoleModel.title model).
      * cbn [snd]. apply DistinctTitles_insert; [done|].
        intros id' role Hid Hrole Hsame.
        destruct (decide (RoleEntity.title
                            (applyRoleUpdate now
                               (removeUndefinedProperties (updateEntries model)) doc) = ""))
          as [|Hne]; [done|].
        destruct Hid. apply (Hinv id' id role doc Hrole Hdoc).
        -- rewrite Hsame, Htitle.
           destruct (UpdateRoleModel.title model) as [title|]; [|done].
           destruct (decide (Some title = Some (RoleEntity.title doc))) as [[= ->]|Hn]; [done|].
           by destruct Hchanged.
        -- by rewrite Hsame.
    + cbn [snd]. apply DistinctTitles_insert; [done|].
      intros id' role Hid Hrole Hsame.
      destruct (UpdateRoleModel.title model) as [title|] eqn:Hmodel.
      * cbn [truthy] in Htruthy. apply negb_false_iff, bool_decide_eq_true in Htruthy.
        subst title. by rewrite Htitle.
      * cbn [default from_option] in Htitle.
        destruct (decide (RoleEntity.title doc = "")) as [Hempty|Hne]; [by rewrite Htitle|].
        destruct Hid. apply (Hinv id' id role doc Hrole Hdoc); [|congruence].
        by rewrite Hsame, Htitle.
  - rewrite perform_deleteRole.
    destruct (visibleRole c id) as [doc|] eqn:Hdoc; [|done].
    destruct (assignedTo id c); [|done]. cbn [snd].
    apply DistinctTitles_insert; [done|].
    intros id' role Hid Hrole Hsame. cbn [RoleEntity.title] in Hsame |- *.
    destruct (decide (RoleEntity.title doc = "")) as [|Hne]; [done|].
    destruct Hid. apply (Hinv id' id role doc Hrole Hdoc); [done|congruence].
Qed.

(** X18. The role management keeps role titles apart.  When no two roles
    that a lookup finds share a title that is not empty, this is still so
    after any history of [createRole], [updateRole] and [deleteRole] calls,
    served one after the other, whichever of them were rejected.  The empty
    title is the exception the code leaves: [updateRole] sets it without a
    test. *)
Theorem role_titles_stay_distinct (history : list (Z * RoleRequest)) (c : Collections) :
  DistinctTitles c → DistinctTitles (serveAll history c).
Proof.
  revert c. induction history as [|[now request] history IH]; intros c Hinv; [done|].
  cbn [serveAll foldl fst snd]. apply IH. by apply serve_DistinctTitles.
Qed.

(** X19. A role that a user is assigned cannot be deleted.  [deleteRole] of
    a role the lookup finds is rejected with ROLE_ASSIGNED_TO_USER (409)
    when some user the lookup finds has the id among its roles, and then
    nothing is written.  When no such user has it, the call resolves to
    true, and the document it leaves under the id has [deletedAt] set to
    the second of the call and the title, the permission lists and
    [isDeleted] of before. *)
Theorem deleteRole_of_an_assigned_role id now c doc :
  visibleRole c id = Some doc →
  (∀ user, user ∈ users (database c) → UserEntity.isDeleted user = false →
           id ∈ UserEntity.roles user →
           perform (RoleManagement.deleteRole id) now c
           = (Rejected (Thrown (HttpException "ROLE_ASSIGNED_TO_USER" CONFLICT)), c))
  ∧ ((∀ user, user ∈ users (database c) → UserEntity.isDeleted user = false →
              id ∉ UserEntity.roles user) →
     ∃ doc',
       perform (RoleManagement.deleteRole id) now c
       = (Fulfilled true, mkCollections (database c) (<[id := doc']> (roles c)))
       ∧ RoleEntity.deletedAt doc' = Some now
       ∧ RoleEntity.title doc' = RoleEntity.title doc
       ∧ RoleEntity.includedPermissions doc' = RoleEntity.includedPermissions doc
       ∧ RoleEntity.excludedPermissions doc' = RoleEntity.excludedPermissions doc
       ∧ RoleEntity.isDeleted doc' = RoleEntity.isDeleted doc).
Proof.
  intros Hdoc. rewrite perform_deleteRole, Hdoc. split.
  - intros user Hin Hvis Hrole.
    assert (user ∈ assignedTo id c) as Hassigned.
    { unfold assignedTo. rewrite list_elem_of_In. apply List.filter_In.
      split; [by apply list_elem_of_In|].
      unfold softDeleteFilter. rewrite Hvis. cbn. by apply bool_decide_eq_true. }
    destruct (assignedTo id c); [|done]. by apply elem_of_nil in Hassigned.
  - intros Hnone.
    destruct (assignedTo id c) as [|user rest] eqn:Hassigned.
    + eexists. split; [reflexivity|]. done.
    + exfalso. assert (user ∈ assignedTo id c) as Hin by (rewrite Hassigned; by left).
      unfold assignedTo in Hin. rewrite list_elem_of_In in Hin.
      apply List.filter_In in Hin as [Hin Htest].
      apply andb_true_iff in Htest as [Hvis Hrole].
      apply bool_decide_eq_true in Hrole.
      apply (Hnone user); [by apply list_elem_of_In| |done].
      unfold softDeleteFilter in Hvis. by destruct (UserEntity.isDeleted user).
Qed.

(** X20. A role that was created is found.  When [createRole] resolves, with
    the role under the new id, [getRoleById] of that id resolves to the same
    role: it has the title and the description of the model, the color and
    the permission lists of the model where the model has them and
    otherwise the color #000000 and empty lists; and every role that was
    found before is found as before. *)
Theorem createRole_then_getRoleById oid model now c role c' :
  perform (RoleManagement.createRole oid model) now c = (Fulfilled role, c') →
  (∀ now', perform (RoleManagement.getRoleById oid) now' c' = (Fulfilled role, c'))
  ∧ RoleModel.id role = oid
  ∧ RoleModel.title role = CreateRoleModel.title model
  ∧ RoleModel.title role ≠ ""
  ∧ RoleModel.description role = CreateRoleModel.description model
  ∧ RoleModel.color role = default "#000000" (CreateRoleModel.color model)
  ∧ RoleModel.includedPermissions role
    = default [] (CreateRoleModel.includedPermissions model)
  ∧ RoleModel.excludedPermissions role
    = default [] (CreateRoleModel.excludedPermissions model)
  ∧ (∀ id, id ≠ oid → visibleRole c' id = visibleRole c id)
  ∧ database c' = database c.
Proof.
  rewrite perform_createRole. case_bool_decide as Htaken; [done|].
  destruct (invalidPaths model) eqn:Hvalid; [|done].
  destruct (roles c !! oid) eqn:Hoid; [done|]. intros [= <- <-].
  split; [|split; [done|split; [done|split; [|split; [done|split; [done|split; [done|split;
    [done|split; [|done]]]]]]]]].
  - intros now'.
    by rewrite perform_getRoleById, visibleRole_insert, bool_decide_eq_true_2.
  - cbn [RoleEntity.toModel RoleModel.title newRoleDocument RoleEntity.title].
    intros Hempty. unfold invalidPaths in Hvalid. rewrite Hempty in Hvalid.
    rewrite (bool_decide_eq_true_2 ("" = "")) in Hvalid by done.
    by destruct (bool_decide _).
  - intros id Hid. by rewrite visibleRole_insert, bool_decide_eq_false_2.
Qed.

(** X21. What the role management never does.  A [createRole], [updateRole]
    or [deleteRole] that is rejected leaves the collections as they were;
    and whether rejected or not, none of them changes the users and the
    sessions, and none removes a document from the roles: every id that was
    stored is stored afterwards. *)
Theorem role_calls_write_nothing_when_rejected now c :
  (∀ oid model r c',
     perform (RoleManagement.createRole oid model) now c = (Rejected r, c') → c' = c)
  ∧ (∀ id model r c',
       perform (RoleManagement.updateRole id model) now c = (Rejected r, c') → c' = c)
  ∧ (∀ id r c',
       perform (RoleManagement.deleteRole id) now c = (Rejected r, c') → c' = c)
  ∧ (∀ request,
       database (serve now request c) = database c
       ∧ ∀ id, is_Some (roles c !! id) → is_Some (roles (serve now request c) !! id)).
Proof.
  split; [|split; [|split]].
  - intros oid model r c'. rewrite perform_createRole.
    case_bool_decide; [by intros [= _ <-]|].
    destruct (invalidPaths model); [|by intros [= _ <-]].
    by destruct (roles c !! oid); [intros [= _ <-]|].
  - intros id model r c'. rewrite perform_updateRole.
    destruct (visibleRole c id); [|by intros [= _ <-]].
    by destruct (_ && _); [intros [= _ <-]|].
  - intros id r c'. rewrite perform_deleteRole.
    destruct (visibleRole c id); [|by intros [= _ <-]].
    by destruct (assignedTo id c); [|intros [= _ <-]].
  - assert (∀ id doc id', is_Some (roles c !! id') →
                          is_Some (<[id := doc]> (roles c) !! id')) as Hkept.
    { intros id doc id' Hsome. destruct (decide (id' = id)) as [->|Hne].
      - by rewrite lookup_insert_eq.
      - by rewrite lookup_insert_ne. }
    intros [oid model|id model|id]; cbn [serve].
    + rewrite perform_createRole. case_bool_decide; [done|].
      destruct (invalidPaths model); [|done].
      destruct (roles c !! oid) eqn:Hoid; [done|]. cbn [snd database roles]. split; [done|].
      apply Hkept.
    + rewrite perform_updateRole. destruct (visibleRole c id); [|done].
      destruct (_ && _); [done|]. cbn [snd database roles]. split; [done|]. apply Hkept.
    + rewrite perform_deleteRole. destruct (visibleRole c id); [|done].
      destruct (assignedTo id c); [|done]. cbn [snd database roles]. split; [done|].
      apply Hkept.
Qed.

(** X22. An update of a role is partial, and it is found afterwards.  When
    [updateRole] resolves, the role it resolves to has, for the title, the
    color and the two permission lists, the value of the model where the
    model defines one and the stored value otherwise, and a description of
    the model replaces the stored one; [getRoleById] of the id then resolves
    to this role, and the documents under the other ids are as before. *)
Theorem updateRole_sets_what_the_model_defines id model now c role c' :
  perform (RoleManagement.updateRole id model) now c = (Fulfilled role, c') →
  ∃ doc,
    visibleRole c id = Some doc
    ∧ RoleModel.id role = id
    ∧ RoleModel.title role = default (RoleEntity.title doc) (UpdateRoleModel.title model)
    ∧ RoleModel.color role = default (RoleEntity.color doc) (UpdateRoleModel.color model)
    ∧ RoleModel.description role
      = match UpdateRoleModel.description model with
        | Some text => Some text
        | None => RoleEntity.description doc
        end
    ∧ RoleModel.includedPermissions role
      = default (RoleEntity.includedPermissions doc)
                (UpdateRoleModel.includedPermissions model)
    ∧ RoleModel.excludedPermissions role
      = default (RoleEntity.excludedPermissions doc)
                (UpdateRoleModel.excludedPermissions model)
    ∧ (∀ now', perform (RoleManagement.getRoleById id) now' c' = (Fulfilled role, c'))
    ∧ (∀ id', id' ≠ id → roles c' !! id' = roles c !! id').
Proof.
  rewrite perform_updateRole.
  destruct (visibleRole c id) as [doc|] eqn:Hdoc; [|done].
  destruct (_ && _); [done|].
  pose proof (applyRoleUpdate_fields now model doc) as Hfields. cbn zeta in Hfields.
  revert Hfields.
  generalize (applyRoleUpdate now (removeUndefinedProperties (updateEntries model)) doc).
  intros doc' (Htitle & Hcolor & Hdescription & Hincluded & Hexcluded & _ & _ & _ & Hdeleted)
    [= <- <-].
  exists doc. split; [done|]. split; [done|].
  cbn [RoleEntity.toModel RoleModel.title RoleModel.color RoleModel.description
         RoleModel.includedPermissions RoleModel.excludedPermissions].
  split; [done|]. split; [done|]. split; [done|]. split; [done|]. split; [done|]. split.
  - intros now'.
    rewrite perform_getRoleById, visibleRole_insert, bool_decide_eq_true_2 by done.
    rewrite Hdeleted.
    unfold visibleRole in Hdoc. destruct (roles c !! id) as [stored|]; [|done].
    destruct (softDeleteFilter (RoleEntity.isDeleted stored)) eqn:Hvis; [|done].
    injection Hdoc as ->. by rewrite Hvis.
  - intros id' Hne. cbn [roles]. by rewrite lookup_insert_ne.
Qed.
End Roles.

Lemma Office_distinct_titles : DistinctTitles Office.collections.
Proof.
  assert (∀ id role, visibleRole Office.collections id = Some role →
                     (id = "r1" ∧ role = Office.editor)
                     ∨ (id = "r2" ∧ role = Office.restricted)) as Hroles.
  { intros id role. unfold visibleRole, Office.collections. cbn [roles].
    destruct (decide (id = "r1")) as [->|H1].
    - rewrite lookup_insert_eq. cbn. intros [= <-]. by left.
    - rewrite lookup_insert_ne by done.
      destruct (decide (id = "r2")) as [->|H2].
      + rewrite lookup_insert_eq. cbn. intros [= <-]. by right.
      + by rewrite lookup_insert_ne, lookup_empty. }
  intros id1 id2 role1 role2 Hrole1 Hrole2 Htitle _.
  destruct (Hroles _ _ Hrole1) as [[-> ->]|[-> ->]];
    destruct (Hroles _ _ Hrole2) as [[-> ->]|[-> ->]]; done.
Qed.

(** X18, on the office, where Editor and Restricted are the titles taken: a
    second Editor is refused, Restricted may not be renamed Editor, Editor
    is renamed Chief, whereupon a new Editor is created; Restricted, which
    nobody is assigned, is deleted, and Chief, which is Bob's, is not. *)
Lemma role_titles_stay_distinct_witness :
  let history :=
    [ (300, CreateRole "r3" (CreateRoleModel.mk "Editor" None None None None));
      (310, UpdateRole "r2" (UpdateRoleModel.mk (Some "Editor") None None None None));
      (320, UpdateRole "r1" (UpdateRoleModel.mk (Some "Chief") None None None None));
      (330, CreateRole "r4" (CreateRoleModel.mk "Editor" None None None None));
      (340, DeleteRole "r2");
      (350, DeleteRole "r1") ] in
  DistinctTitles (serveAll history Office.collections)
  ∧ (RoleEntity.title <$> roles (serveAll history Office.collections))
    = <["r1" := "Chief"]> (<["r2" := "Restricted"]> (<["r4" := "Editor"]> ∅))
  ∧ (RoleEntity.deletedAt <$> roles (serveAll history Office.collections))
    = <["r1" := None]> (<["r2" := Some 340]> (<["r4" := None]> ∅)).
Proof.
  intros history. split; [|split; by vm_compute].
  apply role_titles_stay_distinct, Office_distinct_titles.
Defined.

(** X19, on the office: r1 is Bob's, r2 is nobody's. *)
Lemma deleteRole_of_an_assigned_role_witness :
  perform (RoleManagement.deleteRole "r1") 300 Office.collections
  = (Rejected (Thrown (HttpException "ROLE_ASSIGNED_TO_USER" CONFLICT)), Office.collections)
  ∧ ∃ doc',
      perform (RoleManagement.deleteRole "r2") 300 Office.collections
      = (Fulfilled true,
         mkCollections (database Office.collections)
           (<["r2" := doc']> (roles Office.collections)))
      ∧ RoleEntity.deletedAt doc' = Some 300
      ∧ RoleEntity.isDeleted doc' = false.
Proof.
  split.
  - apply (proj1 (deleteRole_of_an_assigned_role "r1" 300 Office.collections Office.editor
                    ltac:(vm_compute; reflexivity)) Office.bob).
    + cbn. set_solver.
    + done.
    + cbn. set_solver.
  - destruct (proj2 (deleteRole_of_an_assigned_role "r2" 300 Office.collections
                       Office.restricted ltac:(vm_compute; reflexivity)))
      as (doc' & Hrun & Hat & _ & _ & _ & Hdeleted).
    + intros user Hin _. cbn in Hin. set_unfold in Hin.
      destruct Hin as [->|[->|[]]]; cbn; set_solver.
    + exists doc'. split; [done|]. split; [done|]. by rewrite Hdeleted.
Defined.

(** X20, on the office: the Auditor role is created with the schema's color
    and an empty list of excluded permissions. *)
Lemma createRole_then_getRoleById_witness :
  ∃ role c',
    perform (RoleManagement.createRole "r3" Office.auditor) 300 Office.collections
    = (Fulfilled role, c')
    ∧ perform (RoleManagement.getRoleById "r3") 301 c' = (Fulfilled role, c')
    ∧ RoleModel.color role = "#000000"
    ∧ RoleModel.excludedPermissions role = [].
Proof.
  eexists _, _. split; [vm_compute; reflexivity|].
  match goal with
  | |- perform _ _ ?c' = (Fulfilled ?role, _) ∧ _ =>
      destruct (createRole_then_getRoleById "r3" Office.auditor 300 Office.collections
                  role c' ltac:(vm_compute; reflexivity))
        as (Hfound & _ & _ & _ & _ & Hcolor & _ & Hexcluded & _)
  end.
  split; [apply Hfound|]. split; [apply Hcolor|apply Hexcluded].
Defined.

(** X21, on the office: a second Editor is refused and nothing is written. *)
Lemma role_calls_write_nothing_when_rejected_witness :
  perform (RoleManagement.createRole "r3" (CreateRoleModel.mk "Editor" None None None None))
          300 Office.collections
  = (Rejected (Thrown (HttpException "ROLE_TITLE_ALREADY_EXISTS" CONFLICT)),
     Office.collections).
Proof.
  assert (∃ r c', perform (RoleManagement.createRole "r3"
                             (CreateRoleModel.mk "Editor" None None None None))
                          300 Office.collections = (Rejected r, c')
                  ∧ r = Thrown (HttpException "ROLE_TITLE_ALREADY_EXISTS" CONFLICT))
    as (r & c' & Hrun & ->).
  { eexists _, _. split; vm_compute; reflexivity. }
  rewrite Hrun. f_equal.
  apply (proj1 (role_calls_write_nothing_when_rejected 300 Office.collections) _ _ _ _ Hrun).
Defined.

(** X22, on the office: r1 gets a color and a list of excluded permissions
    and keeps its title. *)
Lemma updateRole_sets_what_the_model_defines_witness :
  ∃ role c',
    perform (RoleManagement.updateRole "r1" Office.recolor) 300 Office.collections
    = (Fulfilled role, c')
    ∧ RoleModel.title role = "Editor"
    ∧ RoleModel.color role = "#0f0"
    ∧ perform (RoleManagement.getRoleById "r1") 301 c' = (Fulfilled role, c').
Proof.
  eexists _, _. split; [vm_compute; reflexivity|].
  match goal with
  | |- _ ∧ _ ∧ perform _ _ ?c' = (Fulfilled ?role, _) =>
      destruct (updateRole_sets_what_the_model_defines "r1" Office.recolor 300
                  Office.collections role c' ltac:(vm_compute; reflexivity))
        as (doc & Hdoc & _ & Htitle & Hcolor & _ & _ & _ & Hfound & _)
  end.
  assert (doc = Office.editor) as ->.
  { assert (visibleRole Office.collections "r1" = Some Office.editor) as Hstored
      by (vm_compute; reflexivity).
    rewrite Hstored in Hdoc. by injection Hdoc as <-. }
  split; [apply Htitle|]. split; [apply Hcolor|apply Hfound].
Defined.

(* ===================================================================== *)
(** * The deployment's tokens *)
(* ===================================================================== *)









